(** * Conductor: the orchestration kernel, embedded and verified

    A shallow embedding of the TypeScript kernel of Conductor
    (scope resolution, prompt assembly, agent spawn, task classification,
    the orchestrator loop, the mock stages, the logger, the LLM response
    parser, the prompt loader, the response guards, the configuration
    loader, the Gemini provider and the command line), followed by the
    theorems that relate it to its specification and to itself.

    Conventions of the embedding.
    - A JavaScript string is a [string]: its sequence of code units, each
      code unit below 256 (the scanners of the kernel compare code units
      with ASCII characters only).
    - A JavaScript [number] that the kernel only carries around and prints
      (time limit, cost cap, clock reading) is an integer in [Z].
    - A function that may throw returns an [Outcome]; code that touches
      the clock, the random source or the audit sink runs in [Eff]. When
      the logger cannot create the logs directory, [mkdirSync] throws and
      the logger with it; a failed append is reported on stderr and
      swallowed, as the logger arranges.
    - An object literal used as a lookup table is a [gmap]; the members it
      inherits from [Object.prototype] are written out where the code
      reads the table with a key it did not check.
    - A value of type [unknown], or one cast without a check, is a [Json]
      value or [undefined]; a typed value is seen as such a value through
      [Untyped].
    - An asynchronous function is followed from its call to what its
      promise settles on, as a function of what the awaited calls give. *)

From Stdlib Require Import ZArith Lia Bool List Ascii String DecimalString.
From stdpp Require Import base option gmap strings list.
Import ListNotations.

Local Open Scope string_scope.
Set Warnings "-register-all".

(* ------------------------------------------------------------------------- *)
(** ** Strings as JavaScript has them *)
(* ------------------------------------------------------------------------- *)

Module Js.

(** The line feed and the double quote, which string literals cannot hold
    directly. *)
Definition LF : ascii := "010"%char.
Definition DQUOTE : ascii := "034"%char.
Definition BACKSLASH : ascii := "092"%char.

Definition str (c : ascii) : string := String c EmptyString.
Definition nl : string := str LF.
Definition dq : string := str DQUOTE.

(** [WhiteSpace] and [LineTerminator] of ECMAScript, restricted to one
    code unit below 256: TAB, LF, VT, FF, CR, SP and NBSP. This is the
    class that [String.prototype.trim] strips and that [\s] matches. *)
Definition isWhiteSpace (c : ascii) : bool :=
  let n := nat_of_ascii c in
  (Nat.leb 9 n && Nat.leb n 13) || Nat.eqb n 32 || Nat.eqb n 160.

(** [s.trimStart()] *)
Fixpoint trimStart (s : string) : string :=
  match s with
  | EmptyString => EmptyString
  | String c s' => if isWhiteSpace c then trimStart s' else s
  end.

(** [s.trimEnd()] *)
Fixpoint trimEnd (s : string) : string :=
  match s with
  | EmptyString => EmptyString
  | String c s' =>
      match trimEnd s' with
      | EmptyString => if isWhiteSpace c then EmptyString else str c
      | t => String c t
      end
  end.

(** [s.trim()] *)
Definition trim (s : string) : string := trimEnd (trimStart s).

(** [arr.join(sep)] on an array of strings. *)
Definition join (sep : string) (l : list string) : string :=
  String.concat sep l.

(** [s.indexOf(c)] for a one-character needle: the first index, or -1. *)
Fixpoint indexOfFrom (c : ascii) (s : string) (i : Z) : Z :=
  match s with
  | EmptyString => (-1)%Z
  | String d s' => if Ascii.eqb d c then i else indexOfFrom c s' (i + 1)%Z
  end.

Definition indexOf (c : ascii) (s : string) : Z := indexOfFrom c s 0%Z.

(** [s.slice(from)] and [s.slice(from, to)] for indices within range, as
    the kernel calls them. *)
Fixpoint drop (n : nat) (s : string) : string :=
  match n, s with
  | O, _ => s
  | S n', String _ s' => drop n' s'
  | S _, EmptyString => EmptyString
  end.

Fixpoint take (n : nat) (s : string) : string :=
  match n, s with
  | S n', String c s' => String c (take n' s')
  | _, _ => EmptyString
  end.

Definition slice (s : string) (from to : Z) : string :=
  take (Z.to_nat (to - from)) (drop (Z.to_nat from) s).

(** [s.length] *)
Definition len (s : string) : Z := Z.of_nat (String.length s).

(** [String(n)] for an integer [n]: its decimal digits. *)
Definition Number_toString (n : Z) : string :=
  NilZero.string_of_int (Z.to_int n).

(** What a call can do besides returning. *)
Inductive Exn : Type :=
| TypeError (message : string)
| Error (message : string).

(** [err.message] *)
Definition message (e : Exn) : string :=
  match e with
  | TypeError m => m
  | Error m => m
  end.

Inductive Outcome (A : Type) : Type :=
| Return (a : A)
| Throw (e : Exn).
Arguments Return {A} a.
Arguments Throw {A} e.

Definition obind {A B} (m : Outcome A) (k : A -> Outcome B) : Outcome B :=
  match m with
  | Return a => k a
  | Throw e => Throw e
  end.

(** [arr.filter(p)] with a callback that may throw: the first exception
    aborts the whole call. *)
Fixpoint filterM {A} (p : A -> Outcome bool) (l : list A) : Outcome (list A) :=
  match l with
  | [] => Return []
  | x :: l' =>
      obind (p x) (fun keep =>
      obind (filterM p l') (fun rest =>
      Return (if keep then x :: rest else rest)))
  end.

End Js.

(* ------------------------------------------------------------------------- *)
(** ** src/core/types.ts (the part the runtime uses) *)
(* ------------------------------------------------------------------------- *)

Inductive AgentRole : Type := coordinator | product | dev | qa.

Definition AgentRole_toString (r : AgentRole) : string :=
  match r with
  | coordinator => "coordinator"
  | product => "product"
  | dev => "dev"
  | qa => "qa"
  end.

Inductive TaskType : Type := technical | type_product | type_ambiguous.

Record Task : Type := {
  taskId : string;
  type : option TaskType;
  body : string;
  contextRegistry : list string;
}.

(** [allowNetwork: boolean | readonly string[]] *)
Inductive NetworkPermission : Type :=
| NetBool (b : bool)
| NetList (domains : list string).

Record AgentPermissions : Type := {
  allowNetwork : NetworkPermission;
  allowFilesystem : bool;
  maxExecutionTime : Z;
  maxCostCap : Z;
}.

Record AgentManifest : Type := {
  role : AgentRole;
  image : string;
  systemPromptPath : string;
  permissions : AgentPermissions;
  tools : list string;
}.

(** [networkPolicy: 'none' | readonly string[]] *)
Inductive NetworkPolicy : Type :=
| NetworkNone
| NetworkDomains (domains : list string).

Inductive FilesystemPolicy : Type := FsWorkspace | FsNone.

Record ResolvedScope : Type := {
  scope_role : AgentRole;
  effectiveTools : list string;
  networkPolicy : NetworkPolicy;
  filesystemPolicy : FilesystemPolicy;
  scope_maxExecutionTime : Z;
  scope_maxCostCap : Z;
}.

(* ------------------------------------------------------------------------- *)
(** ** src/core/manifests.ts *)
(* ------------------------------------------------------------------------- *)

Module Manifests.

Inductive Capability : Type := network | filesystem.

Definition Capability_eqb (a b : Capability) : bool :=
  match a, b with
  | network, network | filesystem, filesystem => true
  | _, _ => false
  end.

(** The own properties of the object literal [TOOL_CAPABILITY_MAP]. *)
Definition TOOL_CAPABILITY_MAP : gmap string (list Capability) :=
  list_to_map
    [ ("fetch", [network]);
      ("curl", [network]);
      ("wget", [network]);
      ("http", [network]);
      ("npm", [network; filesystem]);
      ("pip", [network; filesystem]);
      ("read", [filesystem]);
      ("write", [filesystem]);
      ("fs", [filesystem]);
      ("cat", [filesystem]);
      ("cp", [filesystem]);
      ("mv", [filesystem]);
      ("rm", [filesystem]);
      ("mkdir", [filesystem]);
      ("grep", []);
      ("git", []);
      ("npm test", []);
      ("eslint", []);
      ("tsc", []);
      ("echo", []) ].

(** The table is written as an object literal, so its prototype is
    [Object.prototype]: a property read with one of these keys finds the
    inherited member (a function, or the prototype object itself for
    [__proto__]) instead of [undefined]. *)
Definition Object_prototype_keys : list string :=
  [ "constructor"; "__defineGetter__"; "__defineSetter__";
    "hasOwnProperty"; "__lookupGetter__"; "__lookupSetter__";
    "isPrototypeOf"; "propertyIsEnumerable"; "toString"; "valueOf";
    "__proto__"; "toLocaleString" ].

Definition COORDINATOR_MANIFEST : AgentManifest :=
  {| role := coordinator;
     image := "node:20-alpine";
     systemPromptPath := "docs/agents/coordinator.md";
     permissions := {| allowNetwork := NetBool false;
                       allowFilesystem := false;
                       maxExecutionTime := 30000;
                       maxCostCap := 5000 |};
     tools := ["grep"] |}.

Definition PRODUCT_MANIFEST : AgentManifest :=
  {| role := product;
     image := "node:20-alpine";
     systemPromptPath := "docs/agents/product.md";
     permissions := {| allowNetwork := NetBool false;
                       allowFilesystem := false;
                       maxExecutionTime := 120000;
                       maxCostCap := 20000 |};
     tools := ["grep"] |}.

Definition DEV_MANIFEST : AgentManifest :=
  {| role := dev;
     image := "node:20-alpine";
     systemPromptPath := "docs/agents/dev.md";
     permissions := {| allowNetwork := NetBool false;
                       allowFilesystem := true;
                       maxExecutionTime := 600000;
                       maxCostCap := 100000 |};
     tools := ["read"; "write"; "grep"; "git"; "npm test"; "eslint"; "tsc"] |}.

Definition QA_MANIFEST : AgentManifest :=
  {| role := qa;
     image := "node:20-alpine";
     systemPromptPath := "docs/agents/qa.md";
     permissions := {| allowNetwork := NetBool false;
                       allowFilesystem := false;
                       maxExecutionTime := 300000;
                       maxCostCap := 30000 |};
     tools := ["read"; "grep"] |}.

Definition MANIFEST_REGISTRY (r : AgentRole) : AgentManifest :=
  match r with
  | coordinator => COORDINATOR_MANIFEST
  | product => PRODUCT_MANIFEST
  | dev => DEV_MANIFEST
  | qa => QA_MANIFEST
  end.

End Manifests.

(* ------------------------------------------------------------------------- *)
(** ** Values, the host and effects *)
(* ------------------------------------------------------------------------- *)

(** A JavaScript value as [JSON.parse] produces it and [JSON.stringify]
    reads it. A number is kept as the decimal it was written as:
    [JNum m e] is [m * 10^e]. *)
Inductive Json : Type :=
| JNull
| JBool (b : bool)
| JNum (mantissa exponent : Z)
| JStr (s : string)
| JArr (items : list Json)
| JObj (fields : list (string * Json)).

Definition JInt (n : Z) : Json := JNum n 0.

(** [AuditEvent] of src/core/types.ts. *)
Record AuditEvent : Type := {
  timestamp : string;
  ev_taskId : string;
  eventType : string;
  agentId : option string;
  data : Json;
}.

(** What the kernel asks of Node: the clock, the random source, the file
    system and path resolution. The clock and the random source are
    oracles indexed by the number of observations made so far.
    [readFileSync p] is the content of the file, [None] when the call
    throws; [mkdirSync p], called with [recursive: true], is the message
    of the error the call throws, [None] when it returns. What
    [existsSync] and [mkdirSync] answer for a path is the same all through
    a run. *)
Record Host : Type := {
  Date_now : nat -> Z;
  Date_toISOString : Z -> string;
  entropy : nat -> ascii;
  readFileSync : string -> option string;
  existsSync : string -> bool;
  mkdirSync : string -> option string;
  path_resolve : list string -> string;
}.

(** The part of the world the kernel changes: how many observations of the
    host it has made, and the audit records it has handed to the sink, in
    order. *)
Record World : Type := {
  tick : nat;
  audit : list AuditEvent;
}.

Module Eff.

Definition t (A : Type) : Type := World -> Js.Outcome A * World.

Definition ret {A} (a : A) : t A := fun w => (Js.Return a, w).

Definition bind {A B} (m : t A) (k : A -> t B) : t B :=
  fun w =>
    match m w with
    | (Js.Return a, w') => k a w'
    | (Js.Throw e, w') => (Js.Throw e, w')
    end.

Definition lift {A} (o : Js.Outcome A) : t A := fun w => (o, w).

(** One observation of the host. *)
Definition observe {A} (f : nat -> A) : t A :=
  fun w => (Js.Return (f (tick w)), {| tick := S (tick w); audit := audit w |}).

Definition emit (e : AuditEvent) : t unit :=
  fun w => (Js.Return tt, {| tick := tick w; audit := audit w ++ [e] |}).

End Eff.

Notation "x <~ m ;; k" := (Eff.bind m (fun x => k))
  (at level 100, m at next level, right associativity).
Notation "m ;;; k" := (Eff.bind m (fun _ => k))
  (at level 100, right associativity).

Module Node.
Section WithHost.
Context (host : Host).

(** [Date.now()] *)
Definition now : Eff.t Z := Eff.observe (Date_now host).

(** [new Date().toISOString()] *)
Definition isoNow : Eff.t string :=
  ms <~ now ;; Eff.ret (Date_toISOString host ms).

Definition hexDigit (n : nat) : ascii :=
  match String.get n "0123456789abcdef" with
  | Some c => c
  | None => "0"%char
  end.

Definition hexByte (b : ascii) : string :=
  let n := nat_of_ascii b in
  String (hexDigit (n / 16)) (String (hexDigit (n mod 16)) EmptyString).

(** [crypto.randomBytes(n).toString('hex')] *)
Fixpoint randomHex (n : nat) : Eff.t string :=
  match n with
  | O => Eff.ret EmptyString
  | S n' =>
      b <~ Eff.observe (entropy host) ;;
      rest <~ randomHex n' ;;
      Eff.ret (hexByte b ++ rest)
  end.

End WithHost.
End Node.

(* ------------------------------------------------------------------------- *)
(** ** src/core/logger.ts *)
(* ------------------------------------------------------------------------- *)

Module Logger.
Section WithHost.
Context (host : Host).

Definition LOGS_DIR : string := "logs".

(** [ensureLogsDir(projectRoot)]: nothing catches what [mkdirSync]
    throws. *)
Definition ensureLogsDir (projectRoot : string) : Eff.t unit :=
  let logsPath := path_resolve host [projectRoot; LOGS_DIR] in
  if negb (existsSync host logsPath) then
    match mkdirSync host logsPath with
    | None => Eff.ret tt
    | Some message => Eff.lift (Js.Throw (Js.Error message))
    end
  else Eff.ret tt.


(** [logEvent(event, projectRoot)]: makes sure of the logs directory,
    stamps the record when the caller left the timestamp empty and hands
    it to the sink. The sink is [appendFileSync] on [getLogPath] of the
    record's task; a failed write is reported on stderr and swallowed, so
    the caller sees no difference. [audit] keeps the records in the order
    they were handed over, for all tasks together; the task of a record
    names its file. *)
Definition logEvent (event : AuditEvent) (projectRoot : string) : Eff.t unit :=
  ensureLogsDir projectRoot ;;;
  ts <~ (match timestamp event with
         | EmptyString => Node.isoNow host
         | t => Eff.ret t
         end) ;;
  Eff.emit {| timestamp := ts;
              ev_taskId := ev_taskId event;
              eventType := eventType event;
              agentId := agentId event;
              data := data event |}.

End WithHost.
End Logger.

(* ------------------------------------------------------------------------- *)
(** ** src/core/runtime.ts *)
(* ------------------------------------------------------------------------- *)

Record SpawnedAgent : Type := {
  sa_agentId : string;
  sa_manifest : AgentManifest;
  sa_task : Task;
  systemPrompt : string;
  scope : ResolvedScope;
  workspacePath : string;
  createdAt : string;
  status_ready : unit;   (* [status: 'ready'], the only value of its type *)
}.

Inductive SpawnErrorKind : Type :=
| manifest_invalid
| system_prompt_missing
| permission_conflict
| scope_violation.

Record SpawnError : Type := {
  kind : SpawnErrorKind;
  detail : string;
  manifestRole : AgentRole;
}.

Inductive SpawnResult : Type :=
| SpawnSuccess (agent : SpawnedAgent)
| SpawnFailure (error : SpawnError).

Module Runtime.
Import Manifests.

(** What [TOOL_CAPABILITY_MAP[tool] ?? []] evaluates to: the array of an
    own property, the empty array when the read gives [undefined], or
    the inherited member, which is not an array. *)
Inductive Capabilities : Type :=
| CapArray (caps : list Capability)
| NotAnArray.

Definition capabilitiesOf (tool : string) : Capabilities :=
  match TOOL_CAPABILITY_MAP !! tool with
  | Some caps => CapArray caps
  | None =>
      if bool_decide (tool ∈ Object_prototype_keys) then NotAnArray
      else CapArray []
  end.

(** [capabilities.includes(cap)]: a function or a plain object has no
    [includes] member, and calling [undefined] throws. *)
Definition includes (c : Capabilities) (cap : Capability) : Js.Outcome bool :=
  match c with
  | CapArray caps => Js.Return (existsb (Capability_eqb cap) caps)
  | NotAnArray => Js.Throw (Js.TypeError "capabilities.includes is not a function")
  end.

(** [a && b] with [b] evaluated only when [a] holds. *)
Definition andAlso (a : bool) (b : Js.Outcome bool) : Js.Outcome bool :=
  if a then b else Js.Return false.

(** [permissions.allowNetwork === false] *)
Definition isFalse (n : NetworkPermission) : bool :=
  match n with
  | NetBool false => true
  | _ => false
  end.

(** The callback of [filterTools]. *)
Definition keepTool (permissions : AgentPermissions) (tool : string) : Js.Outcome bool :=
  let capabilities := capabilitiesOf tool in
  Js.obind (andAlso (isFalse (allowNetwork permissions)) (includes capabilities network))
    (fun deniedNetwork =>
       if deniedNetwork then Js.Return false
       else
         Js.obind (andAlso (negb (allowFilesystem permissions))
                           (includes capabilities filesystem))
           (fun deniedFilesystem =>
              if deniedFilesystem then Js.Return false else Js.Return true)).

Definition filterTools (tools : list string) (permissions : AgentPermissions)
  : Js.Outcome (list string) :=
  Js.filterM (keepTool permissions) tools.

Definition resolveScope (manifest : AgentManifest) (effectiveTools : list string)
  : ResolvedScope :=
  let permissions := permissions manifest in
  let networkPolicy :=
    match allowNetwork permissions with
    | NetList domains => NetworkDomains domains
    | NetBool _ => NetworkNone
    end in
  let filesystemPolicy :=
    if allowFilesystem permissions then FsWorkspace else FsNone in
  {| scope_role := role manifest;
     effectiveTools := effectiveTools;
     networkPolicy := networkPolicy;
     filesystemPolicy := filesystemPolicy;
     scope_maxExecutionTime := maxExecutionTime permissions;
     scope_maxCostCap := maxCostCap permissions |}.

Definition networkLine (scope : ResolvedScope) : string :=
  match networkPolicy scope with
  | NetworkNone => "DENIED. No outbound network access is permitted."
  | NetworkDomains domains =>
      "RESTRICTED. Permitted domains: " ++ Js.join ", " domains ++ "."
  end.

Definition filesystemLine (scope : ResolvedScope) : string :=
  match filesystemPolicy scope with
  | FsWorkspace =>
      "RESTRICTED. Read/write is permitted within ./workspace only. All other paths are denied."
  | FsNone => "DENIED. No filesystem access is permitted."
  end.

Definition toolsList (scope : ResolvedScope) : string :=
  match effectiveTools scope with
  | [] => "  (none)"
  | ts => Js.join Js.nl (map (fun t => "  - " ++ t) ts)
  end.

Definition buildPermissionsBlock (scope : ResolvedScope) : string :=
  Js.join Js.nl
    [ "---";
      EmptyString;
      "## Runtime Permissions";
      EmptyString;
      "The following permissions are enforced structurally by the runtime.";
      "They are not guidelines. Attempting to exceed them will be denied and logged.";
      EmptyString;
      "**Network access:** " ++ networkLine scope;
      EmptyString;
      "**Filesystem access:** " ++ filesystemLine scope;
      EmptyString;
      "**Permitted tools:**";
      toolsList scope;
      EmptyString;
      "**Execution time limit:** " ++ Js.Number_toString (scope_maxExecutionTime scope) ++ "ms";
      EmptyString;
      "**Cost cap:** " ++ Js.Number_toString (scope_maxCostCap scope) ++ " tokens";
      EmptyString;
      "---";
      EmptyString;
      "## Enforcement Notice";
      EmptyString;
      "You are an untrusted, disposable runtime. Your capabilities are enforced externally.";
      "You have no memory of prior executions. You have no access to resources not listed above.";
      "Your output will be validated against the task specification before acceptance.";
      "If your task cannot be completed within these constraints, return a structured failure.";
      "Do not attempt workarounds. Do not escalate your own permissions. Fail explicitly." ].

Definition assembleSystemPrompt (roleContent : string) (scope : ResolvedScope) : string :=
  let permissionsBlock := buildPermissionsBlock scope in
  Js.trimEnd roleContent ++ Js.nl ++ Js.nl ++ permissionsBlock ++ Js.nl.

Section WithHost.
Context (host : Host).

(** [readFileSync] throwing is caught and turned into [null]. *)
Definition loadSystemPromptContent (systemPromptPath projectRoot : string)
  : option string :=
  let absolutePath := path_resolve host [projectRoot; systemPromptPath] in
  readFileSync host absolutePath.

Definition generateAgentId (role : AgentRole) : Eff.t string :=
  timestamp <~ Node.now host ;;
  suffix <~ Node.randomHex host 2 ;;
  Eff.ret (AgentRole_toString role ++ "-" ++ Js.Number_toString timestamp ++ "-" ++ suffix).

Definition spawnAgent (manifest : AgentManifest) (task : Task) (projectRoot : string)
  : Eff.t SpawnResult :=
  match loadSystemPromptContent (systemPromptPath manifest) projectRoot with
  | None =>
      Eff.ret (SpawnFailure
        {| kind := system_prompt_missing;
           detail := "Cannot read system prompt at path: " ++ systemPromptPath manifest
                     ++ " (resolved from: " ++ projectRoot ++ ")";
           manifestRole := role manifest |})
  | Some roleContent =>
      effectiveTools <~ Eff.lift (filterTools (tools manifest) (permissions manifest)) ;;
      let scope := resolveScope manifest effectiveTools in
      let systemPrompt := assembleSystemPrompt roleContent scope in
      agentId <~ generateAgentId (role manifest) ;;
      let workspacePath := path_resolve host [projectRoot; "workspace"; agentId] in
      createdAt <~ Node.isoNow host ;;
      Eff.ret (SpawnSuccess
        {| sa_agentId := agentId;
           sa_manifest := manifest;
           sa_task := task;
           systemPrompt := systemPrompt;
           scope := scope;
           workspacePath := workspacePath;
           createdAt := createdAt;
           status_ready := tt |})
  end.

End WithHost.
End Runtime.

(* ------------------------------------------------------------------------- *)
(** ** Regular expressions, as far as the classifier writes them *)
(* ------------------------------------------------------------------------- *)

Module RegExp.

(** The syntax the patterns of the classifier use: literals, the classes
    [\w] and [\s] under a quantifier, alternation, an optional group,
    [\b], and [$]. *)
Inductive Re : Type :=
| Lit (s : string)                  (* the characters of s, in order *)
| Seq (a b : Re)
| Alt (a b : Re)
| Opt (a : Re)                      (* (a)? *)
| Rep (p : ascii -> bool) (min max : nat)   (* class{min,max} *)
| Star (p : ascii -> bool)          (* class* *)
| Plus (p : ascii -> bool)          (* class+ *)
| WordBoundary                      (* \b *)
| EndAnchor.                        (* $ *)

Record t : Type := {
  source : Re;
  ignoreCase : bool;     (* flag i *)
  multiline : bool;      (* flag m *)
}.

Definition isUpper (c : ascii) : bool :=
  let n := nat_of_ascii c in Nat.leb 65 n && Nat.leb n 90.

Definition isWordChar (c : ascii) : bool :=
  let n := nat_of_ascii c in
  (Nat.leb 65 n && Nat.leb n 90) || (Nat.leb 97 n && Nat.leb n 122)
  || (Nat.leb 48 n && Nat.leb n 57) || Nat.eqb n 95.

Definition isLineTerminator (c : ascii) : bool :=
  let n := nat_of_ascii c in Nat.eqb n 10 || Nat.eqb n 13.

(** Canonicalisation under flag [i]: ASCII letters compare by their
    lower-case form. *)
Definition fold (c : ascii) : ascii :=
  if isUpper c then ascii_of_nat (nat_of_ascii c + 32) else c.

Definition sameChar (i : bool) (a b : ascii) : bool :=
  if i then Ascii.eqb (fold a) (fold b) else Ascii.eqb a b.

(** A position in the subject: the code unit before it, if any, and the
    text from it on. *)
Definition Pos : Type := (option ascii * string)%type.

Definition isWordAt (c : option ascii) : bool :=
  match c with Some c => isWordChar c | None => false end.

Definition next (s : string) : option ascii :=
  match s with String c _ => Some c | EmptyString => None end.

Fixpoint litEnds (i : bool) (l : string) (prev : option ascii) (s : string) : list Pos :=
  match l with
  | EmptyString => [(prev, s)]
  | String a l' =>
      match s with
      | String c s' => if sameChar i a c then litEnds i l' (Some c) s' else []
      | EmptyString => []
      end
  end.

Fixpoint starEnds (p : ascii -> bool) (prev : option ascii) (s : string) : list Pos :=
  (prev, s) ::
  match s with
  | String c s' => if p c then starEnds p (Some c) s' else []
  | EmptyString => []
  end.

Fixpoint repEnds (p : ascii -> bool) (min max : nat) (prev : option ascii) (s : string)
  : list Pos :=
  (if Nat.eqb min 0 then [(prev, s)] else []) ++
  match max, s with
  | S max', String c s' => if p c then repEnds p (Nat.pred min) max' (Some c) s' else []
  | _, _ => []
  end.

(** Every position at which a match of [r] that starts at [(prev, s)]
    can end. *)
Fixpoint ends (i m : bool) (r : Re) (prev : option ascii) (s : string) : list Pos :=
  match r with
  | Lit l => litEnds i l prev s
  | Seq a b => flat_map (fun q : Pos => ends i m b (fst q) (snd q)) (ends i m a prev s)
  | Alt a b => ends i m a prev s ++ ends i m b prev s
  | Opt a => ends i m a prev s ++ [(prev, s)]
  | Rep p min max => repEnds p min max prev s
  | Star p => starEnds p prev s
  | Plus p =>
      match s with
      | String c s' => if p c then starEnds p (Some c) s' else []
      | EmptyString => []
      end
  | WordBoundary =>
      if xorb (isWordAt prev) (isWordAt (next s)) then [(prev, s)] else []
  | EndAnchor =>
      match s with
      | EmptyString => [(prev, s)]
      | String c _ => if m && isLineTerminator c then [(prev, s)] else []
      end
  end.

Fixpoint testFrom (re : t) (prev : option ascii) (s : string) : bool :=
  match ends (ignoreCase re) (multiline re) (source re) prev s with
  | _ :: _ => true
  | [] =>
      match s with
      | String c s' => testFrom re (Some c) s'
      | EmptyString => false
      end
  end.

(** [re.test(s)] for a pattern without the flags [g] and [y]: is there a
    match anywhere in [s]. *)
Definition test (re : t) (s : string) : bool := testFrom re None s.

(** [(a|b|...)] *)
Fixpoint oneOf (ws : list string) : Re :=
  match ws with
  | [] => Lit EmptyString
  | [w] => Lit w
  | w :: ws' => Alt (Lit w) (oneOf ws')
  end.

Fixpoint seq (rs : list Re) : Re :=
  match rs with
  | [] => Lit EmptyString
  | [r] => r
  | r :: rs' => Seq r (seq rs')
  end.

Notation "'\b'" := WordBoundary.
Notation "'\s*'" := (Star Js.isWhiteSpace).
Notation "'\s+'" := (Plus Js.isWhiteSpace).

(** [/.../i] *)
Definition i (rs : list Re) : t :=
  {| source := seq rs; ignoreCase := true; multiline := false |}.

End RegExp.

(* ------------------------------------------------------------------------- *)
(** ** src/agents/mock-coordinator.ts *)
(* ------------------------------------------------------------------------- *)

Inductive ClassificationCategory : Type :=
| technical_explicit
| business
| ambiguous.

Inductive Route : Type := to_product | to_dev.

Inductive ClassificationConfidence : Type := deterministic | heuristic.

Record ClassificationResult : Type := {
  category : ClassificationCategory;
  routedTo : Route;
  confidence : ClassificationConfidence;
  ruleApplied : string;
}.

Definition TaskType_toString (t : TaskType) : string :=
  match t with
  | technical => "technical"
  | type_product => "product"
  | type_ambiguous => "ambiguous"
  end.

Definition Category_toString (c : ClassificationCategory) : string :=
  match c with
  | technical_explicit => "technical_explicit"
  | business => "business"
  | ambiguous => "ambiguous"
  end.

Definition Route_toString (r : Route) : string :=
  match r with to_product => "product" | to_dev => "dev" end.

Definition Confidence_toString (c : ClassificationConfidence) : string :=
  match c with deterministic => "deterministic" | heuristic => "heuristic" end.

Module Coordinator.
Import RegExp.

Definition TECHNICAL_PATTERNS : list RegExp.t :=
  [ {| source := seq [Lit "."; Rep isWordChar 1 4; EndAnchor];
       ignoreCase := false; multiline := true |};
    i [\b; oneOf ["src"; "dist"; "lib"; "node_modules"]; Lit "/"];
    i [\b; oneOf ["refactor"; "refatore"]; \b];
    i [\b; oneOf ["endpoint"; "route"; "api"]; \b];
    i [\b; oneOf ["function"; "method"; "class"; "interface"; "module"]; \b];
    i [\b; Alt (oneOf ["bug"; "fix"; "error"; "exception"])
               (seq [Lit "stack"; \s*; Lit "trace"]); \b];
    i [\b; oneOf ["implement"; "create"; "add"; "remove"; "delete"; "rename"; "move"];
       \s+; Opt (seq [Lit "a"; \s+]);
       oneOf ["function"; "file"; "endpoint"; "route"; "class"; "component"; "test"]];
    i [\b; oneOf ["migrate"; "migration"]; \b];
    i [\b; oneOf ["import"; "export"; "require"]; \b];
    i [\b; oneOf ["npm"; "yarn"; "pnpm"]; \s+; oneOf ["install"; "test"; "run"; "build"]; \b];
    i [\b; Lit "git"; \s+;
       oneOf ["commit"; "push"; "pull"; "merge"; "rebase"; "checkout"]; \b];
    i [\b; oneOf ["docker"; "container"]; \b];
    i [\b; oneOf ["TypeScript"; "JavaScript"; "Python"; "Rust"; "Go"]; \b] ].

Definition BUSINESS_PATTERNS : list RegExp.t :=
  [ i [\b; oneOf ["user"; "customer"; "client"]; \s+;
       oneOf ["need"; "want"; "experience"; "story"; "feedback"]];
    i [\b; oneOf ["feature"; "functionality"]; \s+;
       oneOf ["request"; "description"; "proposal"]];
    i [\b; oneOf ["priorit"; "roadmap"; "strategy"; "vision"]; \b];
    i [\b; Alt (seq [Lit "trade"; Opt (Lit "-"); Lit "off"])
          (Alt (seq [Lit "cost"; Opt (Lit "-"); Lit "benefit"]) (Lit "ROI")); \b];
    i [\b; Alt (oneOf ["stakeholder"; "requirement"])
               (seq [Lit "acceptance"; \s+; Lit "criteria"]); \b];
    i [\b; Lit "product"; \s+;
       oneOf ["decision"; "direction"; "behavior"; "specification"]];
    i [\b; Alt (seq [Lit "should"; \s+; Lit "we"])
          (Alt (seq [Lit "do"; \s+; Lit "we"; \s+; Lit "need"])
               (seq [Lit "what"; \s+; Lit "if"])); \b];
    i [\b; Alt (oneOf ["market"; "competitor"])
               (seq [Lit "business"; \s+; Lit "value"]); \b] ].

(** The loop of [countMatches]: one increment per pattern that matches. *)
Fixpoint countMatches (body : string) (patterns : list RegExp.t) : nat :=
  match patterns with
  | [] => 0
  | pattern :: rest =>
      (if RegExp.test pattern body then 1 else 0) + countMatches body rest
  end.

Definition resultFields (r : ClassificationResult) : list (string * Json) :=
  [ ("category", JStr (Category_toString (category r)));
    ("routedTo", JStr (Route_toString (routedTo r)));
    ("confidence", JStr (Confidence_toString (confidence r)));
    ("ruleApplied", JStr (ruleApplied r)) ].

(** The decision of step 2, on the two scores. *)
Definition decideRoute (technicalScore businessScore : nat) : ClassificationResult :=
  if Nat.ltb 0 technicalScore && Nat.ltb businessScore technicalScore then
    {| category := technical_explicit; routedTo := to_dev;
       confidence := heuristic; ruleApplied := "Rule 2 - Technical Explicit" |}
  else if Nat.ltb 0 businessScore && Nat.leb technicalScore businessScore then
    {| category := business; routedTo := to_product;
       confidence := heuristic; ruleApplied := "Rule 2 - Business / Strategic" |}
  else
    {| category := ambiguous; routedTo := to_product;
       confidence := heuristic; ruleApplied := "Rule 2 - Ambiguous (default to Product)" |}.

Section WithHost.
Context (host : Host).

Definition classify (task : Task) (projectRoot : string) : Eff.t ClassificationResult :=
  match type task with
  | Some ty =>
      let result :=
        match ty with
        | technical =>
            {| category := technical_explicit; routedTo := to_dev;
               confidence := deterministic;
               ruleApplied := "Rule 1 - Operator type: technical" |}
        | _ =>
            {| category := match ty with type_product => business | _ => ambiguous end;
               routedTo := to_product;
               confidence := deterministic;
               ruleApplied := "Rule 1 - Operator type: " ++ TaskType_toString ty |}
        end in
      ts <~ Node.isoNow host ;;
      Logger.logEvent host
        {| timestamp := ts; ev_taskId := taskId task; eventType := "classification";
           agentId := None;
           data := JObj (resultFields result ++ [("source", JStr "operator_type")]) |}
        projectRoot ;;;
      Eff.ret result
  | None =>
      let technicalScore := countMatches (body task) TECHNICAL_PATTERNS in
      let businessScore := countMatches (body task) BUSINESS_PATTERNS in
      let result := decideRoute technicalScore businessScore in
      ts <~ Node.isoNow host ;;
      Logger.logEvent host
        {| timestamp := ts; ev_taskId := taskId task; eventType := "classification";
           agentId := None;
           data := JObj (resultFields result ++
                         [ ("source", JStr "keyword_matching");
                           ("technicalScore", JInt (Z.of_nat technicalScore));
                           ("businessScore", JInt (Z.of_nat businessScore)) ]) |}
        projectRoot ;;;
      Eff.ret result
  end.

End WithHost.
End Coordinator.

(* ------------------------------------------------------------------------- *)
(** ** [JSON.parse]: a reference reader *)
(* ------------------------------------------------------------------------- *)

(** The parser of src/core/llm/parser.ts is stated over any [JSON.parse];
    this reader of the JSON grammar (ECMA-404) is the one its examples run
    on. It is exact on texts whose [\u] escapes stay below 256, the
    alphabet of the embedding, and rejects the others. *)
Module JSON.

Definition isWs (c : ascii) : bool :=
  let n := nat_of_ascii c in
  Nat.eqb n 32 || Nat.eqb n 9 || Nat.eqb n 10 || Nat.eqb n 13.

Fixpoint skipWs (s : string) : string :=
  match s with
  | String c s' => if isWs c then skipWs s' else s
  | EmptyString => EmptyString
  end.

Definition digit (c : ascii) : option Z :=
  let n := nat_of_ascii c in
  if Nat.leb 48 n && Nat.leb n 57 then Some (Z.of_nat (n - 48)) else None.

Definition hexValue (c : ascii) : option nat :=
  let n := nat_of_ascii c in
  if Nat.leb 48 n && Nat.leb n 57 then Some (n - 48)
  else if Nat.leb 65 n && Nat.leb n 70 then Some (n - 55)
  else if Nat.leb 97 n && Nat.leb n 102 then Some (n - 87)
  else None.

(** The digits at the head of [s]: their value on top of [acc], how many
    there are, and the rest. *)
Fixpoint digits (s : string) (acc : Z) (count : nat) : Z * nat * string :=
  match s with
  | String c s' =>
      match digit c with
      | Some d => digits s' (10 * acc + d)%Z (S count)
      | None => (acc, count, s)
      end
  | EmptyString => (acc, count, s)
  end.

(** A string, read from just after its opening quote. *)
Fixpoint parseString (s : string) : option (string * string) :=
  match s with
  | EmptyString => None
  | String c s' =>
      if Ascii.eqb c Js.DQUOTE then Some (EmptyString, s')
      else if Ascii.eqb c Js.BACKSLASH then
        match s' with
        | String e s'' =>
            let simple (d : ascii) :=
              match parseString s'' with
              | Some (t, rest) => Some (String d t, rest)
              | None => None
              end in
            if Ascii.eqb e Js.DQUOTE then simple Js.DQUOTE
            else if Ascii.eqb e Js.BACKSLASH then simple Js.BACKSLASH
            else if Ascii.eqb e "/" then simple "/"%char
            else if Ascii.eqb e "b" then simple "008"%char
            else if Ascii.eqb e "f" then simple "012"%char
            else if Ascii.eqb e "n" then simple "010"%char
            else if Ascii.eqb e "r" then simple "013"%char
            else if Ascii.eqb e "t" then simple "009"%char
            else if Ascii.eqb e "u" then
              match s'' with
              | String h1 (String h2 (String h3 (String h4 s4))) =>
                  match hexValue h1, hexValue h2, hexValue h3, hexValue h4 with
                  | Some 0, Some 0, Some a, Some b =>
                      match parseString s4 with
                      | Some (t, rest) => Some (String (ascii_of_nat (16 * a + b)) t, rest)
                      | None => None
                      end
                  | _, _, _, _ => None
                  end
              | _ => None
              end
            else None
        | EmptyString => None
        end
      else if Nat.ltb (nat_of_ascii c) 32 then None
      else
        match parseString s' with
        | Some (t, rest) => Some (String c t, rest)
        | None => None
        end
  end.

(** A number: [-? int frac? exp?], no leading zero in [int]. *)
Definition parseNumber (s : string) : option (Json * string) :=
  let '(negative, s1) :=
    match s with
    | String "-" r => (true, r)
    | _ => (false, s)
    end in
  let '(int, intCount, s2) := digits s1 0%Z 0 in
  let leadingZero :=
    match s1 with
    | String "0" _ => Nat.ltb 1 intCount
    | _ => false
    end in
  if Nat.eqb intCount 0 || leadingZero then None
  else
    let fraction :=
      match s2 with
      | String "." r =>
          let '(m, fracCount, s3) := digits r int 0 in
          if Nat.eqb fracCount 0 then None else Some (m, fracCount, s3)
      | _ => Some (int, 0, s2)
      end in
    match fraction with
    | None => None
    | Some (m, fracCount, s3) =>
        let signed := if negative then (- m)%Z else m in
        let plain := Some (JNum signed (- Z.of_nat fracCount), s3) in
        let withExp (expNegative : bool) (r : string) :=
          let '(e, expCount, s4) := digits r 0%Z 0 in
          if Nat.eqb expCount 0 then None
          else Some (JNum signed ((if expNegative then - e else e) - Z.of_nat fracCount), s4) in
        match s3 with
        | String c r =>
            if Ascii.eqb c "e" || Ascii.eqb c "E" then
              match r with
              | String "+" r' => withExp false r'
              | String "-" r' => withExp true r'
              | _ => withExp false r
              end
            else plain
        | EmptyString => plain
        end
    end.

Definition Value : Type := (Json * string)%type.

(** The elements of an array after the first [[], which is not followed
    by []]. [n] bounds the number of elements. *)
Fixpoint parseElements (value : string -> option Value) (n : nat) (s : string)
    (acc : list Json) : option Value :=
  match n with
  | O => None
  | S n' =>
      match value s with
      | None => None
      | Some (v, rest) =>
          match skipWs rest with
          | String "," rest' => parseElements value n' rest' (v :: acc)
          | String "]" rest' => Some (JArr (rev (v :: acc)), rest')
          | _ => None
          end
      end
  end.

(** The members of an object, likewise. *)
Fixpoint parseMembers (value : string -> option Value) (n : nat) (s : string)
    (acc : list (string * Json)) : option Value :=
  match n with
  | O => None
  | S n' =>
      match skipWs s with
      | String q afterQuote =>
          if negb (Ascii.eqb q Js.DQUOTE) then None
          else
            match parseString afterQuote with
            | None => None
            | Some (key, afterKey) =>
                match skipWs afterKey with
                | String ":" afterColon =>
                    match value afterColon with
                    | None => None
                    | Some (v, rest) =>
                        match skipWs rest with
                        | String "," rest' => parseMembers value n' rest' ((key, v) :: acc)
                        | String "}" rest' => Some (JObj (rev ((key, v) :: acc)), rest')
                        | _ => None
                        end
                    end
                | _ => None
                end
            end
      | EmptyString => None
      end
  end.

Definition literal (word : string) (v : Json) (s : string) : option Value :=
  if String.prefix word s then Some (v, Js.drop (String.length word) s) else None.

(** A value with the white space before it. [fuel] bounds the nesting. *)
Fixpoint parseValue (fuel : nat) (s : string) : option Value :=
  match fuel with
  | O => None
  | S fuel' =>
      match skipWs s with
      | EmptyString => None
      | String c rest as s0 =>
          if Ascii.eqb c "{" then
            match skipWs rest with
            | String "}" rest' => Some (JObj [], rest')
            | _ => parseMembers (parseValue fuel') (String.length rest) rest []
            end
          else if Ascii.eqb c "[" then
            match skipWs rest with
            | String "]" rest' => Some (JArr [], rest')
            | _ => parseElements (parseValue fuel') (String.length rest) rest []
            end
          else if Ascii.eqb c Js.DQUOTE then
            match parseString rest with
            | Some (t, rest') => Some (JStr t, rest')
            | None => None
            end
          else if Ascii.eqb c "t" then literal "true" (JBool true) s0
          else if Ascii.eqb c "f" then literal "false" (JBool false) s0
          else if Ascii.eqb c "n" then literal "null" JNull s0
          else parseNumber s0
      end
  end.

(** [JSON.parse(text)]; [None] stands for the [SyntaxError] it throws. *)
Definition parse (text : string) : option Json :=
  match parseValue (S (String.length text)) text with
  | Some (v, rest) =>
      match skipWs rest with
      | EmptyString => Some v
      | _ => None
      end
  | None => None
  end.

End JSON.

(* ------------------------------------------------------------------------- *)
(** ** src/core/llm/parser.ts *)
(* ------------------------------------------------------------------------- *)

Module Parser.

Inductive ParseErrorKind : Type := invalid_json | schema_mismatch.

Record ParseError : Type := {
  raw : string;
  message : string;
  kind : ParseErrorKind;
}.

Inductive ParseResult : Type :=
| Success (data : Json)
| Failure (error : ParseError).

(** [a ?? b]: [b] when [a] is [null]. *)
Definition orElse (a b : Json) : Json :=
  match a with
  | JNull => b
  | _ => a
  end.
Infix "??" := orElse (at level 45, left associativity).

(** The text after the first [```] of [s]. *)
Fixpoint afterFence (s : string) : option string :=
  match s with
  | String "`" (String "`" (String "`" rest)) => Some rest
  | String _ s' => afterFence s'
  | EmptyString => None
  end.

(** The text before the first [```] of [s]. *)
Fixpoint beforeFence (s : string) : option string :=
  match s with
  | String "`" (String "`" (String "`" _)) => Some EmptyString
  | String c s' =>
      match beforeFence s' with
      | Some t => Some (String c t)
      | None => None
      end
  | EmptyString => None
  end.

(** Group 1 of the first match of
    [/```(?:json)?\s*\n?([\s\S]*?)```/] in [raw]. The match starts at the
    first fence; the greedy [(?:json)?] and [\s*] consume the tag and the
    white space after it, and the lazy group stops at the next fence. No
    other choice of the quantifiers can succeed where this one fails,
    because neither the tag nor white space holds a backquote. *)
Definition fenceGroup (raw : string) : option string :=
  match afterFence raw with
  | None => None
  | Some rest =>
      let afterTag := if String.prefix "json" rest then Js.drop 4 rest else rest in
      beforeFence (Js.trimStart afterTag)
  end.

(** The state of the loop of [tryBracketExtract] at index [i], with [s]
    the text from [i] on: the index at which the depth returns to zero. *)
Fixpoint scan (open close : ascii) (s : string) (i depth : Z) (inString escaped : bool)
  : option Z :=
  match s with
  | EmptyString => None
  | String ch s' =>
      if escaped then scan open close s' (i + 1)%Z depth inString false
      else if Ascii.eqb ch Js.BACKSLASH then scan open close s' (i + 1)%Z depth inString true
      else if Ascii.eqb ch Js.DQUOTE then
        scan open close s' (i + 1)%Z depth (negb inString) false
      else if inString then scan open close s' (i + 1)%Z depth inString false
      else
        let depth1 := if Ascii.eqb ch open then (depth + 1)%Z else depth in
        let depth2 := if Ascii.eqb ch close then (depth1 - 1)%Z else depth1 in
        if (depth2 =? 0)%Z then Some i
        else scan open close s' (i + 1)%Z depth2 false false
  end.

Section WithJSON.
Context (JSON_parse : string -> option Json).

(** Strategy 1. A [SyntaxError] becomes [null]. *)
Definition tryDirectParse (raw : string) : Json :=
  match JSON_parse raw with
  | Some v => v
  | None => JNull
  end.

(** Strategy 2. *)
Definition tryCodeFenceParse (raw : string) : Json :=
  match fenceGroup raw with
  | None => JNull
  | Some EmptyString => JNull
  | Some group => tryDirectParse (Js.trim group)
  end.

(** Strategy 3. *)
Definition tryBracketExtract (raw : string) : Json :=
  let startObj := Js.indexOf "{" raw in
  let startArr := Js.indexOf "[" raw in
  if (startObj =? -1)%Z && (startArr =? -1)%Z then JNull
  else
    let '(start, open, close) :=
      if (startArr =? -1)%Z || (negb (startObj =? -1)%Z && (startObj <? startArr)%Z)
      then (startObj, "{"%char, "}"%char)
      else (startArr, "["%char, "]"%char) in
    match scan open close (Js.drop (Z.to_nat start) raw) start 0%Z false false with
    | Some i => tryDirectParse (Js.slice raw start (i + 1))
    | None => JNull
    end.

(** [validate] is the caller's guard; nothing catches what it throws. *)
Definition parseJSON (raw : string) (validate : Json -> Js.Outcome bool)
  : Js.Outcome ParseResult :=
  let trimmed := Js.trim raw in
  let parsed :=
    tryDirectParse trimmed ?? tryCodeFenceParse trimmed ?? tryBracketExtract trimmed in
  match parsed with
  | JNull =>
      Js.Return
        (Failure {| raw := raw;
                    message := "Failed to extract valid JSON from LLM response.";
                    kind := invalid_json |})
  | _ =>
      Js.obind (validate parsed) (fun accepted =>
      if negb accepted then
        Js.Return
          (Failure {| raw := raw;
                      message := "JSON parsed successfully but does not match expected schema.";
                      kind := schema_mismatch |})
      else Js.Return (Success parsed))
  end.

End WithJSON.
End Parser.

(* ------------------------------------------------------------------------- *)
(** ** src/core/types.ts (the part the pipeline uses) *)
(* ------------------------------------------------------------------------- *)

Record IntentRequirement : Type := {
  req_id : string;
  req_description : string;
  verification : string;
}.

Record IntentConstraint : Type := {
  con_id : string;
  con_description : string;
}.

Record IntentAssumption : Type := {
  asm_id : string;
  statement : string;
  asm_source : string;
}.

Record IntentSpec : Type := {
  specId : string;
  spec_taskId : string;
  objective : string;
  requirements : list IntentRequirement;
  constraints : list IntentConstraint;
  outOfScope : list string;
  assumptions : list IntentAssumption;
  contextRefs : list string;
}.

Record DevArtifact : Type := {
  art_path : string;
  content : string;
  art_type : string;
}.

Record ToolInvocation : Type := {
  tool : string;
  args : Json;
  result : string;
  inv_timestamp : string;
}.

Inductive DevErrorType : Type :=
| err_scope_violation
| err_spec_unclear
| err_tool_failure
| err_timeout
| err_internal.

Record DevError : Type := {
  err_type : DevErrorType;
  err_detail : string;
}.

(** [DevOutput]: the two variants share [taskId], [specId] and
    [toolInvocations]; [status] is the tag. *)
Inductive DevOutput : Type :=
| DevCompleted (taskId specId : string) (artifacts : list DevArtifact)
    (toolInvocations : list ToolInvocation)
| DevFailed (taskId specId : string) (toolInvocations : list ToolInvocation)
    (error : DevError).

Inductive Verdict : Type := pass | fail.

Definition Verdict_toString (v : Verdict) : string :=
  match v with pass => "pass" | fail => "fail" end.

Record RequirementResult : Type := {
  requirementId : string;
  rr_status : Verdict;
  rr_evidence : string;
  verificationMethod : string;
}.

Record ConstraintResult : Type := {
  constraintId : string;
  cr_status : Verdict;
  cr_evidence : string;
}.

Record ScopeViolation : Type := {
  sv_description : string;
  invocationRef : string;
}.

Record ValidationSummary : Type := {
  totalRequirements : nat;
  passedRequirements : nat;
  failedRequirements : nat;
  totalConstraints : nat;
  violatedConstraints : nat;
  scopeViolationCount : nat;
}.

Record ValidationReport : Type := {
  vr_taskId : string;
  vr_specId : string;
  verdict : Verdict;
  requirementResults : list RequirementResult;
  constraintResults : list ConstraintResult;
  scopeViolations : list ScopeViolation;
  summary : ValidationSummary;
}.

Record ExecutionResult : Type := {
  er_taskId : string;
  classification : ClassificationResult;
  intentSpec : IntentSpec;
  devOutput : DevOutput;
  validation : ValidationReport;
}.

Definition Summary_toJson (s : ValidationSummary) : Json :=
  JObj [ ("totalRequirements", JInt (Z.of_nat (totalRequirements s)));
         ("passedRequirements", JInt (Z.of_nat (passedRequirements s)));
         ("failedRequirements", JInt (Z.of_nat (failedRequirements s)));
         ("totalConstraints", JInt (Z.of_nat (totalConstraints s)));
         ("violatedConstraints", JInt (Z.of_nat (violatedConstraints s)));
         ("scopeViolationCount", JInt (Z.of_nat (scopeViolationCount s))) ].

(* ------------------------------------------------------------------------- *)
(** ** src/agents/mock-product.ts *)
(* ------------------------------------------------------------------------- *)

Module MockProduct.
Section WithHost.
Context (host : Host).

Definition generateSpecId : Eff.t string :=
  suffix <~ Node.randomHex host 4 ;;
  ms <~ Node.now host ;;
  Eff.ret ("spec-" ++ Js.Number_toString ms ++ "-" ++ suffix).

Definition execute (task : Task) (_classification : ClassificationResult)
    (agentId projectRoot : string) : Eff.t IntentSpec :=
  ts <~ Node.isoNow host ;;
  Logger.logEvent host
    {| timestamp := ts; ev_taskId := taskId task; eventType := "agent_execution_start";
       agentId := Some agentId; data := JObj [("role", JStr "product")] |}
    projectRoot ;;;
  id <~ generateSpecId ;;
  let spec :=
    {| specId := id;
       spec_taskId := taskId task;
       objective := "Create a TypeScript function that returns a greeting string.";
       requirements :=
         [ {| req_id := "REQ-001";
              req_description :=
                "A function named " ++ Js.dq ++ "greet" ++ Js.dq ++
                " must exist and accept a single string parameter " ++
                Js.dq ++ "name" ++ Js.dq ++ ".";
              verification :=
                "File contains an exported function with signature: greet(name: string): string." |};
           {| req_id := "REQ-002";
              req_description :=
                "The function must return a string in the format " ++
                Js.dq ++ "Hello, {name}!" ++ Js.dq ++ ".";
              verification :=
                "Calling greet(" ++ Js.dq ++ "World" ++ Js.dq ++ ") returns exactly " ++
                Js.dq ++ "Hello, World!" ++ Js.dq ++ "." |} ];
       constraints :=
         [ {| con_id := "CON-001";
              con_description :=
                "The function must not perform I/O, network calls, or access the filesystem." |} ];
       outOfScope :=
         [ "Internationalization or locale-specific greetings.";
           "Input validation beyond what TypeScript types enforce.";
           "Unit test files — testing is a separate task." ];
       assumptions :=
         [ {| asm_id := "ASM-001";
              statement := "The target runtime supports ES2022 or later.";
              asm_source := "operator_input" |} ];
       contextRefs := [] |} in
  ts' <~ Node.isoNow host ;;
  Logger.logEvent host
    {| timestamp := ts'; ev_taskId := taskId task; eventType := "agent_execution_end";
       agentId := Some agentId;
       data := JObj [("role", JStr "product"); ("specId", JStr (specId spec))] |}
    projectRoot ;;;
  Eff.ret spec.

End WithHost.
End MockProduct.

(* ------------------------------------------------------------------------- *)
(** ** src/agents/mock-dev.ts *)
(* ------------------------------------------------------------------------- *)

Module MockDev.
Section WithHost.
Context (host : Host).

Definition execute (spec : IntentSpec) (agentId projectRoot : string) : Eff.t DevOutput :=
  now <~ Node.isoNow host ;;
  Logger.logEvent host
    {| timestamp := now; ev_taskId := spec_taskId spec;
       eventType := "agent_execution_start"; agentId := Some agentId;
       data := JObj [("role", JStr "dev"); ("specId", JStr (specId spec))] |}
    projectRoot ;;;
  let artifacts :=
    [ {| art_path := "src/greet.ts";
         content := Js.join Js.nl
           [ "export function greet(name: string): string {";
             "  return `Hello, ${name}!`;";
             "}";
             EmptyString ];
         art_type := "source" |} ] in
  let output :=
    DevCompleted (spec_taskId spec) (specId spec) artifacts
      [ {| tool := "write";
           args := JObj [("path", JStr "src/greet.ts")];
           result := "File written successfully.";
           inv_timestamp := now |};
        {| tool := "tsc";
           args := JObj [("flags", JArr [JStr "--noEmit"; JStr "src/greet.ts"])];
           result := "No errors found.";
           inv_timestamp := now |} ] in
  ts <~ Node.isoNow host ;;
  Logger.logEvent host
    {| timestamp := ts; ev_taskId := spec_taskId spec;
       eventType := "agent_execution_end"; agentId := Some agentId;
       data := JObj [ ("role", JStr "dev"); ("specId", JStr (specId spec));
                      ("status", JStr "completed");
                      ("artifactCount", JInt (Z.of_nat (List.length artifacts))) ] |}
    projectRoot ;;;
  Eff.ret output.

End WithHost.
End MockDev.

(* ------------------------------------------------------------------------- *)
(** ** src/agents/mock-qa.ts *)
(* ------------------------------------------------------------------------- *)

Module MockQa.
Section WithHost.
Context (host : Host).

Definition execute (spec : IntentSpec) (devOutput : DevOutput)
    (agentId projectRoot : string) : Eff.t ValidationReport :=
  ts <~ Node.isoNow host ;;
  Logger.logEvent host
    {| timestamp := ts; ev_taskId := spec_taskId spec;
       eventType := "agent_execution_start"; agentId := Some agentId;
       data := JObj [("role", JStr "qa"); ("specId", JStr (specId spec))] |}
    projectRoot ;;;
  let requirementResults :=
    map (fun req =>
           {| requirementId := req_id req;
              rr_status := pass;
              rr_evidence := "Verified in artifact. Requirement " ++ Js.dq ++ req_id req
                             ++ Js.dq ++ " satisfied.";
              verificationMethod := verification req |})
        (requirements spec) in
  let constraintResults :=
    map (fun con =>
           {| constraintId := con_id con;
              cr_status := pass;
              cr_evidence := "No violation detected. Constraint " ++ Js.dq ++ con_id con
                             ++ Js.dq ++ " respected." |})
        (constraints spec) in
  let passedReqs := List.length requirementResults in
  let failedReqs := 0 in
  let violatedCons := 0 in
  let report :=
    {| vr_taskId := spec_taskId spec;
       vr_specId := specId spec;
       verdict := pass;
       requirementResults := requirementResults;
       constraintResults := constraintResults;
       scopeViolations := [];
       summary :=
         {| totalRequirements := List.length requirementResults;
            passedRequirements := passedReqs;
            failedRequirements := failedReqs;
            totalConstraints := List.length constraintResults;
            violatedConstraints := violatedCons;
            scopeViolationCount := 0 |} |} in
  ts' <~ Node.isoNow host ;;
  Logger.logEvent host
    {| timestamp := ts'; ev_taskId := spec_taskId spec;
       eventType := "agent_execution_end"; agentId := Some agentId;
       data := JObj [ ("role", JStr "qa"); ("specId", JStr (specId spec));
                      ("verdict", JStr (Verdict_toString (verdict report)));
                      ("summary", Summary_toJson (summary report)) ] |}
    projectRoot ;;;
  Eff.ret report.

End WithHost.
End MockQa.

(* ------------------------------------------------------------------------- *)
(** ** src/core/orchestrator.ts *)
(* ------------------------------------------------------------------------- *)

Module Orchestrator.
Section WithHost.
Context (host : Host).

Definition generateAgentId (role : string) : Eff.t string :=
  suffix <~ Node.randomHex host 2 ;;
  ms <~ Node.now host ;;
  Eff.ret (role ++ "-" ++ Js.Number_toString ms ++ "-" ++ suffix).

Definition generateSpecId : Eff.t string :=
  suffix <~ Node.randomHex host 4 ;;
  ms <~ Node.now host ;;
  Eff.ret ("spec-" ++ Js.Number_toString ms ++ "-" ++ suffix).

Definition logSpawn (taskId agentId role projectRoot : string) : Eff.t unit :=
  ts <~ Node.isoNow host ;;
  Logger.logEvent host
    {| timestamp := ts; ev_taskId := taskId; eventType := "agent_spawned";
       agentId := Some agentId; data := JObj [("role", JStr role)] |}
    projectRoot.

Definition logDestroy (taskId agentId role projectRoot : string) : Eff.t unit :=
  ts <~ Node.isoNow host ;;
  Logger.logEvent host
    {| timestamp := ts; ev_taskId := taskId; eventType := "agent_destroyed";
       agentId := Some agentId; data := JObj [("role", JStr role)] |}
    projectRoot.

Definition buildInlineSpec (task : Task) : Eff.t IntentSpec :=
  id <~ generateSpecId ;;
  Eff.ret
    {| specId := id;
       spec_taskId := taskId task;
       objective := body task;
       requirements :=
         [ {| req_id := "REQ-001";
              req_description := body task;
              verification := "Implementation satisfies the task description as stated." |} ];
       constraints := [];
       outOfScope := ["Anything not explicitly stated in the task description."];
       assumptions :=
         [ {| asm_id := "ASM-001";
              statement :=
                "The task description is a complete, unambiguous technical instruction.";
              asm_source := "operator_input" |} ];
       contextRefs := [] |}.

Definition run (task : Task) (projectRoot : string) : Eff.t ExecutionResult :=
  (* --- Execution start --- *)
  ts <~ Node.isoNow host ;;
  Logger.logEvent host
    {| timestamp := ts; ev_taskId := taskId task; eventType := "execution_start";
       agentId := None; data := JObj [("body", JStr (body task))] |}
    projectRoot ;;;
  (* --- Step 1: Classification --- *)
  coordinatorId <~ generateAgentId "coordinator" ;;
  logSpawn (taskId task) coordinatorId "coordinator" projectRoot ;;;
  classification <~ Coordinator.classify host task projectRoot ;;
  logDestroy (taskId task) coordinatorId "coordinator" projectRoot ;;;
  (* --- Step 2: Intent Spec (Product Agent or inline) --- *)
  intentSpec <~
    (match routedTo classification with
     | to_product =>
         productId <~ generateAgentId "product" ;;
         logSpawn (taskId task) productId "product" projectRoot ;;;
         intentSpec <~ MockProduct.execute host task classification productId projectRoot ;;
         logDestroy (taskId task) productId "product" projectRoot ;;;
         Eff.ret intentSpec
     | to_dev =>
         intentSpec <~ buildInlineSpec task ;;
         ts <~ Node.isoNow host ;;
         Logger.logEvent host
           {| timestamp := ts; ev_taskId := taskId task; eventType := "product_skipped";
              agentId := None;
              data := JObj
                [ ("reason", JStr "Classification routed directly to dev. Technical input does not require disambiguation.");
                  ("category", JStr (Category_toString (category classification)));
                  ("ruleApplied", JStr (ruleApplied classification));
                  ("inlineSpecId", JStr (specId intentSpec)) ] |}
           projectRoot ;;;
         Eff.ret intentSpec
     end) ;;
  (* --- Step 3: Dev Agent (Artifacts) --- *)
  devId <~ generateAgentId "dev" ;;
  logSpawn (taskId task) devId "dev" projectRoot ;;;
  devOutput <~ MockDev.execute host intentSpec devId projectRoot ;;
  logDestroy (taskId task) devId "dev" projectRoot ;;;
  (* --- Step 4: QA Agent (Validation) --- *)
  qaId <~ generateAgentId "qa" ;;
  logSpawn (taskId task) qaId "qa" projectRoot ;;;
  validation <~ MockQa.execute host intentSpec devOutput qaId projectRoot ;;
  logDestroy (taskId task) qaId "qa" projectRoot ;;;
  (* --- Execution end --- *)
  ts <~ Node.isoNow host ;;
  Logger.logEvent host
    {| timestamp := ts; ev_taskId := taskId task; eventType := "execution_end";
       agentId := None;
       data := JObj [ ("verdict", JStr (Verdict_toString (verdict validation)));
                      ("summary", Summary_toJson (summary validation)) ] |}
    projectRoot ;;;
  Eff.ret
    {| er_taskId := taskId task;
       classification := classification;
       intentSpec := intentSpec;
       devOutput := devOutput;
       validation := validation |}.

End WithHost.
End Orchestrator.

(* ------------------------------------------------------------------------- *)
(** ** A host to run examples on *)
(* ------------------------------------------------------------------------- *)

(** A clock that advances one millisecond per reading from a fixed instant,
    a random source that counts, a file system that holds the contract of
    the dev role, has directories under [/srv] and can make none
    elsewhere, and paths joined with [/]. *)
Definition exampleHost : Host :=
  {| Date_now := fun k => (1708276800000 + Z.of_nat k)%Z;
     Date_toISOString := fun ms => "T+" ++ Js.Number_toString ms;
     entropy := fun k => ascii_of_nat (k * 37);
     readFileSync := fun p =>
       if String.eqb p "/srv/docs/agents/dev.md"
       then Some ("# Dev Agent" ++ Js.nl) else None;
     existsSync := fun p => String.prefix "/srv" p;
     mkdirSync := fun p =>
       if String.prefix "/srv" p then None
       else Some ("ENOTDIR: not a directory, mkdir '" ++ p ++ "'");
     path_resolve := fun parts => Js.join "/" parts |}.

Definition freshWorld : World := {| tick := 0; audit := [] |}.

(** A manifest as an operator could write it for a deployment role: the
    permissions of the dev role, and tools of every kind. *)
Definition deployManifest : AgentManifest :=
  {| role := dev;
     image := "node:20-alpine";
     systemPromptPath := "docs/agents/dev.md";
     permissions := permissions Manifests.DEV_MANIFEST;
     tools := ["read"; "fetch"; "grep"; "npm"; "deploy"] |}.

(** The same role with the network switched on without a domain list. *)
Definition openNetworkManifest : AgentManifest :=
  {| role := dev;
     image := "node:20-alpine";
     systemPromptPath := "docs/agents/dev.md";
     permissions := {| allowNetwork := NetBool true;
                       allowFilesystem := true;
                       maxExecutionTime := 600000;
                       maxCostCap := 100000 |};
     tools := ["fetch"] |}.

(** A manifest one of whose tools is named like a member every object
    inherits. *)
Definition inheritedNameManifest : AgentManifest :=
  {| role := dev;
     image := "node:20-alpine";
     systemPromptPath := "docs/agents/dev.md";
     permissions := permissions Manifests.DEV_MANIFEST;
     tools := ["read"; "constructor"] |}.

Definition exampleTask : Task :=
  {| taskId := "task-001";
     type := None;
     body := "Refactor the login function in src/auth/login.ts";
     contextRegistry := [] |}.

(** A spec with two requirements and a constraint, and a dev output that
    reports a failure on it. *)
Definition exampleSpec : IntentSpec :=
  {| specId := "spec-001";
     spec_taskId := "task-001";
     objective := "Refactor the login function in src/auth/login.ts";
     requirements :=
       [ {| req_id := "REQ-001";
            req_description := "The login function keeps its signature";
            verification := "unit test" |};
         {| req_id := "REQ-002";
            req_description := "The session token is no longer logged";
            verification := "inspection" |} ];
     constraints :=
       [ {| con_id := "CON-001"; con_description := "No new dependency" |} ];
     outOfScope := [];
     assumptions := [];
     contextRefs := [] |}.

Definition failedOutput : DevOutput :=
  DevFailed "task-001" "spec-001" []
    {| err_type := err_tool_failure; err_detail := "npm test exited with code 1" |}.

(* ------------------------------------------------------------------------- *)
(** ** Vocabulary of the statements *)
(* ------------------------------------------------------------------------- *)

(** The pieces occur in the text one after the other, without overlap. *)
Fixpoint inOrder (pieces : list string) (text : string) : Prop :=
  match pieces with
  | [] => True
  | p :: ps => exists before after, text = before ++ p ++ after /\ inOrder ps after
  end.

(** Every code unit of the string satisfies [p]. *)
Fixpoint every (p : ascii -> bool) (s : string) : bool :=
  match s with
  | EmptyString => true
  | String c s' => p c && every p s'
  end.

Definition allWhiteSpace (s : string) : bool := every Js.isWhiteSpace s.

(** *** The grammar of JSON texts (ECMA-404) *)

Module Grammar.

Definition isDigit (c : ascii) : bool :=
  let n := nat_of_ascii c in Nat.leb 48 n && Nat.leb n 57.

Definition isHex (c : ascii) : bool :=
  match JSON.hexValue c with Some _ => true | None => false end.

(** White space between tokens. *)
Definition Ws (w : string) : Prop := every JSON.isWs w = true.

Definition Digits (s : string) : Prop := s <> EmptyString /\ every isDigit s = true.

(** [-? int frac? exp?] *)
Definition Number (s : string) : Prop :=
  exists sign int frac exp,
    s = sign ++ int ++ frac ++ exp
    /\ (sign = EmptyString \/ sign = "-")
    /\ Digits int /\ (int = "0" \/ ~ exists r, int = String "0" r)
    /\ (frac = EmptyString \/ exists ds, frac = "." ++ ds /\ Digits ds)
    /\ (exp = EmptyString
        \/ exists e sgn ds,
             exp = e ++ sgn ++ ds /\ (e = "e" \/ e = "E")
             /\ (sgn = EmptyString \/ sgn = "+" \/ sgn = "-") /\ Digits ds).

(** The characters between the quotes of a string. *)
Inductive Chars : string -> Prop :=
| Chars_nil : Chars EmptyString
| Chars_plain (c : ascii) (s : string) :
    c <> Js.DQUOTE -> c <> Js.BACKSLASH -> Nat.ltb (nat_of_ascii c) 32 = false ->
    Chars s -> Chars (String c s)
| Chars_escape (e : ascii) (s : string) :
    In e [Js.DQUOTE; Js.BACKSLASH; "/"; "b"; "f"; "n"; "r"; "t"]%char ->
    Chars s -> Chars (String Js.BACKSLASH (String e s))
| Chars_unicode (h1 h2 h3 h4 : ascii) (s : string) :
    isHex h1 = true -> isHex h2 = true -> isHex h3 = true -> isHex h4 = true ->
    Chars s ->
    Chars (String Js.BACKSLASH (String "u" (String h1 (String h2 (String h3 (String h4 s)))))).

Inductive Category : Type := value | elements | members.

(** [Text value s]: [s] is a JSON value, without white space around it;
    [Text elements s]: [s] is what stands between the brackets of a
    non-empty array; [Text members s]: likewise for an object. *)
Inductive Text : Category -> string -> Prop :=
| T_null : Text value "null"
| T_true : Text value "true"
| T_false : Text value "false"
| T_number (s : string) : Number s -> Text value s
| T_string (cs : string) : Chars cs -> Text value (Js.dq ++ cs ++ Js.dq)
| T_array_empty (w : string) : Ws w -> Text value ("[" ++ w ++ "]")
| T_array (es : string) : Text elements es -> Text value ("[" ++ es ++ "]")
| T_object_empty (w : string) : Ws w -> Text value ("{" ++ w ++ "}")
| T_object (ms : string) : Text members ms -> Text value ("{" ++ ms ++ "}")
| T_element (w1 v w2 : string) :
    Ws w1 -> Text value v -> Ws w2 -> Text elements (w1 ++ v ++ w2)
| T_elements (w1 v w2 es : string) :
    Ws w1 -> Text value v -> Ws w2 -> Text elements es ->
    Text elements (w1 ++ v ++ w2 ++ "," ++ es)
| T_member (w1 k w2 w3 v w4 : string) :
    Ws w1 -> Chars k -> Ws w2 -> Ws w3 -> Text value v -> Ws w4 ->
    Text members (w1 ++ Js.dq ++ k ++ Js.dq ++ w2 ++ ":" ++ w3 ++ v ++ w4)
| T_members (w1 k w2 w3 v w4 ms : string) :
    Ws w1 -> Chars k -> Ws w2 -> Ws w3 -> Text value v -> Ws w4 ->
    Text members ms ->
    Text members (w1 ++ Js.dq ++ k ++ Js.dq ++ w2 ++ ":" ++ w3 ++ v ++ w4 ++ "," ++ ms).

(** A serialized JSON object: the two [T_object] cases of a value. *)
Definition Object (s : string) : Prop :=
  exists inner, s = "{" ++ inner ++ "}" /\ (Ws inner \/ Text members inner).

End Grammar.

(** *** What the bracket scanner sees *)

Module Lexical.

(** The inside of a string literal, as the scanner reads it: no quote
    unless a backslash stands before it. *)
Inductive Quoted : string -> Prop :=
| Quoted_nil : Quoted EmptyString
| Quoted_char (c : ascii) (s : string) :
    c <> Js.DQUOTE -> c <> Js.BACKSLASH -> Quoted s -> Quoted (String c s)
| Quoted_escape (e : ascii) (s : string) :
    Quoted s -> Quoted (String Js.BACKSLASH (String e s)).

(** A character that is neither a quote, nor a backslash, nor a brace. *)
Definition plain (c : ascii) : bool :=
  negb (Ascii.eqb c Js.DQUOTE) && negb (Ascii.eqb c Js.BACKSLASH)
  && negb (Ascii.eqb c "{") && negb (Ascii.eqb c "}").

(** Text outside string literals in which every [open] has its
    [close]: scanning it leaves the depth where it was. *)
Inductive Balanced (open close : ascii) : string -> Prop :=
| Balanced_nil : Balanced open close EmptyString
| Balanced_plain (c : ascii) (s : string) :
    c <> Js.DQUOTE -> c <> Js.BACKSLASH -> c <> open -> c <> close ->
    Balanced open close s -> Balanced open close (String c s)
| Balanced_string (q s : string) :
    Quoted q -> Balanced open close s ->
    Balanced open close (Js.dq ++ q ++ Js.dq ++ s)
| Balanced_nested (b s : string) :
    Balanced open close b -> Balanced open close s ->
    Balanced open close (Js.str open ++ b ++ Js.str close ++ s).

End Lexical.

(** A reply of a model that wraps a JSON object in prose; the string value
    of the object holds a closing brace. *)
Definition braceInString : string :=
  "{" ++ Js.dq ++ "note" ++ Js.dq ++ ": " ++ Js.dq ++ "use } to close" ++ Js.dq ++ "}".

Definition exampleReply : string :=
  "Here is the result: " ++ braceInString ++ " Let me know.".

(** *** Audit trails *)

(** What an audit record says happened, and to which agent. *)
Definition shape (e : AuditEvent) : string * option string :=
  (eventType e, agentId e).

(** The [i]-th record of the trail reports that agent [id] was spawned,
    respectively destroyed. *)
Definition spawnedAt (evs : list AuditEvent) (i : nat) (id : string) : Prop :=
  exists e, evs !! i = Some e /\ eventType e = "agent_spawned" /\ agentId e = Some id.

Definition destroyedAt (evs : list AuditEvent) (i : nat) (id : string) : Prop :=
  exists e, evs !! i = Some e /\ eventType e = "agent_destroyed" /\ agentId e = Some id.

(** The records of one stage: the agent is spawned, works, and is
    destroyed. *)
Definition stage (id : string) (inner : list (string * option string))
  : list (string * option string) :=
  ([("agent_spawned", Some id)] ++ inner ++ [("agent_destroyed", Some id)])%list.

Definition working (id : string) : list (string * option string) :=
  [("agent_execution_start", Some id); ("agent_execution_end", Some id)].

(** In a list of record shapes, every spawn has, later on, the one
    destroy of the same agent. *)
Definition pairedUp (l : list (string * option string)) : Prop :=
  forall i id,
    l !! i = Some ("agent_spawned", Some id) ->
    exists j, i < j /\ l !! j = Some ("agent_destroyed", Some id)
              /\ forall k, l !! k = Some ("agent_destroyed", Some id) -> k = j.

(** [e] is what making sure of the logs directory of [projectRoot]
    throws. *)
Definition logsFailure (host : Host) (projectRoot : string) (e : Js.Exn) : Prop :=
  forall w, Logger.ensureLogsDir host projectRoot w = (Js.Throw e, w).

(** The logs directory of [projectRoot] is there or can be made. *)
Definition logsReady (host : Host) (projectRoot : string) : Prop :=
  forall w, Logger.ensureLogsDir host projectRoot w = (Js.Return tt, w).

(** From every world, [m] either returns, and the value it returns and
    the records it adds to the audit trail satisfy [Q], or throws an
    exception that satisfies [F]. *)
Definition emits {A : Type} (F : Js.Exn -> Prop) (m : Eff.t A)
    (Q : A -> list AuditEvent -> Prop) : Prop :=
  forall w,
    match m w with
    | (Js.Return a, w') => exists evs, audit w' = (audit w ++ evs)%list /\ Q a evs
    | (Js.Throw e, _) => F e
    end.

(* ------------------------------------------------------------------------- *)
(** ** Vocabulary for the rest of the kernel *)
(* ------------------------------------------------------------------------- *)

(** A permission of [perms] is denied that the tool-capability map tags
    the tool with. A tool the map does not list has no tag. *)
Definition withheld (perms : AgentPermissions) (tool : string) : bool :=
  match Manifests.TOOL_CAPABILITY_MAP !! tool with
  | Some caps =>
      (Runtime.isFalse (allowNetwork perms)
       && existsb (Manifests.Capability_eqb Manifests.network) caps)
      || (negb (allowFilesystem perms)
          && existsb (Manifests.Capability_eqb Manifests.filesystem) caps)
  | None => false
  end.

(** Some permission is denied: the network is [false], or the filesystem
    is. *)
Definition restrictive (perms : AgentPermissions) : bool :=
  Runtime.isFalse (allowNetwork perms) || negb (allowFilesystem perms).

(* ------------------------------------------------------------------------- *)
(** ** src/core/llm/prompt-loader.ts *)
(* ------------------------------------------------------------------------- *)

Module PromptLoader.
Import Manifests.

(** What [loadSystemPrompt] can throw: the [Error] it raises when the
    contract cannot be read, or what escapes from the tool filter. *)
Inductive Thrown : Type :=
| Error (message : string)
| Uncaught (e : Js.Exn).

Inductive Result : Type :=
| Loaded (prompt : string)
| Raised (t : Thrown).

Definition getEffectiveTools (manifest : AgentManifest) : Js.Outcome (list string) :=
  Js.filterM
    (fun tool =>
       let capabilities := Runtime.capabilitiesOf tool in
       Js.obind
         (Runtime.andAlso (Runtime.isFalse (allowNetwork (permissions manifest)))
                          (Runtime.includes capabilities network))
         (fun deniedNetwork =>
            if deniedNetwork then Js.Return false
            else
              Js.obind
                (Runtime.andAlso (negb (allowFilesystem (permissions manifest)))
                                 (Runtime.includes capabilities filesystem))
                (fun deniedFilesystem =>
                   if deniedFilesystem then Js.Return false else Js.Return true)))
    (tools manifest).

Definition buildConstraintsBlock (manifest : AgentManifest) (effectiveTools : list string)
  : string :=
  let permissions := permissions manifest in
  let networkLine :=
    match allowNetwork permissions with
    | NetList domains => "RESTRICTED. Permitted domains: " ++ Js.join ", " domains ++ "."
    | NetBool _ => "DENIED. No outbound network access is permitted."
    end in
  let filesystemLine :=
    if allowFilesystem permissions
    then "RESTRICTED. Read/write permitted within ./workspace only."
    else "DENIED. No filesystem access is permitted." in
  let toolsList :=
    match effectiveTools with
    | [] => "  (none)"
    | ts => Js.join Js.nl (map (fun t => "  - " ++ t) ts)
    end in
  Js.join Js.nl
    [ "---";
      EmptyString;
      "## RUNTIME CONSTRAINTS";
      EmptyString;
      "These constraints are enforced structurally by the runtime.";
      "They are not guidelines. Violations will be denied and logged.";
      EmptyString;
      "**Network access:** " ++ networkLine;
      EmptyString;
      "**Filesystem access:** " ++ filesystemLine;
      EmptyString;
      "**Permitted tools:**";
      toolsList;
      EmptyString;
      "**Execution time limit:** " ++ Js.Number_toString (maxExecutionTime permissions) ++ "ms";
      EmptyString;
      "**Cost cap:** " ++ Js.Number_toString (maxCostCap permissions) ++ " tokens" ].

Section WithHost.
Context (host : Host).
(** [process.cwd()], and the message of the error [readFileSync] throws
    for a path it cannot read. *)
Context (cwd : string) (readError : string -> string).

Definition loadSystemPrompt (role : AgentRole) (projectRoot : option string) : Result :=
  let root := match projectRoot with Some r => r | None => cwd end in
  let manifest := MANIFEST_REGISTRY role in
  let mdPath := path_resolve host [root; systemPromptPath manifest] in
  match readFileSync host mdPath with
  | None =>
      Raised (Error ("Failed to load system prompt for role '" ++ AgentRole_toString role
                     ++ "' at " ++ mdPath ++ ": " ++ readError mdPath))
  | Some content =>
      match getEffectiveTools manifest with
      | Js.Throw e => Raised (Uncaught e)
      | Js.Return effectiveTools =>
          let constraintsBlock := buildConstraintsBlock manifest effectiveTools in
          Loaded (Js.trimEnd content ++ Js.nl ++ Js.nl ++ constraintsBlock ++ Js.nl)
      end
  end.

End WithHost.
End PromptLoader.

(* ------------------------------------------------------------------------- *)
(** ** src/core/llm/validators.ts *)
(* ------------------------------------------------------------------------- *)

(** The guards are read on the values [JSON.parse] produces, and on
    [undefined], which a missing property reads as. None of the property
    names they read is a member of [Object.prototype], so a read finds an
    own property or nothing. *)
Module Validators.

(** [None] is [undefined]. *)
Definition Value : Type := option Json.

(** The own property [key]; of two bindings of one key the later one
    stands, as in an object [JSON.parse] has built. *)
Fixpoint get (key : string) (fields : list (string * Json)) : Value :=
  match fields with
  | [] => None
  | (k, v) :: rest =>
      match get key rest with
      | Some v' => Some v'
      | None => if String.eqb k key then Some v else None
      end
  end.

(** [v[key]], for a [v] that passed [isObject]. *)
Definition prop (v : Value) (key : string) : Value :=
  match v with
  | Some (JObj fields) => get key fields
  | _ => None
  end.

(** [a ?? b] *)
Definition orElse (a b : Value) : Value :=
  match a with
  | None | Some JNull => b
  | Some _ => a
  end.

(** [v === s] for a string literal [s]. *)
Definition strictEquals (v : Value) (s : string) : bool :=
  match v with
  | Some (JStr s') => String.eqb s' s
  | _ => false
  end.

Definition Array_isArray (v : Value) : bool :=
  match v with Some (JArr _) => true | _ => false end.

(** [v.every(check)] and [v.length], for a [v] that passed
    [Array.isArray]. *)
Definition every (v : Value) (check : Value -> bool) : bool :=
  match v with
  | Some (JArr items) => forallb (fun item => check (Some item)) items
  | _ => false
  end.

Definition length (v : Value) : nat :=
  match v with
  | Some (JArr items) => List.length items
  | _ => 0
  end.

(** *** Helpers *)

Definition isObject (v : Value) : bool :=
  match v with Some (JObj _) => true | _ => false end.

Definition isString (v : Value) : bool :=
  match v with Some (JStr _) => true | _ => false end.

Definition isNumber (v : Value) : bool :=
  match v with Some (JNum _ _) => true | _ => false end.

Definition isArrayOf (v : Value) (check : Value -> bool) : bool :=
  Array_isArray v && every v check.

Definition isStringArray (v : Value) : bool :=
  Array_isArray v && every v isString.

(** *** ClassificationResult *)

Definition VALID_CATEGORIES : list string := ["technical_explicit"; "business"; "ambiguous"].
Definition VALID_ROUTES : list string := ["product"; "dev"].
Definition VALID_CONFIDENCES : list string := ["deterministic"; "heuristic"].

(** [list.includes(v)] *)
Definition includes (list : list string) (v : Value) : bool :=
  existsb (strictEquals v) list.

Definition isClassificationResult (obj : Value) : bool :=
  if negb (isObject obj) then false
  else if negb (isString (prop obj "category"))
          || negb (includes VALID_CATEGORIES (prop obj "category")) then false
  else if negb (isString (prop obj "routedTo"))
          || negb (includes VALID_ROUTES (prop obj "routedTo")) then false
  else if negb (isString (prop obj "confidence"))
          || negb (includes VALID_CONFIDENCES (prop obj "confidence")) then false
  else if negb (isString (prop obj "ruleApplied")) then false
  else true.

(** *** IntentSpec *)

Definition isIntentRequirement (v : Value) : bool :=
  if negb (isObject v) then false
  else isString (prop v "id") && isString (prop v "description")
       && isString (prop v "verification").

Definition isIntentConstraint (v : Value) : bool :=
  if negb (isObject v) then false
  else isString (prop v "id") && isString (prop v "description").

Definition isIntentAssumption (v : Value) : bool :=
  if negb (isObject v) then false
  else isString (prop v "id") && isString (prop v "statement")
       && isString (prop v "source").

Definition isIntentSpec (obj : Value) : bool :=
  if negb (isObject obj) then false
  else if negb (isString (prop obj "specId")) && negb (isString (prop obj "spec_id"))
  then false
  else if negb (isString (prop obj "taskId")) && negb (isString (prop obj "task_id"))
  then false
  else if negb (isString (prop obj "objective")) then false
  else
    let reqs := prop obj "requirements" in
    if negb (isArrayOf reqs isIntentRequirement) then false
    else if Nat.eqb (length reqs) 0 then false
    else
      let cons := prop obj "constraints" in
      if negb (Array_isArray cons) then false
      else if negb (every cons isIntentConstraint) then false
      else
        let oos := orElse (prop obj "outOfScope") (prop obj "out_of_scope") in
        if negb (isStringArray oos) then false
        else if Nat.eqb (length oos) 0 then false
        else
          let asms := prop obj "assumptions" in
          if negb (Array_isArray asms) then false
          else if negb (every asms isIntentAssumption) then false
          else true.

(** *** DevOutput *)

Definition isDevArtifact (v : Value) : bool :=
  if negb (isObject v) then false
  else isString (prop v "path") && isString (prop v "content")
       && isString (prop v "type").

Definition isToolInvocation (v : Value) : bool :=
  if negb (isObject v) then false
  else isString (prop v "tool") && isString (prop v "result")
       && isString (prop v "timestamp").

Definition isDevOutput (obj : Value) : bool :=
  if negb (isObject obj) then false
  else if negb (isString (prop obj "taskId")) && negb (isString (prop obj "task_id"))
  then false
  else if negb (isString (prop obj "specId")) && negb (isString (prop obj "spec_id"))
  then false
  else
    let status := prop obj "status" in
    if negb (strictEquals status "completed") && negb (strictEquals status "failed") then false
    else
      let invocations :=
        orElse (orElse (prop obj "toolInvocations") (prop obj "tool_invocations"))
               (Some (JArr [])) in
      if negb (Array_isArray invocations) then false
      else if negb (every invocations isToolInvocation) then false
      else if strictEquals status "completed"
              && negb (isArrayOf (prop obj "artifacts") isDevArtifact)
      then false
      else if strictEquals status "failed"
              && (let err := prop obj "error" in
                  negb (isObject err)
                  || (negb (isString (prop err "type"))
                      || negb (isString (prop err "detail"))))
      then false
      else true.

(** *** ValidationReport *)

Definition isRequirementResult (v : Value) : bool :=
  if negb (isObject v) then false
  else
    let id := orElse (prop v "requirementId") (prop v "requirement_id") in
    let method := orElse (prop v "verificationMethod") (prop v "verification_method") in
    if negb (isString id) then false
    else if negb (strictEquals (prop v "status") "pass") && negb (strictEquals (prop v "status") "fail")
    then false
    else if negb (isString (prop v "evidence")) then false
    else if negb (isString method) then false
    else true.

Definition isConstraintResult (v : Value) : bool :=
  if negb (isObject v) then false
  else
    let id := orElse (prop v "constraintId") (prop v "constraint_id") in
    if negb (isString id) then false
    else if negb (strictEquals (prop v "status") "pass") && negb (strictEquals (prop v "status") "fail")
    then false
    else if negb (isString (prop v "evidence")) then false
    else true.

Definition isValidationSummary (v : Value) : bool :=
  if negb (isObject v) then false
  else
    let totalReqs := orElse (prop v "totalRequirements") (prop v "total_requirements") in
    let passedReqs := orElse (prop v "passedRequirements") (prop v "passed_requirements") in
    let failedReqs := orElse (prop v "failedRequirements") (prop v "failed_requirements") in
    let totalCons := orElse (prop v "totalConstraints") (prop v "total_constraints") in
    let violatedCons :=
      orElse (prop v "violatedConstraints") (prop v "violated_constraints") in
    let scopeCount :=
      orElse (prop v "scopeViolationCount") (prop v "scope_violation_count") in
    isNumber totalReqs && isNumber passedReqs && isNumber failedReqs
    && isNumber totalCons && isNumber violatedCons && isNumber scopeCount.

Definition isValidationReport (obj : Value) : bool :=
  if negb (isObject obj) then false
  else if negb (isString (prop obj "taskId")) && negb (isString (prop obj "task_id"))
  then false
  else if negb (isString (prop obj "specId")) && negb (isString (prop obj "spec_id"))
  then false
  else if negb (strictEquals (prop obj "verdict") "pass") && negb (strictEquals (prop obj "verdict") "fail")
  then false
  else
    let reqResults :=
      orElse (prop obj "requirementResults") (prop obj "requirement_results") in
    if negb (Array_isArray reqResults) then false
    else if negb (every reqResults isRequirementResult) then false
    else
      let conResults :=
        orElse (prop obj "constraintResults") (prop obj "constraint_results") in
      if negb (Array_isArray conResults) then false
      else if negb (every conResults isConstraintResult) then false
      else
        let scopeViols :=
          orElse (prop obj "scopeViolations") (prop obj "scope_violations") in
        if negb (Array_isArray scopeViols) then false
        else
          let summary := prop obj "summary" in
          if negb (isValidationSummary summary) then false
          else true.

End Validators.

(* ------------------------------------------------------------------------- *)
(** ** Typed values as the objects they are at run time *)
(* ------------------------------------------------------------------------- *)

(** An interface of src/core/types.ts describes a plain object; these are
    the objects of the typed values, property for property. *)
Module Untyped.

Definition ofStrings (l : list string) : Json := JArr (map JStr l).

Definition ofClassificationResult (r : ClassificationResult) : Json :=
  JObj (Coordinator.resultFields r).

Definition ofIntentRequirement (r : IntentRequirement) : Json :=
  JObj [ ("id", JStr (req_id r));
         ("description", JStr (req_description r));
         ("verification", JStr (verification r)) ].

Definition ofIntentConstraint (c : IntentConstraint) : Json :=
  JObj [ ("id", JStr (con_id c)); ("description", JStr (con_description c)) ].

Definition ofIntentAssumption (a : IntentAssumption) : Json :=
  JObj [ ("id", JStr (asm_id a));
         ("statement", JStr (statement a));
         ("source", JStr (asm_source a)) ].

Definition ofIntentSpec (s : IntentSpec) : Json :=
  JObj [ ("specId", JStr (specId s));
         ("taskId", JStr (spec_taskId s));
         ("objective", JStr (objective s));
         ("requirements", JArr (map ofIntentRequirement (requirements s)));
         ("constraints", JArr (map ofIntentConstraint (constraints s)));
         ("outOfScope", ofStrings (outOfScope s));
         ("assumptions", JArr (map ofIntentAssumption (assumptions s)));
         ("contextRefs", ofStrings (contextRefs s)) ].

Definition ofDevArtifact (a : DevArtifact) : Json :=
  JObj [ ("path", JStr (art_path a));
         ("content", JStr (content a));
         ("type", JStr (art_type a)) ].

Definition ofToolInvocation (i : ToolInvocation) : Json :=
  JObj [ ("tool", JStr (tool i));
         ("args", args i);
         ("result", JStr (result i));
         ("timestamp", JStr (inv_timestamp i)) ].

Definition DevErrorType_toString (t : DevErrorType) : string :=
  match t with
  | err_scope_violation => "scope_violation"
  | err_spec_unclear => "spec_unclear"
  | err_tool_failure => "tool_failure"
  | err_timeout => "timeout"
  | err_internal => "internal"
  end.

Definition ofDevError (e : DevError) : Json :=
  JObj [ ("type", JStr (DevErrorType_toString (err_type e)));
         ("detail", JStr (err_detail e)) ].

Definition ofDevOutput (d : DevOutput) : Json :=
  match d with
  | DevCompleted taskId specId artifacts toolInvocations =>
      JObj [ ("taskId", JStr taskId);
             ("specId", JStr specId);
             ("status", JStr "completed");
             ("artifacts", JArr (map ofDevArtifact artifacts));
             ("toolInvocations", JArr (map ofToolInvocation toolInvocations)) ]
  | DevFailed taskId specId toolInvocations error =>
      JObj [ ("taskId", JStr taskId);
             ("specId", JStr specId);
             ("status", JStr "failed");
             ("toolInvocations", JArr (map ofToolInvocation toolInvocations));
             ("error", ofDevError error) ]
  end.

Definition ofRequirementResult (r : RequirementResult) : Json :=
  JObj [ ("requirementId", JStr (requirementId r));
         ("status", JStr (Verdict_toString (rr_status r)));
         ("evidence", JStr (rr_evidence r));
         ("verificationMethod", JStr (verificationMethod r)) ].

Definition ofConstraintResult (r : ConstraintResult) : Json :=
  JObj [ ("constraintId", JStr (constraintId r));
         ("status", JStr (Verdict_toString (cr_status r)));
         ("evidence", JStr (cr_evidence r)) ].

Definition ofScopeViolation (v : ScopeViolation) : Json :=
  JObj [ ("description", JStr (sv_description v));
         ("invocationRef", JStr (invocationRef v)) ].

Definition ofValidationReport (r : ValidationReport) : Json :=
  JObj [ ("taskId", JStr (vr_taskId r));
         ("specId", JStr (vr_specId r));
         ("verdict", JStr (Verdict_toString (verdict r)));
         ("requirementResults", JArr (map ofRequirementResult (requirementResults r)));
         ("constraintResults", JArr (map ofConstraintResult (constraintResults r)));
         ("scopeViolations", JArr (map ofScopeViolation (scopeViolations r)));
         ("summary", Summary_toJson (summary r)) ].

End Untyped.

(* ------------------------------------------------------------------------- *)
(** ** src/core/config.ts *)
(* ------------------------------------------------------------------------- *)

Module Config.

(** [content.split('\n')] *)
Fixpoint split (content : string) : list string :=
  match content with
  | EmptyString => [EmptyString]
  | String c rest =>
      if Ascii.eqb c Js.LF then EmptyString :: split rest
      else
        match split rest with
        | line :: lines => String c line :: lines
        | [] => [Js.str c]
        end
  end.

(** [s.startsWith(c)] and [s.endsWith(c)] for a one-character [c]. *)
Definition startsWith (c : ascii) (s : string) : bool :=
  match s with
  | String d _ => Ascii.eqb d c
  | EmptyString => false
  end.

Fixpoint endsWith (c : ascii) (s : string) : bool :=
  match s with
  | EmptyString => false
  | String d EmptyString => Ascii.eqb d c
  | String _ rest => endsWith c rest
  end.

(** One turn of the loop of [parseEnvFile]. *)
Definition parseLine (entries : gmap string string) (line : string) : gmap string string :=
  let trimmed := Js.trim line in
  if String.eqb trimmed EmptyString || startsWith "#" trimmed then entries
  else
    let eqIndex := Js.indexOf "=" trimmed in
    if Z.eqb eqIndex (-1) then entries
    else
      let key := Js.trim (Js.slice trimmed 0 eqIndex) in
      let value := Js.trim (Js.drop (Z.to_nat (eqIndex + 1)) trimmed) in
      (* Strip surrounding quotes; [slice(1, -1)] counts -1 from the end. *)
      let value :=
        if (startsWith Js.DQUOTE value && endsWith Js.DQUOTE value)
           || (startsWith "'" value && endsWith "'" value)
        then Js.slice value 1 (Js.len value - 1)
        else value in
      <[key := value]> entries.

Inductive Loaded : Type :=
| AppConfig (geminiApiKey : string)
| Thrown (message : string).

Section WithHost.
Context (host : Host).
(** [process.env] *)
Context (env : string -> option string).

Definition parseEnvFile (filePath : string) : gmap string string :=
  match readFileSync host filePath with
  | None => ∅
  | Some content => fold_left parseLine (split content) ∅
  end.

Definition loadConfig (projectRoot : string) : Loaded :=
  let envPath := path_resolve host [projectRoot; ".env"] in
  let fileVars := parseEnvFile envPath in
  let geminiApiKey :=
    match env "GEMINI_API_KEY" with
    | Some v => Some v
    | None => fileVars !! "GEMINI_API_KEY"
    end in
  match geminiApiKey with
  | None | Some EmptyString =>
      Thrown "GEMINI_API_KEY is not set. Provide it in .env or as an environment variable."
  | Some key => AppConfig key
  end.

End WithHost.
End Config.

(* ------------------------------------------------------------------------- *)
(** ** src/cli.ts *)
(* ------------------------------------------------------------------------- *)

Module Cli.




(** [String(list.length)] *)
Definition count {A} (l : list A) : string := Js.Number_toString (Z.of_nat (List.length l)).

Section WithHost.
Context (host : Host).
(** [__dirname] *)
Context (dirname : string).



End WithHost.
End Cli.

(* ------------------------------------------------------------------------- *)
(** ** src/core/llm/types.ts and src/core/llm/gemini.ts *)
(* ------------------------------------------------------------------------- *)

(** [complete] is followed from the call of [fetch] to the value its
    promise settles on, as a function of what [fetch] and [response.text()]
    give. The body of the response is untyped: the cast to
    [GeminiResponseBody] checks nothing, so a property is read as
    JavaScript reads it on any value [JSON.parse] can produce. *)
Module Gemini.

Inductive LLMErrorKind : Type :=
| api_error | rate_limit | auth_error | timeout | parse_error.

(** [message] and [statusCode] are declared as a string and a number;
    two of the writes below store what the response holds, unchecked. *)
Record LLMError : Type := {
  kind : LLMErrorKind;
  message : Json;
  statusCode : option Json;
}.

Record TokenUsage : Type := {
  promptTokens : Json;
  completionTokens : Json;
  totalTokens : Json;
}.

Record LLMResponse : Type := {
  content : Json;
  usage : TokenUsage;
  model : string;
  provider : string;
}.

Inductive LLMResult : Type :=
| Success (response : LLMResponse)
| Failure (error : LLMError).

Inductive ResponseFormat : Type := format_json | format_text.

(** A [number], as the decimal [m * 10^e]. *)
Definition Number : Type := Z * Z.
Definition ofNumber (n : Number) : Json := JNum (fst n) (snd n).

Record LLMRequest : Type := {
  systemPrompt : string;
  userMessage : string;
  responseFormat : option ResponseFormat;
  maxTokens : option Number;
  temperature : option Number;
}.

Definition GEMINI_MODEL : string := "gemini-2.0-flash".
Definition GEMINI_BASE_URL : string :=
  "https://generativelanguage.googleapis.com/v1beta/models".
Definition DEFAULT_MAX_TOKENS : Number := (8192, 0)%Z.
Definition DEFAULT_TEMPERATURE : Number := (2, -1)%Z.
Definition REQUEST_TIMEOUT_MS : Z := 60000.

(** *** Reading an untyped value *)

(** [None] is [undefined]. *)
Definition Value : Type := option Json.

(** [v.key], for the property names this file reads: none of them is a
    member of a prototype, an index or [length], so only an object can
    have one, and reading one on [null] or [undefined] throws. *)
Definition member (v : Value) (key : string) : Js.Outcome Value :=
  match v with
  | None =>
      Js.Throw (Js.TypeError ("Cannot read properties of undefined (reading '"
                              ++ key ++ "')"))
  | Some JNull =>
      Js.Throw (Js.TypeError ("Cannot read properties of null (reading '" ++ key ++ "')"))
  | Some (JObj fields) => Js.Return (Validators.get key fields)
  | Some _ => Js.Return None
  end.

(** [v?.key] *)
Definition optMember (v : Value) (key : string) : Value :=
  match v with
  | None | Some JNull => None
  | Some (JObj fields) => Validators.get key fields
  | Some _ => None
  end.

(** [v?.[0]]: the first item of an array, the first character of a
    string, the property [0] of an object. *)
Definition optFirst (v : Value) : Value :=
  match v with
  | None | Some JNull => None
  | Some (JArr items) => head items
  | Some (JStr (String c _)) => Some (JStr (Js.str c))
  | Some (JObj fields) => Validators.get "0" fields
  | Some _ => None
  end.

(** Whether a condition takes [v] for true. *)
Definition truthy (v : Value) : bool :=
  match v with
  | None | Some JNull => false
  | Some (JBool b) => b
  | Some (JNum m _) => negb (Z.eqb m 0)
  | Some (JStr s) => negb (String.eqb s EmptyString)
  | Some (JArr _) | Some (JObj _) => true
  end.

(** [a ?? b] with a [b] that is a value of JSON. *)
Definition orElse (a : Value) (b : Json) : Json :=
  match a with
  | None | Some JNull => b
  | Some v => v
  end.

(** [hay.includes(needle)] *)
Fixpoint startsWith (needle hay : string) : bool :=
  match needle, hay with
  | EmptyString, _ => true
  | String a needle', String b hay' => Ascii.eqb a b && startsWith needle' hay'
  | String _ _, EmptyString => false
  end.

Fixpoint includes (hay needle : string) : bool :=
  startsWith needle hay
  || match hay with
     | EmptyString => false
     | String _ hay' => includes hay' needle
     end.

(** *** The functions of the file *)

Definition buildRequestBody (request : LLMRequest) : Json :=
  let generationConfig :=
    [ ("maxOutputTokens",
       ofNumber (match maxTokens request with Some n => n | None => DEFAULT_MAX_TOKENS end));
      ("temperature",
       ofNumber (match temperature request with
                 | Some t => t
                 | None => DEFAULT_TEMPERATURE
                 end)) ] in
  let generationConfig :=
    match responseFormat request with
    | Some format_json =>
        (generationConfig ++ [("responseMimeType", JStr "application/json")])%list
    | _ => generationConfig
    end in
  JObj [ ("system_instruction",
          JObj [("parts", JArr [JObj [("text", JStr (systemPrompt request))]])]);
         ("contents",
          JArr [JObj [ ("role", JStr "user");
                       ("parts", JArr [JObj [("text", JStr (userMessage request))]]) ]]);
         ("generationConfig", JObj generationConfig) ].

Definition classifyHttpError (status : Z) (body : string) : LLMError :=
  if Z.eqb status 429 then
    {| kind := rate_limit;
       message := JStr ("Rate limited (429): " ++ body);
       statusCode := Some (JInt status) |}
  else if Z.eqb status 401 || Z.eqb status 403 then
    {| kind := auth_error;
       message := JStr ("Authentication failed (" ++ Js.Number_toString status ++ "): "
                        ++ body);
       statusCode := Some (JInt status) |}
  else
    {| kind := api_error;
       message := JStr ("HTTP " ++ Js.Number_toString status ++ ": " ++ body);
       statusCode := Some (JInt status) |}.

Definition extractContent (body : Value) : Js.Outcome Json :=
  Js.obind (member body "candidates") (fun candidates =>
  let candidate := optFirst candidates in
  if negb (truthy candidate) then Js.Return JNull
  else
    Js.obind (member candidate "content") (fun content =>
    let part := optFirst (optMember content "parts") in
    if negb (truthy part) then Js.Return JNull
    else
      Js.obind (member part "text") (fun text =>
      Js.Return (orElse text JNull)))).

(** What [fetch] and [response.text()] give: [fetch] rejects with an
    error of some message, or resolves to a response whose body can be
    read or not. *)
Inductive Fetched : Type :=
| NetworkError (message : string)
| Responded (ok : bool) (status : Z) (text : option string).

(** What was handed to [fetch]; the body is shown before
    [JSON.stringify]. *)
Record Sent : Type := {
  url : string;
  method : string;
  headers : list (string * string);
  body : Json;
  signal : Z;
}.

(** What the promise of [complete] settles on. *)
Inductive Reason : Type :=
| ReadFailure
| Uncaught (e : Js.Exn).

Inductive Settled : Type :=
| Resolved (result : LLMResult)
| Rejected (reason : Reason).

Section WithJSON.
Context (JSON_parse : string -> option Json).

Definition sent (apiKey : string) (request : LLMRequest) : Sent :=
  {| url := GEMINI_BASE_URL ++ "/" ++ GEMINI_MODEL ++ ":generateContent?key=" ++ apiKey;
     method := "POST";
     headers := [("Content-Type", "application/json")];
     body := buildRequestBody request;
     signal := REQUEST_TIMEOUT_MS |}.

(** The rest of [complete], from the outcome of [fetch] on. *)
Definition complete (fetched : Fetched) : Settled :=
  match fetched with
  | NetworkError message =>
      if includes message "abort" || includes message "timeout"
         || includes message "TimeoutError"
      then Resolved (Failure
             {| kind := timeout;
                message := JStr ("Request timed out after "
                                 ++ Js.Number_toString REQUEST_TIMEOUT_MS ++ "ms");
                statusCode := None |})
      else Resolved (Failure
             {| kind := api_error;
                message := JStr ("Network error: " ++ message);
                statusCode := None |})
  | Responded ok status text =>
      match text with
      | None => Rejected ReadFailure
      | Some rawBody =>
          if negb ok then Resolved (Failure (classifyHttpError status rawBody))
          else
            match JSON_parse rawBody with
            | None =>
                Resolved (Failure
                  {| kind := parse_error;
                     message := JStr ("Failed to parse response JSON: "
                                      ++ Js.slice rawBody 0 500);
                     statusCode := None |})
            | Some parsed =>
                let settled :=
                  Js.obind (member (Some parsed) "error") (fun error =>
                  if truthy error then
                    Js.obind (member error "message") (fun errorMessage =>
                    Js.obind (member error "code") (fun code =>
                    Js.Return (Failure
                      {| kind := api_error;
                         message := orElse errorMessage (JStr "Unknown Gemini API error");
                         statusCode := code |})))
                  else
                    Js.obind (extractContent (Some parsed)) (fun content =>
                    match content with
                    | JNull =>
                        Js.Return (Failure
                          {| kind := parse_error;
                             message := JStr "No content in Gemini response candidates";
                             statusCode := None |})
                    | content =>
                        Js.obind (member (Some parsed) "usageMetadata") (fun usage =>
                        Js.Return (Success
                          {| content := content;
                             usage :=
                               {| promptTokens :=
                                    orElse (optMember usage "promptTokenCount") (JInt 0);
                                  completionTokens :=
                                    orElse (optMember usage "candidatesTokenCount") (JInt 0);
                                  totalTokens :=
                                    orElse (optMember usage "totalTokenCount") (JInt 0) |};
                             model := GEMINI_MODEL;
                             provider := "gemini" |}))
                    end)) in
                match settled with
                | Js.Return result => Resolved result
                | Js.Throw e => Rejected (Uncaught e)
                end
            end
      end
  end.

End WithJSON.
End Gemini.

(** *** Records of a run *)

(** A record of task [taskId] other than the note that the product stage
    was skipped. *)
Definition ordinary (taskId : string) (e : AuditEvent) : Prop :=
  ev_taskId e = taskId /\ eventType e <> "product_skipped".

(** The payload of the note that the product stage was skipped. *)
Definition skippedNote (c : ClassificationResult) (spec : IntentSpec) : Json :=
  JObj [ ("reason", JStr "Classification routed directly to dev. Technical input does not require disambiguation.");
         ("category", JStr (Category_toString (category c)));
         ("ruleApplied", JStr (ruleApplied c));
         ("inlineSpecId", JStr (specId spec)) ].

(** The spec the product stage hands on, and the one built from the body
    of the task when that stage is skipped. *)
Definition mockSpec (task : Task) (spec : IntentSpec) : Prop :=
  spec_taskId spec = taskId task
  /\ objective spec = "Create a TypeScript function that returns a greeting string."
  /\ map req_id (requirements spec) = ["REQ-001"; "REQ-002"]
  /\ map con_id (constraints spec) = ["CON-001"]
  /\ List.length (outOfScope spec) = 3.

Definition inlineSpec (task : Task) (spec : IntentSpec) : Prop :=
  spec_taskId spec = taskId task
  /\ objective spec = body task
  /\ requirements spec
     = [ {| req_id := "REQ-001";
            req_description := body task;
            verification := "Implementation satisfies the task description as stated." |} ]
  /\ constraints spec = []
  /\ outOfScope spec = ["Anything not explicitly stated in the task description."].

(** The report of the QA stage on [spec]. *)
Definition reportOn (spec : IntentSpec) (report : ValidationReport) : Prop :=
  vr_taskId report = spec_taskId spec
  /\ vr_specId report = specId spec
  /\ verdict report = pass
  /\ summary report
     = {| totalRequirements := List.length (requirements spec);
          passedRequirements := List.length (requirements spec);
          failedRequirements := 0;
          totalConstraints := List.length (constraints spec);
          violatedConstraints := 0;
          scopeViolationCount := 0 |}.

(** *** Lines of an environment file *)

(** The character [c] does not occur in [s]. *)
Definition lacks (c : ascii) (s : string) : bool :=
  every (fun d => negb (Ascii.eqb d c)) s.

(** A key as [parseEnvFile] stores it: trimmed, not empty, without [=],
    and not the start of a comment. *)
Definition envKey (k : string) : Prop :=
  Js.trim k = k /\ k <> EmptyString /\ lacks "=" k = true
  /\ Config.startsWith "#" k = false.

(** [v] is not wrapped in a pair of quotes. *)
Definition bare (v : string) : Prop :=
  (Config.startsWith Js.DQUOTE v && Config.endsWith Js.DQUOTE v)
  || (Config.startsWith "'" v && Config.endsWith "'" v) = false.

(** *** A project with an environment file *)

(** [exampleHost] with a [.env] file that sets one key twice. *)
Definition envHost : Host :=
  {| Date_now := Date_now exampleHost;
     Date_toISOString := Date_toISOString exampleHost;
     entropy := entropy exampleHost;
     readFileSync := fun p =>
       if String.eqb p "/srv/.env"
       then Some (Js.join Js.nl ["GEMINI_API_KEY=first"; "MODEL=flash"; "GEMINI_API_KEY=second"])
       else readFileSync exampleHost p;
     existsSync := existsSync exampleHost;
     mkdirSync := mkdirSync exampleHost;
     path_resolve := path_resolve exampleHost |}.

(** *** Arrays and fenced replies *)

(** A serialized JSON array: the two array cases of a value. *)
Definition ArrayText (s : string) : Prop :=
  exists inner, s = "[" ++ inner ++ "]"
                /\ (Grammar.Ws inner \/ Grammar.Text Grammar.elements inner).

(** A character that is neither a quote, nor a backslash, nor a
    bracket. *)
Definition unbracketed (c : ascii) : bool :=
  negb (Ascii.eqb c Js.DQUOTE) && negb (Ascii.eqb c Js.BACKSLASH)
  && negb (Ascii.eqb c "[") && negb (Ascii.eqb c "]").

(** An array of two objects, after a sentence. *)
Definition arrayReply : string :=
  "Two results: [{" ++ Js.dq ++ "id" ++ Js.dq ++ ": 1}, {" ++ Js.dq ++ "id" ++ Js.dq
  ++ ": 2}] as asked.".

(** A reply that wraps its JSON in a tagged code fence. *)
Definition fencedReply : string :=
  "Here you go:" ++ Js.nl ++ "```json" ++ Js.nl
  ++ "{" ++ Js.dq ++ "ok" ++ Js.dq ++ ": true}" ++ Js.nl ++ "```" ++ Js.nl ++ "Done.".

(** *** Bodies of the Gemini API *)

(** A body of the documented shape: candidates, the first of which has
    parts, the first of which has a text; token counts are present or
    not. *)
Definition geminiBody (text : string) (moreParts moreCandidates : list Json)
    (counts : option (Z * Z * Z)) : Json :=
  JObj (("candidates",
         JArr (JObj [("content",
                      JObj [ ("parts", JArr (JObj [("text", JStr text)] :: moreParts));
                             ("role", JStr "model") ])]
               :: moreCandidates))
        :: match counts with
           | Some (prompt, candidates, total) =>
               [("usageMetadata",
                 JObj [ ("promptTokenCount", JInt prompt);
                        ("candidatesTokenCount", JInt candidates);
                        ("totalTokenCount", JInt total) ])]
           | None => []
           end).

(* ========================================================================= *)
(** * Theorems *)
(* ========================================================================= *)

(* ------------------------------------------------------------------------- *)
(** ** Scope resolution *)
(* ------------------------------------------------------------------------- *)

Section ScopeResolution.
Import Manifests Runtime.

(** What a filter that returned kept: a sublist of its input, every
    element of which the callback accepted. *)
Lemma filterM_Return {A} (p : A -> Js.Outcome bool) (l r : list A) :
  Js.filterM p l = Js.Return r ->
  sublist r l /\ Forall (fun x => p x = Js.Return true) r.
Proof.
  revert r. induction l as [|x l IH]; intros r H; simpl in H.
  - injection H as <-. split; constructor.
  - destruct (p x) as [keep|e] eqn:Hp; simpl in H; [|discriminate].
    destruct (Js.filterM p l) as [rest|e] eqn:Hl; simpl in H; [|discriminate].
    injection H as <-. destruct (IH rest eq_refl) as [Hsub Hall].
    destruct keep.
    + split; [by apply sublist_skip|by constructor].
    + split; [by apply sublist_cons|done].
Qed.

(** A filter throws only where its callback does. *)
Lemma filterM_total {A} (p : A -> Js.Outcome bool) (l : list A) :
  Forall (fun x => exists b, p x = Js.Return b) l ->
  exists r, Js.filterM p l = Js.Return r.
Proof.
  induction 1 as [|x l [b Hb] _ [r Hr]]; simpl.
  - by eexists.
  - rewrite Hb, Hr. simpl. by eexists.
Qed.

Lemma existsb_Capability (cap : Capability) (caps : list Capability) :
  existsb (Capability_eqb cap) caps = true <-> cap ∈ caps.
Proof.
  rewrite existsb_exists. split.
  - intros (c & Hin & Heq). apply list_elem_of_In in Hin.
    by destruct cap, c.
  - intros Hin. exists cap. split; [by apply list_elem_of_In|by destruct cap].
Qed.

(** A tool that the callback keeps under a denied network carries no
    [network] tag. *)
Lemma keepTool_no_network (perms : AgentPermissions) (tool : string)
      (caps : list Capability) :
  allowNetwork perms = NetBool false ->
  TOOL_CAPABILITY_MAP !! tool = Some caps ->
  keepTool perms tool = Js.Return true ->
  network ∉ caps.
Proof.
  intros Hnet Hcaps Hkeep Hin.
  unfold keepTool, capabilitiesOf in Hkeep. rewrite Hcaps, Hnet in Hkeep.
  simpl in Hkeep.
  apply existsb_Capability in Hin. rewrite Hin in Hkeep. discriminate.
Qed.

(** C1. For every manifest, the effective tools of the scope resolved from
    it are among the tools the manifest declares, and when the manifest
    denies the network ([allowNetwork] is [false]) none of them is tagged
    [network] in the tool-capability map. *)
Theorem resolveScope_tools_ceiling (M : AgentManifest) (eff : list string) :
  filterTools (tools M) (permissions M) = Js.Return eff ->
  effectiveTools (resolveScope M eff) ⊆ tools M
  /\ (allowNetwork (permissions M) = NetBool false ->
      forall t caps,
        t ∈ effectiveTools (resolveScope M eff) ->
        TOOL_CAPABILITY_MAP !! t = Some caps ->
        network ∉ caps).
Proof.
  intros H. apply filterM_Return in H as [Hsub Hall]. simpl. split.
  - by apply sublist_subseteq.
  - intros Hnet t caps Ht Hcaps.
    rewrite Forall_forall in Hall.
    eapply keepTool_no_network; eauto.
Qed.

Lemma resolveScope_tools_ceiling_witness :
  effectiveTools (resolveScope deployManifest ["read"; "grep"; "deploy"])
    ⊆ tools deployManifest
  /\ (allowNetwork (permissions deployManifest) = NetBool false ->
      forall t caps,
        t ∈ effectiveTools (resolveScope deployManifest ["read"; "grep"; "deploy"]) ->
        TOOL_CAPABILITY_MAP !! t = Some caps ->
        network ∉ caps).
Proof.
  apply (resolveScope_tools_ceiling deployManifest ["read"; "grep"; "deploy"]).
  vm_compute. reflexivity.
Defined.

(** The filter returns on every manifest none of whose tools is named
    like a member of [Object.prototype]. *)
Lemma filterTools_returns (tools : list string) (perms : AgentPermissions) :
  Forall (fun t => t ∉ Object_prototype_keys) tools ->
  exists eff, filterTools tools perms = Js.Return eff.
Proof.
  intros H. apply filterM_total. eapply Forall_impl; [exact H|].
  intros t Ht. unfold keepTool, capabilitiesOf.
  destruct (TOOL_CAPABILITY_MAP !! t) as [caps|].
  - destruct (isFalse _), (negb _); simpl;
      repeat (destruct (existsb _ _); simpl); by eexists.
  - rewrite bool_decide_eq_false_2 by done.
    destruct (isFalse _), (negb _); simpl; by eexists.
Qed.

(** C2. A manifest whose [allowNetwork] is the boolean [true] resolves to
    the network policy ['none'], and the resolved policy is a domain list
    exactly when the manifest gives that list. *)
Theorem resolveScope_network_policy (M : AgentManifest) (eff : list string) :
  (allowNetwork (permissions M) = NetBool true ->
   networkPolicy (resolveScope M eff) = NetworkNone)
  /\ (forall domains,
        networkPolicy (resolveScope M eff) = NetworkDomains domains
        <-> allowNetwork (permissions M) = NetList domains).
Proof.
  unfold resolveScope; simpl. split.
  - by intros ->.
  - intros domains. destruct (allowNetwork (permissions M)); split; congruence.
Qed.

Lemma resolveScope_network_policy_witness :
  networkPolicy (resolveScope openNetworkManifest ["fetch"]) = NetworkNone.
Proof.
  apply (proj1 (resolveScope_network_policy openNetworkManifest ["fetch"])).
  reflexivity.
Defined.

End ScopeResolution.

(* ------------------------------------------------------------------------- *)
(** ** Strings *)
(* ------------------------------------------------------------------------- *)

Section Strings.

Lemma append_cons (x : ascii) (a b : string) : String x a ++ b = String x (a ++ b).
Proof. reflexivity. Qed.

Lemma append_nil_l (a : string) : EmptyString ++ a = a.
Proof. reflexivity. Qed.

Lemma append_assoc (a b c : string) : (a ++ b) ++ c = a ++ (b ++ c).
Proof.
  induction a as [|x a IH]; [done|]. by rewrite !append_cons, IH.
Qed.

Lemma append_nil_r (a : string) : a ++ EmptyString = a.
Proof.
  induction a as [|x a IH]; [done|]. by rewrite append_cons, IH.
Qed.

Lemma length_append (a b : string) :
  String.length (a ++ b) = String.length a + String.length b.
Proof.
  induction a as [|x a IH]; [done|]. rewrite append_cons. simpl. by rewrite IH.
Qed.

Lemma drop_append (a b : string) : Js.drop (String.length a) (a ++ b) = b.
Proof.
  induction a as [|x a IH]; [by destruct b|]. by rewrite append_cons.
Qed.

Lemma take_append (a b : string) : Js.take (String.length a) (a ++ b) = a.
Proof.
  induction a as [|x a IH]; [by destruct b|]. rewrite append_cons. simpl.
  by rewrite IH.
Qed.

(** [trimEnd] removes a run of white space from the end and nothing
    else. *)
Lemma trimEnd_spec (s : string) :
  exists ws, s = Js.trimEnd s ++ ws /\ allWhiteSpace ws = true.
Proof.
  unfold allWhiteSpace.
  induction s as [|c s (ws & Hs & Hws)]; simpl.
  - by exists EmptyString.
  - destruct (Js.trimEnd s) as [|d t] eqn:Ht.
    + rewrite append_nil_l in Hs. subst ws. destruct (Js.isWhiteSpace c) eqn:Hc.
      * exists (String c s). simpl. by rewrite Hc, Hws.
      * exists s. done.
    + exists ws. split; [|done]. by rewrite append_cons, <- Hs.
Qed.

Lemma inOrder_prepend (pieces : list string) (pre text : string) :
  inOrder pieces text -> inOrder pieces (pre ++ text).
Proof.
  destruct pieces as [|p ps]; simpl; [done|].
  intros (before & after & -> & H). exists (pre ++ before), after.
  split; [by rewrite append_assoc|done].
Qed.

(** Lines picked from an array, in its order, occur in that order in the
    joined text. *)
Lemma inOrder_join (sep : string) (pieces lines : list string) :
  sublist pieces lines -> inOrder pieces (Js.join sep lines).
Proof.
  induction 1 as [|x l1 l2 Hsub IH|x l1 l2 Hsub IH]; simpl.
  - done.
  - destruct l2 as [|y l2].
    + apply sublist_nil_r in Hsub as ->.
      exists EmptyString, EmptyString. by rewrite append_nil_r.
    + exists EmptyString, (sep ++ Js.join sep (y :: l2)). split; [done|].
      by apply inOrder_prepend.
  - destruct l2 as [|y l2].
    + by apply sublist_nil_r in Hsub as ->.
    + change (inOrder l1 (x ++ sep ++ Js.join sep (y :: l2))).
      by do 2 apply inOrder_prepend.
Qed.

End Strings.

(* ------------------------------------------------------------------------- *)
(** ** Prompt assembly *)
(* ------------------------------------------------------------------------- *)

Section PromptAssembly.
Import Runtime.

(** C8, as the specification words it, fails: a contract that ends in a
    space is not the beginning of the prompt assembled from it. *)
Lemma assembleSystemPrompt_not_verbatim :
  ~ exists rest,
      assembleSystemPrompt "# Dev Agent " (resolveScope Manifests.DEV_MANIFEST ["read"])
      = "# Dev Agent " ++ rest.
Proof. intros [rest H]. vm_compute in H. discriminate H. Qed.

(** C8, amended. The assembled prompt is the role contract without the
    white space at its end, a blank line, and then one block in which
    appear, in this order: the network policy, the filesystem policy,
    the effective tools (one line for each), the time limit, the cost
    cap, and the enforcement notice, which calls the agent untrusted and
    tells it to fail explicitly instead of working around a constraint. *)
Theorem assembleSystemPrompt_layout (roleContent : string) (scope : ResolvedScope) :
  exists trailing block,
    roleContent = Js.trimEnd roleContent ++ trailing
    /\ allWhiteSpace trailing = true
    /\ assembleSystemPrompt roleContent scope
       = Js.trimEnd roleContent ++ Js.nl ++ Js.nl ++ block ++ Js.nl
    /\ inOrder
         [ "## Runtime Permissions";
           "**Network access:** " ++ networkLine scope;
           "**Filesystem access:** " ++ filesystemLine scope;
           "**Permitted tools:**";
           toolsList scope;
           "**Execution time limit:** "
             ++ Js.Number_toString (scope_maxExecutionTime scope) ++ "ms";
           "**Cost cap:** " ++ Js.Number_toString (scope_maxCostCap scope) ++ " tokens";
           "## Enforcement Notice";
           "You are an untrusted, disposable runtime. Your capabilities are enforced externally.";
           "If your task cannot be completed within these constraints, return a structured failure.";
           "Do not attempt workarounds. Do not escalate your own permissions. Fail explicitly." ]
         block
    /\ (forall t, t ∈ effectiveTools scope -> inOrder ["  - " ++ t] (toolsList scope)).
Proof.
  destruct (trimEnd_spec roleContent) as (trailing & Htrim & Hws).
  exists trailing, (buildPermissionsBlock scope).
  split; [done|]. split; [done|]. split; [done|]. split.
  - unfold buildPermissionsBlock. apply inOrder_join.
    repeat first [ apply sublist_nil | apply sublist_skip | apply sublist_cons ].
  - intros t Ht. unfold toolsList.
    destruct (effectiveTools scope) as [|t0 ts] eqn:Heff; [by apply elem_of_nil in Ht|].
    apply inOrder_join, singleton_sublist_l.
    apply (list_elem_of_fmap_2 (fun t => "  - " ++ t)) in Ht. exact Ht.
Qed.

Lemma assembleSystemPrompt_layout_witness :
  exists trailing block,
    "# Dev Agent " = Js.trimEnd "# Dev Agent " ++ trailing
    /\ allWhiteSpace trailing = true
    /\ assembleSystemPrompt "# Dev Agent " (resolveScope Manifests.DEV_MANIFEST ["read"])
       = Js.trimEnd "# Dev Agent " ++ Js.nl ++ Js.nl ++ block ++ Js.nl
    /\ inOrder
         [ "## Runtime Permissions";
           "**Network access:** " ++ networkLine (resolveScope Manifests.DEV_MANIFEST ["read"]);
           "**Filesystem access:** "
             ++ filesystemLine (resolveScope Manifests.DEV_MANIFEST ["read"]);
           "**Permitted tools:**";
           toolsList (resolveScope Manifests.DEV_MANIFEST ["read"]);
           "**Execution time limit:** " ++ Js.Number_toString 600000 ++ "ms";
           "**Cost cap:** " ++ Js.Number_toString 100000 ++ " tokens";
           "## Enforcement Notice";
           "You are an untrusted, disposable runtime. Your capabilities are enforced externally.";
           "If your task cannot be completed within these constraints, return a structured failure.";
           "Do not attempt workarounds. Do not escalate your own permissions. Fail explicitly." ]
         block
    /\ (forall t, t ∈ effectiveTools (resolveScope Manifests.DEV_MANIFEST ["read"]) ->
                  inOrder ["  - " ++ t] (toolsList (resolveScope Manifests.DEV_MANIFEST ["read"]))).
Proof.
  exact (assembleSystemPrompt_layout "# Dev Agent "
           (resolveScope Manifests.DEV_MANIFEST ["read"])).
Defined.

End PromptAssembly.

(* ------------------------------------------------------------------------- *)
(** ** Agent spawn *)
(* ------------------------------------------------------------------------- *)

Section Spawn.
Import Manifests Runtime.
Context (host : Host).

(** Reading the host never throws. *)
Lemma randomHex_returns (n : nat) (w : World) :
  exists hex, Node.randomHex host n w
              = (Js.Return hex, {| tick := n + tick w; audit := audit w |}).
Proof.
  revert w. induction n as [|n IH]; intros w; simpl.
  - exists EmptyString. by destruct w.
  - unfold Eff.bind, Eff.observe at 1. simpl.
    destruct (IH {| tick := S (tick w); audit := audit w |}) as [hex ->].
    simpl. eexists. unfold Eff.ret. do 2 f_equal. f_equal. lia.
Qed.

(** Where the tool filter returns, so does [spawnAgent]: with
    [system_prompt_missing] when the contract cannot be read, and with an
    agent built on the resolved scope when it can. *)
Lemma spawnAgent_returns (M : AgentManifest) (task : Task) (projectRoot : string)
      (w : World) (eff : list string) :
  filterTools (tools M) (permissions M) = Js.Return eff ->
  exists r w',
    spawnAgent host M task projectRoot w = (Js.Return r, w')
    /\ match loadSystemPromptContent host (systemPromptPath M) projectRoot with
       | None =>
           exists e, r = SpawnFailure e /\ kind e = system_prompt_missing
                     /\ manifestRole e = role M
       | Some roleContent =>
           exists a, r = SpawnSuccess a
                     /\ sa_manifest a = M /\ sa_task a = task
                     /\ scope a = resolveScope M eff
                     /\ systemPrompt a = assembleSystemPrompt roleContent (scope a)
                     /\ workspacePath a
                        = path_resolve host [projectRoot; "workspace"; sa_agentId a]
       end.
Proof.
  intros Hf. unfold spawnAgent.
  destruct (loadSystemPromptContent host (systemPromptPath M) projectRoot)
    as [roleContent|].
  - rewrite Hf. unfold Eff.bind at 1, Eff.lift. unfold generateAgentId.
    unfold Eff.bind at 1. unfold Eff.bind at 1, Node.now at 1, Eff.observe at 1.
    destruct (randomHex_returns 2 {| tick := S (tick w); audit := audit w |})
      as [hex Hhex].
    unfold Eff.bind at 1. rewrite Hhex. unfold Eff.ret at 1.
    unfold Node.isoNow, Node.now, Eff.bind, Eff.observe, Eff.ret. simpl.
    do 2 eexists. split; [reflexivity|]. eexists. split; [reflexivity|].
    simpl. done.
  - unfold Eff.ret. do 2 eexists. split; [reflexivity|].
    eexists. split; [reflexivity|]. done.
Qed.

End Spawn.

(** C9, at the input where the code departs from it. The contract of the
    role is read without error, and [spawnAgent] throws a [TypeError]
    instead of returning a result: the tool named [constructor] is looked
    up in the capability table, the lookup finds the member inherited from
    [Object.prototype], and that member has no [includes]. *)
Theorem spawnAgent_throws_on_inherited_tool_name :
  Runtime.loadSystemPromptContent exampleHost
    (systemPromptPath inheritedNameManifest) "/srv" <> None
  /\ fst (Runtime.spawnAgent exampleHost inheritedNameManifest exampleTask "/srv" freshWorld)
     = Js.Throw (Js.TypeError "capabilities.includes is not a function").
Proof. split; [discriminate|]. vm_compute. reflexivity. Qed.

(* ------------------------------------------------------------------------- *)
(** ** The logger *)
(* ------------------------------------------------------------------------- *)

Section Logging.
Context (host : Host).

Lemma isoNow_returns (w : World) :
  Node.isoNow host w
  = (Js.Return (Date_toISOString host (Date_now host (tick w))),
     {| tick := S (tick w); audit := audit w |}).
Proof. reflexivity. Qed.

(** Making sure of the logs directory returns or throws, the same in
    every world, and changes nothing. *)
Lemma ensureLogsDir_cases (projectRoot : string) :
  logsReady host projectRoot
  \/ exists message, logsFailure host projectRoot (Js.Error message).
Proof.
  unfold logsReady, logsFailure, Logger.ensureLogsDir.
  destruct (existsSync host _); simpl; [by left|].
  destruct (mkdirSync host _) as [message|]; [right; by exists message|by left].
Qed.

Lemma logs_exclusive (projectRoot : string) (e : Js.Exn) :
  logsReady host projectRoot -> logsFailure host projectRoot e -> False.
Proof.
  intros Hr Hf. specialize (Hr {| tick := 0; audit := [] |}).
  rewrite Hf in Hr. discriminate Hr.
Qed.

(** [logEvent] either adds exactly one record, which keeps the task, the
    type, the agent and the payload of the event, or throws what
    [mkdirSync] threw and leaves the world as it was. *)
Lemma logEvent_cases (e : AuditEvent) (projectRoot : string) (w : World) :
  (logsReady host projectRoot
   /\ exists ts k,
        Logger.logEvent host e projectRoot w
        = (Js.Return tt,
           {| tick := k + tick w;
              audit := audit w ++ [ {| timestamp := ts; ev_taskId := ev_taskId e;
                                       eventType := eventType e; agentId := agentId e;
                                       data := data e |} ] |}))
  \/ (exists message,
        logsFailure host projectRoot (Js.Error message)
        /\ Logger.logEvent host e projectRoot w = (Js.Throw (Js.Error message), w)).
Proof.
  unfold Logger.logEvent, Eff.bind.
  destruct (ensureLogsDir_cases projectRoot) as [Hr|[message Hf]].
  - left. split; [done|]. rewrite Hr. destruct (timestamp e) as [|c t].
    + eexists _, 1. reflexivity.
    + eexists _, 0. reflexivity.
  - right. exists message. split; [done|]. by rewrite Hf.
Qed.

End Logging.

(** One step of a stage that logs: the event is written, or the stage
    ends there, which [Hready] or the goal excludes. *)
Ltac logged Hready :=
  match goal with
  | |- context [Logger.logEvent ?h ?e ?r ?w] =>
      let ts := fresh "ts" in
      let k := fresh "k" in
      let message := fresh "message" in
      let Hf := fresh "Hf" in
      destruct (logEvent_cases h e r w) as [[_ (ts & k & ->)]|(message & Hf & ->)];
      [|first [ by destruct (logs_exclusive _ _ _ Hready Hf) | discriminate | done ]]
  end.

(* ------------------------------------------------------------------------- *)
(** ** The QA stage *)
(* ------------------------------------------------------------------------- *)

Section QaStage.
Context (host : Host).

(** C10. Whatever the intent spec and whatever the dev output, failed
    ones included, the QA stage returns when the logs directory is there
    or can be made, and a report it returns has the verdict [pass], one
    [pass] result per requirement and per constraint of the spec, no
    scope violation, and a summary in which the passed requirements are
    all the requirements and the failed requirements, violated
    constraints and scope violations are zero; the report is the same
    for every dev output. *)
Theorem qa_always_passes (spec : IntentSpec) (devOutput : DevOutput)
        (agentId projectRoot : string) (w : World) :
  (logsReady host projectRoot ->
   exists report w',
     MockQa.execute host spec devOutput agentId projectRoot w = (Js.Return report, w'))
  /\ forall report w',
       MockQa.execute host spec devOutput agentId projectRoot w = (Js.Return report, w') ->
       verdict report = pass
       /\ map requirementId (requirementResults report) = map req_id (requirements spec)
       /\ Forall (fun r => rr_status r = pass) (requirementResults report)
       /\ map constraintId (constraintResults report) = map con_id (constraints spec)
       /\ Forall (fun r => cr_status r = pass) (constraintResults report)
       /\ scopeViolations report = []
       /\ totalRequirements (summary report) = List.length (requirements spec)
       /\ passedRequirements (summary report) = List.length (requirements spec)
       /\ failedRequirements (summary report) = 0
       /\ violatedConstraints (summary report) = 0
       /\ scopeViolationCount (summary report) = 0
       /\ forall devOutput',
            MockQa.execute host spec devOutput' agentId projectRoot w
            = (Js.Return report, w').
Proof.
  split.
  - intros Hready. unfold MockQa.execute, Eff.bind.
    rewrite (isoNow_returns host). cbv beta iota. logged Hready. cbv beta iota.
    rewrite (isoNow_returns host). cbv beta iota. logged Hready. cbv beta iota.
    by eexists _, _.
  - intros report w' Hrun.
    assert (Hsame : forall devOutput',
               MockQa.execute host spec devOutput' agentId projectRoot w
               = (Js.Return report, w')) by (intros devOutput'; exact Hrun).
    revert Hrun. unfold MockQa.execute, Eff.bind.
    rewrite (isoNow_returns host). cbv beta iota. logged Hsame. cbv beta iota.
    rewrite (isoNow_returns host). cbv beta iota. logged Hsame. cbv beta iota.
    unfold Eff.ret. intros [= <- <-]. simpl.
    rewrite !length_map, !map_map. simpl.
    repeat split; try done.
    + apply Forall_map. by apply Forall_true.
    + apply Forall_map. by apply Forall_true.
Qed.

End QaStage.

(* ------------------------------------------------------------------------- *)
(** ** Classification *)
(* ------------------------------------------------------------------------- *)

Section Classification.
Import Coordinator.
Context (host : Host).

(** The loop counts the patterns that match, each once. *)
Lemma countMatches_filter (body : string) (patterns : list RegExp.t) :
  countMatches body patterns
  = List.length (List.filter (fun p => RegExp.test p body) patterns).
Proof.
  induction patterns as [|p ps IH]; simpl; [done|].
  destruct (RegExp.test p body); simpl; by rewrite IH.
Qed.

Lemma decideRoute_spec (ts bs : nat) :
  confidence (decideRoute ts bs) = heuristic
  /\ (routedTo (decideRoute ts bs) = to_dev <-> bs < ts)
  /\ (1 <= bs /\ ts <= bs ->
      routedTo (decideRoute ts bs) = to_product
      /\ category (decideRoute ts bs) = business)
  /\ (ts = 0 /\ bs = 0 ->
      routedTo (decideRoute ts bs) = to_product
      /\ category (decideRoute ts bs) = ambiguous).
Proof.
  unfold decideRoute.
  destruct (Nat.ltb_spec 0 ts), (Nat.ltb_spec bs ts), (Nat.ltb_spec 0 bs),
    (Nat.leb_spec ts bs); simpl; repeat split; intros; try done; try lia.
Qed.

(** C3. Without an operator type hint, the classifier returns when the
    logs directory is there or can be made, and a result it returns is
    decided as follows: it counts, for the technical and for the business
    patterns, how many match the body (each matching pattern counts
    once), and routes on the two scores: to dev exactly when the
    technical score is strictly greater; to product as [business] when
    the business score is at least 1 and at least the technical score; to
    product as [ambiguous] when both are 0. A tie or a body without
    signal is never routed to dev. *)
Theorem classify_tie_break (task : Task) (projectRoot : string) (w : World) :
  type task = None ->
  (logsReady host projectRoot ->
   exists r w', Coordinator.classify host task projectRoot w = (Js.Return r, w'))
  /\ forall r w',
       Coordinator.classify host task projectRoot w = (Js.Return r, w') ->
       let technicalScore :=
         List.length (List.filter (fun p => RegExp.test p (body task)) TECHNICAL_PATTERNS) in
       let businessScore :=
         List.length (List.filter (fun p => RegExp.test p (body task)) BUSINESS_PATTERNS) in
       confidence r = heuristic
       /\ (routedTo r = to_dev <-> businessScore < technicalScore)
       /\ (1 <= businessScore /\ technicalScore <= businessScore ->
           routedTo r = to_product /\ category r = business)
       /\ (technicalScore = 0 /\ businessScore = 0 ->
           routedTo r = to_product /\ category r = ambiguous)
       /\ (technicalScore <= businessScore -> routedTo r <> to_dev).
Proof.
  intros Hty. unfold Coordinator.classify. rewrite Hty. unfold Eff.bind.
  rewrite (isoNow_returns host). cbv beta iota. split.
  - intros Hready. logged Hready. by eexists _, _.
  - intros r w'. logged True. cbv beta iota. unfold Eff.ret. intros [= <- _].
    rewrite <- !countMatches_filter.
    set (t := countMatches (body task) TECHNICAL_PATTERNS).
    set (b := countMatches (body task) BUSINESS_PATTERNS).
    destruct (decideRoute_spec t b) as (Hc & Hdev & Hbus & Hamb).
    cbv zeta. split; [exact Hc|]. split; [exact Hdev|].
    split; [exact Hbus|]. split; [exact Hamb|].
    intros Hle Hr. apply Hdev in Hr. lia.
Qed.

End Classification.

(** Two bodies from the end-to-end scenarios: four technical signals, and
    none at all. *)
Example scores_refactor :
  (Coordinator.countMatches "Refactor the login function in src/auth/login.ts"
                            Coordinator.TECHNICAL_PATTERNS,
   Coordinator.countMatches "Refactor the login function in src/auth/login.ts"
                            Coordinator.BUSINESS_PATTERNS) = (4, 0).
Proof. vm_compute. reflexivity. Qed.

Example scores_make_it_better :
  (Coordinator.countMatches "Make it better" Coordinator.TECHNICAL_PATTERNS,
   Coordinator.countMatches "Make it better" Coordinator.BUSINESS_PATTERNS) = (0, 0).
Proof. vm_compute. reflexivity. Qed.

Lemma exampleHost_logsReady : logsReady exampleHost "/srv".
Proof. intros w. reflexivity. Qed.

Lemma classify_tie_break_witness :
  exists r w',
    Coordinator.classify exampleHost exampleTask "/srv" freshWorld = (Js.Return r, w')
    /\ let technicalScore :=
         List.length (List.filter (fun p => RegExp.test p (body exampleTask))
                                  Coordinator.TECHNICAL_PATTERNS) in
       let businessScore :=
         List.length (List.filter (fun p => RegExp.test p (body exampleTask))
                                  Coordinator.BUSINESS_PATTERNS) in
       confidence r = heuristic
       /\ (routedTo r = to_dev <-> businessScore < technicalScore)
       /\ (1 <= businessScore /\ technicalScore <= businessScore ->
           routedTo r = to_product /\ category r = business)
       /\ (technicalScore = 0 /\ businessScore = 0 ->
           routedTo r = to_product /\ category r = ambiguous)
       /\ (technicalScore <= businessScore -> routedTo r <> to_dev).
Proof.
  destruct (classify_tie_break exampleHost exampleTask "/srv" freshWorld eq_refl)
    as [Hreturns Hdecided].
  destruct (Hreturns exampleHost_logsReady) as (r & w' & Hrun).
  exists r, w'. split; [exact Hrun|]. exact (Hdecided r w' Hrun).
Defined.

Lemma qa_always_passes_witness :
  exists report w',
    MockQa.execute exampleHost exampleSpec failedOutput "agent-qa-1" "/srv" freshWorld
    = (Js.Return report, w')
    /\ verdict report = pass
    /\ map requirementId (requirementResults report) = ["REQ-001"; "REQ-002"]
    /\ Forall (fun r => rr_status r = pass) (requirementResults report)
    /\ map constraintId (constraintResults report) = ["CON-001"]
    /\ Forall (fun r => cr_status r = pass) (constraintResults report)
    /\ scopeViolations report = []
    /\ totalRequirements (summary report) = 2
    /\ passedRequirements (summary report) = 2
    /\ failedRequirements (summary report) = 0
    /\ violatedConstraints (summary report) = 0
    /\ scopeViolationCount (summary report) = 0.
Proof.
  destruct (qa_always_passes exampleHost exampleSpec failedOutput "agent-qa-1" "/srv"
              freshWorld) as [Hreturns Hreport].
  destruct (Hreturns exampleHost_logsReady) as (report & w' & Hrun).
  destruct (Hreport report w' Hrun)
    as (Hv & Hreq & Hreqs & Hcon & Hcons & Hsv & Ht & Hp & Hf & Hvc & Hsc & _).
  exists report, w'. repeat split; assumption.
Defined.

(* ------------------------------------------------------------------------- *)
(** ** The response parser: outcomes *)
(* ------------------------------------------------------------------------- *)

Section ParserOutcomes.
Import Parser.
Context (JSON_parse : string -> option Json).

Lemma orElse_null (a b : Json) : a ?? b = JNull <-> a = JNull /\ b = JNull.
Proof. destruct a; simpl; split; intros H; try discriminate; by intuition. Qed.

(** When the trimmed input is valid JSON for a value other than [null]
    and the validator accepts that value, [parseJSON] succeeds with it,
    and it is strategy 1 that produced it; and [parseJSON] answers
    [invalid_json] only when each of the three strategies came back with
    [null]. *)
Theorem parseJSON_direct (raw : string) (validate : Json -> Js.Outcome bool) :
  (forall v,
     JSON_parse (Js.trim raw) = Some v -> v <> JNull -> validate v = Js.Return true ->
     tryDirectParse JSON_parse (Js.trim raw) = v
     /\ parseJSON JSON_parse raw validate = Js.Return (Success v))
  /\ (forall e,
        parseJSON JSON_parse raw validate = Js.Return (Failure e) ->
        kind e = invalid_json ->
        tryDirectParse JSON_parse (Js.trim raw) = JNull
        /\ tryCodeFenceParse JSON_parse (Js.trim raw) = JNull
        /\ tryBracketExtract JSON_parse (Js.trim raw) = JNull).
Proof.
  split.
  - intros v Hp Hv Hval.
    assert (Hd : tryDirectParse JSON_parse (Js.trim raw) = v)
      by (unfold tryDirectParse; by rewrite Hp).
    split; [done|]. unfold parseJSON. rewrite Hd.
    destruct v; try done; simpl; by rewrite Hval.
  - intros e. unfold parseJSON.
    destruct (_ ?? _ ?? _) eqn:Hparsed;
      try (destruct (validate _) as [[]|]; simpl; intros [= <-]; simpl; discriminate).
    intros _ _. apply orElse_null in Hparsed as [H12 H3].
    apply orElse_null in H12 as [H1 H2]. done.
Qed.

(** The four ways [parseJSON] can end, by the value the three strategies
    leave and by what the validator does with it. *)
Lemma parseJSON_cases (raw : string) (validate : Json -> Js.Outcome bool) :
  let parsed :=
    tryDirectParse JSON_parse (Js.trim raw) ?? tryCodeFenceParse JSON_parse (Js.trim raw)
      ?? tryBracketExtract JSON_parse (Js.trim raw) in
  (parsed = JNull
   /\ exists m, parseJSON JSON_parse raw validate
                = Js.Return (Failure {| raw := raw; message := m; kind := invalid_json |}))
  \/ (parsed <> JNull /\ validate parsed = Js.Return false
      /\ exists m, parseJSON JSON_parse raw validate
                   = Js.Return (Failure {| raw := raw; message := m;
                                           kind := schema_mismatch |}))
  \/ (parsed <> JNull /\ validate parsed = Js.Return true
      /\ parseJSON JSON_parse raw validate = Js.Return (Success parsed))
  \/ (parsed <> JNull
      /\ exists e, validate parsed = Js.Throw e
                   /\ parseJSON JSON_parse raw validate = Js.Throw e).
Proof.
  intros parsed. unfold parseJSON. fold parsed.
  destruct parsed eqn:Hp; [left; split; [done|by eexists]|..];
    (destruct (validate _) as [[]|e] eqn:Hv; simpl;
     [ right; right; left; done
     | right; left; repeat split; [done|by eexists]
     | right; right; right; split; [done|by exists e] ]).
Qed.

End ParserOutcomes.

(** C4. On the text [null] between two spaces, whose trimmed form is
    valid JSON, and with a validator that accepts every value,
    [parseJSON] does not return the parsed value: it answers
    [invalid_json], with the message that no valid JSON could be
    extracted. Strategy 1 reports failure by the very value [null]; the
    other values a condition takes for false, [false], [0] and the empty
    string, are returned. *)
Theorem parseJSON_null_not_returned :
  JSON.parse (Js.trim " null ") = Some JNull
  /\ Parser.parseJSON JSON.parse " null " (fun _ => Js.Return true)
     = Js.Return
         (Parser.Failure
            {| Parser.raw := " null ";
               Parser.message := "Failed to extract valid JSON from LLM response.";
               Parser.kind := Parser.invalid_json |})
  /\ Parser.parseJSON JSON.parse " false " (fun _ => Js.Return true)
     = Js.Return (Parser.Success (JBool false))
  /\ Parser.parseJSON JSON.parse " 0 " (fun _ => Js.Return true)
     = Js.Return (Parser.Success (JInt 0))
  /\ Parser.parseJSON JSON.parse (" " ++ Js.dq ++ Js.dq ++ " ") (fun _ => Js.Return true)
     = Js.Return (Parser.Success (JStr EmptyString)).
Proof. repeat split; vm_compute; reflexivity. Qed.

Lemma parseJSON_direct_witness :
  Parser.tryDirectParse JSON.parse (Js.trim (" " ++ braceInString ++ Js.nl))
  = JObj [("note", JStr "use } to close")]
  /\ Parser.parseJSON JSON.parse (" " ++ braceInString ++ Js.nl) (fun _ => Js.Return true)
     = Js.Return (Parser.Success (JObj [("note", JStr "use } to close")])).
Proof.
  apply (proj1 (parseJSON_direct JSON.parse (" " ++ braceInString ++ Js.nl)
                                 (fun _ => Js.Return true))).
  - vm_compute. reflexivity.
  - discriminate.
  - reflexivity.
Defined.

(** C6. [parseJSON] does not keep to its three outcomes. On the text
    [null], strategy 1 extracts a value, and whatever the validator does
    with a value, accept it, reject it or throw, the answer is
    [invalid_json], never [schema_mismatch] and never success. And what a
    validator throws on an extracted value leaves [parseJSON] as an
    exception: the call of the validator stands outside every [try]. *)
Theorem parseJSON_outcomes_at_null :
  JSON.parse "null" = Some JNull
  /\ (forall validate : Json -> Js.Outcome bool,
        Parser.parseJSON JSON.parse "null" validate
        = Js.Return
            (Parser.Failure
               {| Parser.raw := "null";
                  Parser.message := "Failed to extract valid JSON from LLM response.";
                  Parser.kind := Parser.invalid_json |}))
  /\ (forall e : Js.Exn,
        Parser.parseJSON JSON.parse "{}" (fun _ => Js.Throw e) = Js.Throw e).
Proof.
  split; [vm_compute; reflexivity|]. split.
  - intros validate. vm_compute. reflexivity.
  - intros e. vm_compute. reflexivity.
Qed.

(* ------------------------------------------------------------------------- *)
(** ** The response parser: bracket scanning *)
(* ------------------------------------------------------------------------- *)

Section BracketScan.
Import Parser Lexical.
Local Abbreviation len := Js.len.

Local Open Scope Z_scope.

Lemma len_cons (c : ascii) (s : string) : len (String c s) = 1 + len s.
Proof. unfold len. simpl. lia. Qed.

Lemma len_append (a b : string) : len (a ++ b) = len a + len b.
Proof. unfold len. rewrite length_append. lia. Qed.

Lemma len_nonneg (s : string) : 0 <= len s.
Proof. unfold len. lia. Qed.

Lemma to_nat_len (s : string) : Z.to_nat (len s) = String.length s.
Proof. unfold len. lia. Qed.

Lemma str_append (c : ascii) (s : string) : (Js.str c ++ s)%string = String c s.
Proof. reflexivity. Qed.

Lemma eqb_false (a b : ascii) : a <> b -> Ascii.eqb a b = false.
Proof. by intros H; apply Ascii.eqb_neq. Qed.

Section Scanner.
Context (open close : ascii).
Hypothesis open_not_close : open <> close.
Hypothesis open_not_quote : open <> Js.DQUOTE.
Hypothesis open_not_backslash : open <> Js.BACKSLASH.
Hypothesis close_not_quote : close <> Js.DQUOTE.
Hypothesis close_not_backslash : close <> Js.BACKSLASH.

(** Inside a string literal the scanner runs to the closing quote and
    leaves the depth alone, whatever brackets it passes. *)
Lemma scan_quoted (q : string) :
  Quoted q ->
  forall rest i depth,
    scan open close (q ++ String Js.DQUOTE rest) i depth true false
    = scan open close rest (i + len q + 1) depth false false.
Proof.
  induction 1 as [|c s Hq Hb _ IH|e s _ IH]; intros rest i depth.
  - change (len EmptyString) with 0. rewrite Z.add_0_r. reflexivity.
  - rewrite append_cons, len_cons. simpl.
    rewrite (eqb_false c Js.BACKSLASH), (eqb_false c Js.DQUOTE) by done.
    rewrite IH. f_equal. lia.
  - rewrite !append_cons, !len_cons. simpl.
    rewrite IH. f_equal. lia.
Qed.

(** Balanced text outside string literals leaves the scanner where it
    was, at any depth above zero. *)
Lemma scan_balanced (a : string) :
  Balanced open close a ->
  forall rest i depth,
    0 < depth ->
    scan open close (a ++ rest) i depth false false
    = scan open close rest (i + len a) depth false false.
Proof.
  induction 1 as [|c s Hq Hb Ho Hc _ IH|q s Hq _ IH|b s _ IHb _ IHs];
    intros rest i depth Hd.
  - change (len EmptyString) with 0. by rewrite Z.add_0_r.
  - rewrite append_cons, len_cons. simpl.
    rewrite (eqb_false c Js.BACKSLASH), (eqb_false c Js.DQUOTE),
      (eqb_false c open), (eqb_false c close) by done.
    destruct (Z.eqb_spec depth 0) as [->|_]; [lia|].
    rewrite IH by done. f_equal. lia.
  - unfold Js.dq. rewrite !str_append, !len_cons, !len_append, len_cons.
    rewrite append_cons, append_assoc, append_cons. simpl.
    rewrite scan_quoted by done. rewrite IH by done. f_equal. lia.
  - rewrite !str_append, !len_cons, !len_append, len_cons.
    rewrite append_cons, append_assoc, append_cons. simpl.
    rewrite (eqb_false open Js.BACKSLASH), (eqb_false open Js.DQUOTE),
      Ascii.eqb_refl, (eqb_false open close) by done.
    destruct (Z.eqb_spec (depth + 1) 0) as [?|_]; [lia|].
    rewrite IHb by lia. simpl.
    rewrite (eqb_false close Js.BACKSLASH), (eqb_false close Js.DQUOTE),
      (eqb_false close open), Ascii.eqb_refl by done.
    replace (depth + 1 - 1) with depth by lia.
    destruct (Z.eqb_spec depth 0) as [?|_]; [lia|].
    rewrite IHs by done. f_equal. lia.
Qed.

(** From an opening bracket at depth zero the scanner stops on the
    bracket that closes it. *)
Lemma scan_block (b post : string) (i : Z) :
  Balanced open close b ->
  scan open close (String open (b ++ String close post)) i 0 false false
  = Some (i + len b + 1).
Proof.
  intros Hb. simpl.
  rewrite (eqb_false open Js.BACKSLASH), (eqb_false open Js.DQUOTE),
    Ascii.eqb_refl, (eqb_false open close) by done.
  simpl. rewrite scan_balanced by (done || lia). simpl.
  rewrite (eqb_false close Js.BACKSLASH), (eqb_false close Js.DQUOTE),
    (eqb_false close open), Ascii.eqb_refl by done.
  simpl. f_equal. lia.
Qed.

End Scanner.


(** *** Where the scan starts *)

Lemma indexOfFrom_range (c : ascii) (s : string) (i : Z) :
  0 <= i -> Js.indexOfFrom c s i = -1 \/ i <= Js.indexOfFrom c s i.
Proof.
  revert i. induction s as [|d s IH]; intros i Hi; simpl; [by left|].
  destruct (Ascii.eqb d c); [right; lia|].
  destruct (IH (i + 1)) as [->|?]; [lia|by left|right; lia].
Qed.

Lemma indexOfFrom_append (c : ascii) (pre rest : string) (i : Z) :
  0 <= i -> Js.indexOfFrom c pre i = -1 ->
  Js.indexOfFrom c (pre ++ rest) i = Js.indexOfFrom c rest (i + len pre).
Proof.
  revert i. induction pre as [|d pre IH]; intros i Hi Habs.
  - change (len EmptyString) with 0. by rewrite Z.add_0_r.
  - rewrite append_cons, len_cons. simpl in *.
    destruct (Ascii.eqb d c); [lia|].
    rewrite IH by (done || lia). f_equal. lia.
Qed.

(** *** From the grammar to what the scanner sees *)

Lemma every_append (p : ascii -> bool) (a b : string) :
  every p (a ++ b) = every p a && every p b.
Proof.
  induction a as [|x a IH]; [done|]. rewrite append_cons. simpl.
  by rewrite IH, andb_assoc.
Qed.

Lemma every_impl (p q : ascii -> bool) (s : string) :
  (forall c, p c = true -> q c = true) -> every p s = true -> every q s = true.
Proof.
  intros Hpq. induction s as [|x s IH]; simpl; [done|].
  intros [Hx Hs]%andb_true_iff. rewrite (Hpq x Hx). by apply IH.
Qed.

Lemma Balanced_every_plain (s : string) :
  every plain s = true -> Balanced "{" "}" s.
Proof.
  induction s as [|c s IH]; simpl; [constructor|].
  unfold plain at 1. rewrite !andb_true_iff, !negb_true_iff.
  intros [[[[Hq Hb] Ho] Hc] Hs].
  apply Ascii.eqb_neq in Hq, Hb, Ho, Hc. constructor; auto.
Qed.

Lemma Balanced_append (o c : ascii) (a b : string) :
  Balanced o c a -> Balanced o c b -> Balanced o c (a ++ b).
Proof.
  induction 1 as [|x s ? ? ? ? _ IH|q s ? _ IH|n s Hn _ _ IH]; intros Hb.
  - done.
  - rewrite append_cons. apply Balanced_plain; auto.
  - rewrite !append_assoc. apply Balanced_string; auto.
  - rewrite !append_assoc. apply Balanced_nested; auto.
Qed.

Lemma isHex_unquoted (h : ascii) :
  Grammar.isHex h = true -> h <> Js.DQUOTE /\ h <> Js.BACKSLASH.
Proof. split; intros ->; discriminate. Qed.

Lemma Chars_Quoted (cs : string) : Grammar.Chars cs -> Quoted cs.
Proof.
  induction 1 as [|c s ? ? ? _ IH|e s ? _ IH|h1 h2 h3 h4 s H1 H2 H3 H4 _ IH].
  - apply Quoted_nil.
  - by apply Quoted_char.
  - by apply Quoted_escape.
  - apply isHex_unquoted in H1 as [], H2 as [], H3 as [], H4 as [].
    apply Quoted_escape. by repeat (apply Quoted_char; [done|done|]).
Qed.

Lemma isWs_plain (c : ascii) : JSON.isWs c = true -> plain c = true.
Proof.
  unfold JSON.isWs. rewrite !orb_true_iff, !Nat.eqb_eq.
  intros H. rewrite <- (ascii_nat_embedding c).
  by destruct H as [[[-> | ->] | ->] | ->].
Qed.

Lemma isDigit_plain (c : ascii) : Grammar.isDigit c = true -> plain c = true.
Proof.
  unfold Grammar.isDigit. rewrite andb_true_iff, !Nat.leb_le.
  intros [Hlo Hhi]. rewrite <- (ascii_nat_embedding c).
  assert (H : In (nat_of_ascii c) (seq 48 10)) by (apply in_seq; lia).
  simpl in H. by repeat destruct H as [<- | H].
Qed.

Lemma Ws_plain (w : string) : Grammar.Ws w -> every plain w = true.
Proof. apply every_impl, isWs_plain. Qed.

Lemma Digits_plain (ds : string) : Grammar.Digits ds -> every plain ds = true.
Proof. intros [_ H]. revert H. apply every_impl, isDigit_plain. Qed.

Lemma Number_plain (s : string) : Grammar.Number s -> every plain s = true.
Proof.
  intros (sign & int & frac & exp & -> & Hsign & Hint & _ & Hfrac & Hexp).
  rewrite !every_append, !andb_true_iff. repeat split.
  - by destruct Hsign as [-> | ->].
  - by apply Digits_plain.
  - destruct Hfrac as [-> | (ds & -> & Hds)]; [done|].
    rewrite every_append, (Digits_plain ds) by done. done.
  - destruct Hexp as [-> | (e & sgn & ds & -> & He & Hsgn & Hds)]; [done|].
    rewrite !every_append, (Digits_plain ds) by done.
    by destruct He as [-> | ->], Hsgn as [-> | [-> | ->]].
Qed.

Lemma Balanced_quoted (q s : string) :
  Quoted q -> Balanced "{" "}" s -> Balanced "{" "}" (String Js.DQUOTE (q ++ String Js.DQUOTE s)).
Proof. intros Hq Hs. by apply (Balanced_string "{" "}" q s). Qed.

Lemma Balanced_braces (b s : string) :
  Balanced "{" "}" b -> Balanced "{" "}" s -> Balanced "{" "}" (String "{" (b ++ String "}" s)).
Proof. intros Hb Hs. by apply (Balanced_nested "{" "}" b s). Qed.

(** Every text of the grammar is balanced in its braces, with its quotes
    closed. *)
Lemma Text_Balanced (cat : Grammar.Category) (s : string) :
  Grammar.Text cat s -> Balanced "{" "}" s.
Proof.
  induction 1;
    repeat match goal with
           | H : Grammar.Ws _ |- _ => apply Ws_plain, Balanced_every_plain in H
           | H : Grammar.Chars _ |- _ => apply Chars_Quoted in H
           | H : Grammar.Number _ |- _ => apply Number_plain, Balanced_every_plain in H
           end;
    try (by apply Balanced_every_plain); try done;
    unfold Js.dq; rewrite ?str_append;
    repeat first
      [ assumption
      | apply Balanced_nil
      | apply Balanced_quoted; [assumption|]
      | apply Balanced_braces; [assumption|]
      | apply Balanced_append; [assumption|]
      | apply Balanced_plain; [discriminate..|] ].
Qed.

Lemma Object_Balanced (obj : string) :
  Grammar.Object obj ->
  exists inner, obj = String "{" (inner ++ String "}" EmptyString)
                /\ Balanced "{" "}" inner.
Proof.
  intros (inner & -> & H). exists inner. split; [done|].
  destruct H as [Hw | Hm].
  - by apply Balanced_every_plain, Ws_plain.
  - by apply Text_Balanced in Hm.
Qed.


(** The slice from an opening brace to the brace that closes it. *)
Lemma slice_block (pre inner post : string) :
  Js.slice (pre ++ String "{" (inner ++ String "}" post))%string
           (len pre) (len pre + len inner + 1 + 1)
  = String "{" (inner ++ String "}" EmptyString).
Proof.
  unfold Js.slice. rewrite to_nat_len, drop_append.
  replace (Z.to_nat (len pre + len inner + 1 + 1 - len pre))
    with (String.length (String "{" (inner ++ String "}" EmptyString)))
    by (simpl; rewrite length_append; unfold len; simpl; lia).
  replace (String "{" (inner ++ String "}" post))
    with ((String "{" (inner ++ String "}" EmptyString)) ++ post)%string
    by (by rewrite append_cons, append_assoc).
  by rewrite take_append.
Qed.

(** *** Strategy 3 on a text that holds a JSON object *)

(** C5. Let a text hold a serialized JSON object, with no brace and no
    bracket before it. Then strategy 3 parses exactly the characters of
    that object, from its opening brace to the brace that closes it:
    braces inside its string values, escaped quotes, and whatever follows
    the object leave the result unchanged. *)
Theorem tryBracketExtract_object (JSON_parse : string -> option Json)
        (pre obj post : string) :
  Js.indexOf "{" pre = -1 ->
  Js.indexOf "[" pre = -1 ->
  Grammar.Object obj ->
  tryBracketExtract JSON_parse (pre ++ obj ++ post)%string
  = tryDirectParse JSON_parse obj.
Proof.
  intros Hobj Harr (inner & -> & Hinner)%Object_Balanced.
  pose proof (len_nonneg pre) as Hpre.
  unfold tryBracketExtract, Js.indexOf in *.
  rewrite !append_cons.
  rewrite (indexOfFrom_append "{" pre), (indexOfFrom_append "[" pre) by done.
  rewrite Z.add_0_l. simpl Js.indexOfFrom.
  set (startArr := Js.indexOfFrom "[" _ _).
  assert (Harr' : startArr = -1 \/ len pre + 1 <= startArr)
    by (apply indexOfFrom_range; lia).
  assert (Hnone : (len pre =? -1) = false) by (apply Z.eqb_neq; lia).
  assert (Hfirst : (startArr =? -1) || (negb (len pre =? -1) && (len pre <? startArr))
                   = true).
  { rewrite Hnone. destruct Harr' as [-> | ?]; [done|].
    apply orb_true_iff. right. apply Z.ltb_lt. lia. }
  rewrite Hfirst, Hnone. simpl andb. cbv iota beta.
  rewrite to_nat_len, drop_append.
  rewrite append_assoc, append_cons, append_nil_l.
  rewrite (scan_block "{" "}") by done.
  by rewrite slice_block.
Qed.

End BracketScan.

Lemma braceInString_Object : Grammar.Object braceInString.
Proof.
  exists (Js.dq ++ "note" ++ Js.dq ++ ": " ++ Js.dq ++ "use } to close" ++ Js.dq).
  split; [reflexivity|]. right.
  apply (Grammar.T_member EmptyString "note" EmptyString " "
           (Js.dq ++ "use } to close" ++ Js.dq) EmptyString);
    try reflexivity.
  - repeat first [apply Grammar.Chars_nil
                 | apply Grammar.Chars_plain; [discriminate|discriminate|reflexivity|]].
  - apply Grammar.T_string.
    repeat first [apply Grammar.Chars_nil
                 | apply Grammar.Chars_plain; [discriminate|discriminate|reflexivity|]].
Defined.

Lemma tryBracketExtract_object_witness :
  Parser.tryBracketExtract JSON.parse exampleReply
  = Parser.tryDirectParse JSON.parse braceInString.
Proof.
  apply (tryBracketExtract_object JSON.parse
           "Here is the result: " braceInString " Let me know.").
  - reflexivity.
  - reflexivity.
  - exact braceInString_Object.
Defined.

(** On the example, strategy 3 gives the object, closing brace of the
    string value included. *)
Example tryBracketExtract_exampleReply :
  Parser.tryBracketExtract JSON.parse exampleReply
  = JObj [("note", JStr "use } to close")].
Proof. vm_compute. reflexivity. Qed.


(* ------------------------------------------------------------------------- *)
(** ** The orchestrator and its audit trail *)
(* ------------------------------------------------------------------------- *)

Section AuditTrail.
Local Open Scope list_scope.
Context (host : Host).

(** *** Rules for [emits] *)

Lemma emits_ret {F : Js.Exn -> Prop} {A} (a : A) (Q : A -> list AuditEvent -> Prop) :
  Q a [] -> emits F (Eff.ret a) Q.
Proof.
  intros HQ w. simpl. exists []. by rewrite app_nil_r.
Qed.

Lemma emits_bind {F : Js.Exn -> Prop} {A B} (m : Eff.t A) (k : A -> Eff.t B)
      (P : A -> list AuditEvent -> Prop) (Q : B -> list AuditEvent -> Prop) :
  emits F m P ->
  (forall a evs, P a evs -> emits F (k a) (fun b evs' => Q b (evs ++ evs'))) ->
  emits F (Eff.bind m k) Q.
Proof.
  intros Hm Hk w. specialize (Hm w). unfold Eff.bind.
  destruct (m w) as [[a|e] w1]; [|done].
  destruct Hm as (evs & Haudit & HP). specialize (Hk a evs HP w1).
  destruct (k a w1) as [[b|e] w2]; [|done].
  destruct Hk as (evs' & Haudit' & HQ).
  exists (evs ++ evs'). split; [|done]. by rewrite Haudit', Haudit, app_assoc.
Qed.

Lemma emits_mono {F : Js.Exn -> Prop} {A} (m : Eff.t A)
      (P Q : A -> list AuditEvent -> Prop) :
  emits F m P -> (forall a evs, P a evs -> Q a evs) -> emits F m Q.
Proof.
  intros Hm HPQ w. specialize (Hm w). destruct (m w) as [[a|e] w']; [|done].
  destruct Hm as (evs & Haudit & HP). exists evs. auto.
Qed.

Lemma emits_observe {F : Js.Exn -> Prop} {A} (f : nat -> A) :
  emits F (Eff.observe f) (fun _ evs => evs = []).
Proof. intros w. simpl. exists []. by rewrite app_nil_r. Qed.

Lemma emits_emit {F : Js.Exn -> Prop} (e : AuditEvent) :
  emits F (Eff.emit e) (fun _ evs => evs = [e]).
Proof. intros w. simpl. by exists [e]. Qed.

(** A computation that returns satisfies what [emits] says of its
    value. *)
Lemma emits_returned {F : Js.Exn -> Prop} {A} (m : Eff.t A)
      (Q : A -> list AuditEvent -> Prop) (w w' : World) (a : A) :
  emits F m Q -> m w = (Js.Return a, w') ->
  exists evs, audit w' = audit w ++ evs /\ Q a evs.
Proof. intros Hm Hrun. specialize (Hm w). by rewrite Hrun in Hm. Qed.

(** *** The host and the logger *)

Lemma emits_now {F : Js.Exn -> Prop} : emits F (Node.now host) (fun _ evs => evs = []).
Proof. apply emits_observe. Qed.

Lemma emits_isoNow {F : Js.Exn -> Prop} :
  emits F (Node.isoNow host) (fun _ evs => evs = []).
Proof.
  eapply emits_bind; [apply emits_now|]. intros ms evs ->.
  by apply emits_ret.
Qed.

Lemma emits_randomHex {F : Js.Exn -> Prop} (n : nat) :
  emits F (Node.randomHex host n) (fun _ evs => evs = []).
Proof.
  induction n as [|n IH]; simpl; [by apply emits_ret|].
  eapply emits_bind; [apply emits_observe|]. intros b evs ->.
  eapply emits_bind; [apply IH|]. intros rest evs ->.
  by apply emits_ret.
Qed.

(** Making sure of the logs directory writes no record. *)
Lemma emits_ensureLogsDir (projectRoot : string) :
  emits (logsFailure host projectRoot)
        (Logger.ensureLogsDir host projectRoot)
        (fun _ evs => evs = []).
Proof.
  intros w. destruct (ensureLogsDir_cases host projectRoot) as [Hr|[message Hf]].
  - rewrite Hr. exists []. by rewrite app_nil_r.
  - by rewrite Hf.
Qed.

(** [logEvent] adds one record, with the type, agent, task and payload
    of the event it was given. *)
Lemma emits_logEvent (e : AuditEvent) (projectRoot : string) :
  emits (logsFailure host projectRoot)
        (Logger.logEvent host e projectRoot)
        (fun _ evs => exists e', evs = [e'] /\ shape e' = shape e
                                 /\ data e' = data e /\ ev_taskId e' = ev_taskId e).
Proof.
  unfold Logger.logEvent.
  eapply emits_bind; [apply emits_ensureLogsDir|]. cbv beta. intros _ ? ->.
  eapply emits_bind with (P := fun _ evs => evs = []).
  - destruct (timestamp e); [apply emits_isoNow|by apply emits_ret].
  - intros ts evs ->. eapply emits_mono; [apply emits_emit|].
    intros _ evs ->. by eexists.
Qed.

(** *** The stages *)

Tactic Notation "step" uconstr(lemma) :=
  eapply emits_bind; [apply lemma|]; cbv beta.

Lemma emits_generateAgentId {F : Js.Exn -> Prop} (role : string) :
  emits F (Orchestrator.generateAgentId host role)
        (fun id evs => evs = [] /\ exists rest, id = (role ++ rest)%string).
Proof.
  unfold Orchestrator.generateAgentId.
  step emits_randomHex. intros suffix ? ->.
  step emits_now. intros ms ? ->.
  apply emits_ret. split; [done|]. by eexists.
Qed.

Lemma emits_generateSpecId {F : Js.Exn -> Prop} :
  emits F (Orchestrator.generateSpecId host) (fun _ evs => evs = []).
Proof.
  unfold Orchestrator.generateSpecId.
  step emits_randomHex. intros suffix ? ->.
  step emits_now. intros ms ? ->.
  by apply emits_ret.
Qed.

Lemma emits_logSpawn (taskId agentId role projectRoot : string) :
  emits (logsFailure host projectRoot)
        (Orchestrator.logSpawn host taskId agentId role projectRoot)
        (fun _ evs => map shape evs = [("agent_spawned", Some agentId)]).
Proof.
  unfold Orchestrator.logSpawn.
  step emits_isoNow. intros ts ? ->.
  eapply emits_mono; [apply emits_logEvent|].
  intros _ evs (e & -> & Hs & _). simpl. by rewrite Hs.
Qed.

Lemma emits_logDestroy (taskId agentId role projectRoot : string) :
  emits (logsFailure host projectRoot)
        (Orchestrator.logDestroy host taskId agentId role projectRoot)
        (fun _ evs => map shape evs = [("agent_destroyed", Some agentId)]).
Proof.
  unfold Orchestrator.logDestroy.
  step emits_isoNow. intros ts ? ->.
  eapply emits_mono; [apply emits_logEvent|].
  intros _ evs (e & -> & Hs & _). simpl. by rewrite Hs.
Qed.

Lemma emits_classify (task : Task) (projectRoot : string) :
  emits (logsFailure host projectRoot)
        (Coordinator.classify host task projectRoot)
        (fun _ evs => map shape evs = [("classification", None)]).
Proof.
  unfold Coordinator.classify. destruct (type task) as [ty|].
  - step emits_isoNow. intros ts ? ->.
    step emits_logEvent. intros _ evs (e & -> & Hs & _).
    apply emits_ret. simpl. by rewrite Hs.
  - step emits_isoNow. intros ts ? ->.
    step emits_logEvent. intros _ evs (e & -> & Hs & _).
    apply emits_ret. simpl. by rewrite Hs.
Qed.

Lemma emits_product_generateSpecId {F : Js.Exn -> Prop} :
  emits F (MockProduct.generateSpecId host) (fun _ evs => evs = []).
Proof.
  unfold MockProduct.generateSpecId.
  step emits_randomHex. intros suffix ? ->.
  step emits_now. intros ms ? ->.
  by apply emits_ret.
Qed.

Lemma emits_buildInlineSpec {F : Js.Exn -> Prop} (task : Task) :
  emits F (Orchestrator.buildInlineSpec host task) (fun _ evs => evs = []).
Proof.
  unfold Orchestrator.buildInlineSpec.
  step emits_generateSpecId. intros id ? ->.
  by apply emits_ret.
Qed.

Lemma emits_product (task : Task) (c : ClassificationResult)
      (agentId projectRoot : string) :
  emits (logsFailure host projectRoot)
        (MockProduct.execute host task c agentId projectRoot)
        (fun _ evs => map shape evs = working agentId).
Proof.
  unfold MockProduct.execute.
  step emits_isoNow. intros ts ? ->.
  step emits_logEvent. intros _ ? (e1 & -> & Hs1 & _).
  step emits_product_generateSpecId. intros id ? ->.
  step emits_isoNow. intros ts' ? ->.
  step emits_logEvent. intros _ ? (e2 & -> & Hs2 & _).
  apply emits_ret. simpl. by rewrite Hs1, Hs2.
Qed.

Lemma emits_dev (spec : IntentSpec) (agentId projectRoot : string) :
  emits (logsFailure host projectRoot)
        (MockDev.execute host spec agentId projectRoot)
        (fun _ evs => map shape evs = working agentId).
Proof.
  unfold MockDev.execute.
  step emits_isoNow. intros ts ? ->.
  step emits_logEvent. intros _ ? (e1 & -> & Hs1 & _).
  step emits_isoNow. intros ts' ? ->.
  step emits_logEvent. intros _ ? (e2 & -> & Hs2 & _).
  apply emits_ret. simpl. by rewrite Hs1, Hs2.
Qed.

Lemma emits_qa (spec : IntentSpec) (d : DevOutput) (agentId projectRoot : string) :
  emits (logsFailure host projectRoot)
        (MockQa.execute host spec d agentId projectRoot)
        (fun _ evs => map shape evs = working agentId).
Proof.
  unfold MockQa.execute.
  step emits_isoNow. intros ts ? ->.
  step emits_logEvent. intros _ ? (e1 & -> & Hs1 & _).
  step emits_isoNow. intros ts' ? ->.
  step emits_logEvent. intros _ ? (e2 & -> & Hs2 & _).
  apply emits_ret. simpl. by rewrite Hs1, Hs2.
Qed.

(** The records between classification and execution: the product stage,
    or the note that it was skipped. *)
Lemma emits_intentSpec (task : Task) (c : ClassificationResult) (projectRoot : string) :
  emits (logsFailure host projectRoot)
    (match routedTo c with
     | to_product =>
         productId <~ Orchestrator.generateAgentId host "product" ;;
         Orchestrator.logSpawn host (taskId task) productId "product" projectRoot ;;;
         intentSpec <~ MockProduct.execute host task c productId projectRoot ;;
         Orchestrator.logDestroy host (taskId task) productId "product" projectRoot ;;;
         Eff.ret intentSpec
     | to_dev =>
         intentSpec <~ Orchestrator.buildInlineSpec host task ;;
         ts <~ Node.isoNow host ;;
         Logger.logEvent host
           {| timestamp := ts; ev_taskId := taskId task; eventType := "product_skipped";
              agentId := None;
              data := JObj
                [ ("reason", JStr "Classification routed directly to dev. Technical input does not require disambiguation.");
                  ("category", JStr (Category_toString (category c)));
                  ("ruleApplied", JStr (ruleApplied c));
                  ("inlineSpecId", JStr (specId intentSpec)) ] |}
           projectRoot ;;;
         Eff.ret intentSpec
     end)
    (fun _ evs =>
       match routedTo c with
       | to_product =>
           exists rest, map shape evs
                        = stage ("product" ++ rest)%string (working ("product" ++ rest)%string)
       | to_dev => map shape evs = [("product_skipped", None)]
       end).
Proof.
  destruct (routedTo c).
  - step emits_generateAgentId. intros productId ? [-> [rest ->]].
    step emits_logSpawn. intros _ evs1 H1.
    step emits_product. intros spec evs2 H2.
    step emits_logDestroy. intros _ evs3 H3.
    apply emits_ret. exists rest. simpl.
    rewrite app_nil_r, !map_app, H1, H2, H3. reflexivity.
  - step emits_buildInlineSpec. intros spec ? ->.
    step emits_isoNow. intros ts ? ->.
    step emits_logEvent. intros _ ? (e & -> & Hs & _).
    apply emits_ret. simpl. by rewrite Hs.
Qed.

(** The trail of one run. *)
Lemma emits_run (task : Task) (projectRoot : string) :
  emits (logsFailure host projectRoot)
        (Orchestrator.run host task projectRoot)
        (fun result evs =>
           exists c d q middle final,
             map shape evs
             = [("execution_start", None)]
                 ++ stage ("coordinator" ++ c)%string [("classification", None)]
                 ++ middle
                 ++ stage ("dev" ++ d)%string (working ("dev" ++ d)%string)
                 ++ stage ("qa" ++ q)%string (working ("qa" ++ q)%string)
                 ++ [("execution_end", None)]
             /\ (middle = [("product_skipped", None)]
                 \/ exists p, middle = stage ("product" ++ p)%string
                                             (working ("product" ++ p)%string))
             /\ last evs = Some final
             /\ data final
                = JObj [ ("verdict", JStr (Verdict_toString (verdict (validation result))));
                         ("summary", Summary_toJson (summary (validation result))) ]).
Proof.
  unfold Orchestrator.run.
  step emits_isoNow. intros ts ? ->.
  step emits_logEvent. intros _ ? (e0 & -> & Hs0 & _).
  step emits_generateAgentId. intros coordinatorId ? [-> [c ->]].
  step emits_logSpawn. intros _ evs1 H1.
  step emits_classify. intros classification evs2 H2.
  step emits_logDestroy. intros _ evs3 H3.
  step emits_intentSpec. intros intentSpec evs4 H4.
  step emits_generateAgentId. intros devId ? [-> [d ->]].
  step emits_logSpawn. intros _ evs5 H5.
  step emits_dev. intros devOutput evs6 H6.
  step emits_logDestroy. intros _ evs7 H7.
  step emits_generateAgentId. intros qaId ? [-> [q ->]].
  step emits_logSpawn. intros _ evs8 H8.
  step emits_qa. intros validation evs9 H9.
  step emits_logDestroy. intros _ evs10 H10.
  step emits_isoNow. intros ts' ? ->.
  step emits_logEvent. intros _ ? (e1 & -> & Hs1 & Hd1 & _).
  apply emits_ret.
  exists c, d, q, (map shape evs4), e1. split; [|split; [|split]].
  - simpl. rewrite ?app_nil_r, ?app_nil_l, !map_app. simpl.
    rewrite H1, H2, H3, H5, H6, H7, H8, H9, H10, Hs0, Hs1.
    unfold stage. simpl. reflexivity.
  - destruct (routedTo classification); [right|by left].
    destruct H4 as [p ->]. by exists p.
  - rewrite !app_assoc, app_nil_r. apply last_snoc.
  - by rewrite Hd1.
Qed.


(** *** Spawn and destroy records pair up *)

(** The record at position [k], for each [k] in turn. *)
Ltac each_position H k tac :=
  simpl in H;
  first [ discriminate H
        | destruct k as [|k]; [simpl in H; tac | each_position H k tac] ].

Ltac destroyed_at j :=
  exists j; split; [lia|]; split; [reflexivity|];
  let k := fresh "k" in
  let Hk := fresh "Hk" in
  intros k Hk;
  each_position Hk k ltac:(first [reflexivity | discriminate Hk | congruence]).

Ltac paired :=
  let i := fresh "i" in
  let id := fresh "id" in
  let Hi := fresh "Hi" in
  intros i id Hi;
  each_position Hi i
    ltac:(first [ discriminate Hi
                | injection Hi as <-;
                  first [ destroyed_at 3 | destroyed_at 7 | destroyed_at 8
                        | destroyed_at 11 | destroyed_at 12 | destroyed_at 15 ] ]).

Lemma pairedUp_skipped (cid did qid : string) :
  cid <> did -> cid <> qid -> did <> qid ->
  pairedUp ([("execution_start", None)]
              ++ stage cid [("classification", None)]
              ++ [("product_skipped", None)]
              ++ stage did (working did)
              ++ stage qid (working qid)
              ++ [("execution_end", None)]).
Proof. intros ? ? ?. unfold stage, working. simpl. paired. Qed.

Lemma pairedUp_product (cid pid did qid : string) :
  cid <> pid -> cid <> did -> cid <> qid -> pid <> did -> pid <> qid -> did <> qid ->
  pairedUp ([("execution_start", None)]
              ++ stage cid [("classification", None)]
              ++ stage pid (working pid)
              ++ stage did (working did)
              ++ stage qid (working qid)
              ++ [("execution_end", None)]).
Proof. intros ? ? ? ? ? ?. unfold stage, working. simpl. paired. Qed.


Lemma shape_lookup (evs : list AuditEvent) (i : nat) (ty id : string) :
  (exists e, evs !! i = Some e /\ eventType e = ty /\ agentId e = Some id)
  <-> map shape evs !! i = Some (ty, Some id).
Proof.
  change (map shape evs) with (shape <$> evs). rewrite list_lookup_fmap.
  destruct (evs !! i) as [e|]; simpl; split.
  - intros (e' & [= <-] & <- & Hid). unfold shape. by rewrite Hid.
  - intros [= <- Hid]. by exists e.
  - by intros (e' & ? & _).
  - done.
Qed.

(** The identifiers of the four roles differ in their first letter. *)
Lemma role_ids_distinct (c p d q : string) :
  let cid := ("coordinator" ++ c)%string in
  let pid := ("product" ++ p)%string in
  let did := ("dev" ++ d)%string in
  let qid := ("qa" ++ q)%string in
  cid <> pid /\ cid <> did /\ cid <> qid /\ pid <> did /\ pid <> qid /\ did <> qid.
Proof. repeat split; intros H; vm_compute in H; discriminate H. Qed.

(** A computation that throws nothing but the failure of the logs
    directory returns when that directory is there or can be made. *)
Lemma emits_ready {A} (projectRoot : string) (m : Eff.t A)
      (Q : A -> list AuditEvent -> Prop) (w : World) :
  emits (logsFailure host projectRoot) m Q -> logsReady host projectRoot ->
  exists a w', m w = (Js.Return a, w').
Proof.
  intros Hm Hready. specialize (Hm w). destruct (m w) as [[a|e] w'].
  - by exists a, w'.
  - destruct (logs_exclusive host projectRoot e Hready Hm).
Qed.

(** C7. A run of the orchestrator completes when the logs directory is
    there or can be made. The records that a completed run has added to
    the audit trail begin with [execution_start] and end with
    [execution_end], which carries the verdict and the summary of the
    validation; and each [agent_spawned] record is followed, later in the
    trail, by an [agent_destroyed] record for the same agent, the only
    one for that agent in the run. *)
Theorem run_audit_order (task : Task) (projectRoot : string) (w : World) :
  (logsReady host projectRoot ->
   exists result w', Orchestrator.run host task projectRoot w = (Js.Return result, w'))
  /\ forall result w',
       Orchestrator.run host task projectRoot w = (Js.Return result, w') ->
       exists evs,
         audit w' = audit w ++ evs
         /\ (exists first, evs !! 0 = Some first /\ eventType first = "execution_start")
         /\ (exists final,
               last evs = Some final /\ eventType final = "execution_end"
               /\ data final
                  = JObj [ ("verdict",
                            JStr (Verdict_toString (verdict (validation result))));
                           ("summary", Summary_toJson (summary (validation result))) ])
         /\ (forall i id,
               spawnedAt evs i id ->
               exists j, i < j /\ destroyedAt evs j id
                         /\ forall k, destroyedAt evs k id -> k = j).
Proof.
  split; [by apply (emits_ready projectRoot _ _ w (emits_run task projectRoot))|].
  intros result w' Hrun.
  destruct (emits_returned _ _ w w' result (emits_run task projectRoot) Hrun)
    as (evs & Haudit & c & d & q & middle & final & Hshape & Hmiddle & Hlast & Hdata).
  exists evs. split; [done|].
  assert (Hpaired : pairedUp (map shape evs)).
  { rewrite Hshape.
    destruct Hmiddle as [-> | [p ->]].
    - destruct (role_ids_distinct c EmptyString d q) as (_ & ? & ? & _ & _ & ?).
      by apply pairedUp_skipped.
    - destruct (role_ids_distinct c p d q) as (? & ? & ? & ? & ? & ?).
      by apply pairedUp_product. }
  split; [|split].
  - destruct evs as [|first evs]; [discriminate Hshape|].
    exists first. split; [done|].
    simpl in Hshape. injection Hshape as Hty _ _. exact Hty.
  - exists final. split; [done|]. split; [|done].
    assert (H : last (shape <$> evs) = Some ("execution_end", None)).
    { change (shape <$> evs) with (map shape evs). rewrite Hshape.
      rewrite !app_assoc. apply last_snoc. }
    rewrite fmap_last, Hlast in H. simpl in H. injection H as Hty _. exact Hty.
  - unfold spawnedAt, destroyedAt. intros i id Hi%shape_lookup.
    destruct (Hpaired i id Hi) as (j & Hij & Hj & Hk).
    exists j. split; [done|]. split; [by apply shape_lookup|].
    intros k Hk'%shape_lookup. by apply Hk.
Qed.

End AuditTrail.

Lemma run_audit_order_witness :
  exists result w' evs,
    Orchestrator.run exampleHost exampleTask "/srv" freshWorld = (Js.Return result, w')
    /\ audit w' = (audit freshWorld ++ evs)%list
    /\ (exists first, evs !! 0 = Some first /\ eventType first = "execution_start")
    /\ (exists final,
          last evs = Some final /\ eventType final = "execution_end"
          /\ data final
             = JObj [ ("verdict", JStr (Verdict_toString (verdict (validation result))));
                      ("summary", Summary_toJson (summary (validation result))) ])
    /\ (forall i id,
          spawnedAt evs i id ->
          exists j, i < j /\ destroyedAt evs j id
                    /\ forall k, destroyedAt evs k id -> k = j).
Proof.
  destruct (run_audit_order exampleHost exampleTask "/srv" freshWorld)
    as [Hcompletes Htrail].
  destruct (Hcompletes exampleHost_logsReady) as (result & w' & Hrun).
  destruct (Htrail result w' Hrun) as (evs & Hevs).
  exists result, w', evs. split; [exact Hrun|]. exact Hevs.
Defined.

(* ========================================================================= *)
(** * Further properties of the kernel *)
(* ========================================================================= *)

(* ------------------------------------------------------------------------- *)
(** ** The tool filter *)
(* ------------------------------------------------------------------------- *)

Section ToolFilter.
Import Manifests Runtime.

Lemma filterM_Return_filter {A} (p : A -> Js.Outcome bool) (q : A -> bool) (l r : list A) :
  (forall x b, p x = Js.Return b -> b = q x) ->
  Js.filterM p l = Js.Return r -> r = List.filter q l.
Proof.
  intros Hpq. revert r. induction l as [|x l IH]; intros r H; simpl in H.
  - by injection H as <-.
  - destruct (p x) as [keep|e] eqn:Hp; simpl in H; [|discriminate].
    destruct (Js.filterM p l) as [rest|e] eqn:Hl; simpl in H; [|discriminate].
    injection H as <-. simpl. rewrite <- (Hpq x keep Hp), (IH rest eq_refl).
    by destruct keep.
Qed.

Lemma filterM_Throw {A} (p : A -> Js.Outcome bool) (l : list A) :
  (exists e, Js.filterM p l = Js.Throw e) <-> exists x e, x ∈ l /\ p x = Js.Throw e.
Proof.
  induction l as [|x l IH]; simpl.
  - split; [by intros [e ?]|]. intros (x & e & Hx & _). by apply elem_of_nil in Hx.
  - destruct (p x) as [keep|e] eqn:Hp; simpl.
    + destruct (Js.filterM p l) as [rest|e] eqn:Hl; simpl.
      * split; [by intros [e ?]|]. intros (y & e & Hy & Hpy).
        apply elem_of_cons in Hy as [-> | Hy]; [congruence|].
        destruct (proj2 IH) as [e' He']; [by eauto|discriminate].
      * split; [|by eauto]. intros _.
        destruct (proj1 IH) as (y & e' & Hy & Hpy); [by eauto|].
        exists y, e'. split; [apply elem_of_cons; by right|done].
    + split; [|by eauto]. intros _. exists x, e.
      split; [apply elem_of_cons; by left|done].
Qed.

(** What the callback answers for a tool the table lists, and for a tool
    it neither lists nor inherits. *)
Lemma keepTool_listed (perms : AgentPermissions) (tool : string) (b : bool) :
  keepTool perms tool = Js.Return b -> b = negb (withheld perms tool).
Proof.
  unfold keepTool, capabilitiesOf, withheld.
  destruct (TOOL_CAPABILITY_MAP !! tool) as [caps|].
  - destruct (isFalse _), (allowFilesystem perms); simpl;
      repeat (destruct (existsb _ caps); simpl); congruence.
  - destruct (bool_decide _); destruct (isFalse _), (allowFilesystem perms); simpl;
      congruence.
Qed.

Lemma keepTool_Throw (perms : AgentPermissions) (tool : string) :
  (exists e, keepTool perms tool = Js.Throw e)
  <-> restrictive perms = true /\ tool ∈ Object_prototype_keys.
Proof.
  unfold keepTool, capabilitiesOf, restrictive.
  destruct (TOOL_CAPABILITY_MAP !! tool) as [caps|] eqn:Hmap.
  - split.
    + intros [e He]. destruct (isFalse _), (allowFilesystem perms); simpl in He;
        repeat (destruct (existsb _ caps); simpl in He); discriminate.
    + intros [_ Hin]. exfalso. revert Hmap.
      repeat (apply elem_of_cons in Hin as [-> | Hin]; [by vm_compute|]).
      by apply elem_of_nil in Hin.
  - destruct (bool_decide_reflect (tool ∈ Object_prototype_keys)) as [Hin | Hnot].
    + destruct (isFalse _), (allowFilesystem perms); simpl;
        split; try (by intros [e ?]); try (by intros [? _]); by eauto.
    + split; [|by intros [_ ?]].
      intros [e He]. destruct (isFalse _), (allowFilesystem perms); discriminate.
Qed.

(** X1. When the manifest denies the filesystem, no effective tool is
    tagged [filesystem] in the tool-capability map. *)
Theorem filterTools_no_filesystem (tools eff : list string) (perms : AgentPermissions) :
  filterTools tools perms = Js.Return eff ->
  allowFilesystem perms = false ->
  forall t caps, t ∈ eff -> TOOL_CAPABILITY_MAP !! t = Some caps -> filesystem ∉ caps.
Proof.
  intros H Hfs t caps Ht Hcaps Hin.
  apply filterM_Return in H as [_ Hall]. rewrite Forall_forall in Hall.
  apply Hall, keepTool_listed in Ht. unfold withheld in Ht.
  rewrite Hcaps, Hfs in Ht. apply existsb_Capability in Hin. rewrite Hin in Ht.
  simpl in Ht. rewrite orb_true_r in Ht. discriminate.
Qed.

Lemma filterTools_no_filesystem_witness :
  filterTools (tools QA_MANIFEST) (permissions QA_MANIFEST) = Js.Return ["grep"]
  /\ forall t caps,
       t ∈ ["grep"] -> TOOL_CAPABILITY_MAP !! t = Some caps -> filesystem ∉ caps.
Proof.
  split; [vm_compute; reflexivity|].
  apply (filterTools_no_filesystem (tools QA_MANIFEST) ["grep"] (permissions QA_MANIFEST)).
  - vm_compute. reflexivity.
  - reflexivity.
Defined.

(** X2. Where the filter returns, it returns the declared tools, in their
    order, without those that carry a tag of a denied permission, and
    nothing else is dropped: a tool the map does not list is kept. *)
Theorem filterTools_exact (tools eff : list string) (perms : AgentPermissions) :
  filterTools tools perms = Js.Return eff ->
  eff = List.filter (fun t => negb (withheld perms t)) tools
  /\ forall t, t ∈ tools -> TOOL_CAPABILITY_MAP !! t = None -> t ∈ eff.
Proof.
  intros H.
  assert (Heff : eff = List.filter (fun t => negb (withheld perms t)) tools)
    by (eapply filterM_Return_filter; [apply keepTool_listed|exact H]).
  split; [done|]. intros t Ht Hnone. rewrite Heff.
  apply list_elem_of_In, filter_In. split; [by apply list_elem_of_In|].
  unfold withheld. by rewrite Hnone.
Qed.

Lemma filterTools_exact_witness :
  ["read"; "grep"; "deploy"]
  = List.filter (fun t => negb (withheld (permissions deployManifest) t))
                (tools deployManifest)
  /\ forall t, t ∈ tools deployManifest -> TOOL_CAPABILITY_MAP !! t = None ->
               t ∈ ["read"; "grep"; "deploy"].
Proof.
  apply (filterTools_exact (tools deployManifest) ["read"; "grep"; "deploy"]
                           (permissions deployManifest)).
  vm_compute. reflexivity.
Defined.

(** X3. The filter throws exactly when some permission is denied and some
    declared tool is named like a member of [Object.prototype]. *)
Theorem filterTools_throws_iff (tools : list string) (perms : AgentPermissions) :
  (exists e, filterTools tools perms = Js.Throw e)
  <-> restrictive perms = true /\ exists t, t ∈ tools /\ t ∈ Object_prototype_keys.
Proof.
  unfold filterTools. rewrite filterM_Throw. split.
  - intros (t & e & Ht & He).
    destruct (proj1 (keepTool_Throw perms t)) as [Hr Hin]; [by eauto|]. by eauto.
  - intros (Hr & t & Ht & Hin).
    destruct (proj2 (keepTool_Throw perms t)) as [e He]; [done|]. by eauto.
Qed.

(** X4. With the network not denied and the filesystem allowed, the filter
    returns every declared tool, whatever its name. *)
Theorem filterTools_permissive (tools : list string) (perms : AgentPermissions) :
  restrictive perms = false -> filterTools tools perms = Js.Return tools.
Proof.
  unfold restrictive. intros [Hnet Hfs%negb_false_iff]%orb_false_iff.
  unfold filterTools. induction tools as [|t ts IH]; simpl; [done|].
  rewrite IH. unfold keepTool. rewrite Hnet, Hfs. reflexivity.
Qed.

Lemma filterTools_permissive_witness :
  filterTools ["fetch"; "constructor"; "rm"] (permissions openNetworkManifest)
  = Js.Return ["fetch"; "constructor"; "rm"].
Proof. apply filterTools_permissive. reflexivity. Defined.

(** X5. Filtering is idempotent: the effective tools pass the filter
    unchanged. *)
Theorem filterTools_idempotent (tools eff : list string) (perms : AgentPermissions) :
  filterTools tools perms = Js.Return eff ->
  filterTools eff perms = Js.Return eff.
Proof.
  intros H. apply filterM_Return in H as [_ Hall]. unfold filterTools.
  induction Hall as [|t ts Ht _ IH]; simpl; [done|]. by rewrite Ht, IH.
Qed.

Lemma filterTools_idempotent_witness :
  filterTools ["read"; "grep"; "deploy"] (permissions deployManifest)
  = Js.Return ["read"; "grep"; "deploy"].
Proof.
  apply (filterTools_idempotent (tools deployManifest)). vm_compute. reflexivity.
Defined.

End ToolFilter.

(* ------------------------------------------------------------------------- *)
(** ** Spawning *)
(* ------------------------------------------------------------------------- *)

Section SpawnOutcome.
Import Manifests Runtime.
Context (host : Host).
Local Open Scope list_scope.

Lemma inOrder_extend (pieces : list string) (text post : string) :
  inOrder pieces text -> inOrder pieces (text ++ post)%string.
Proof.
  revert text. induction pieces as [|p ps IH]; intros text; simpl; [done|].
  intros (before & after & -> & H). exists before, (after ++ post)%string.
  split; [by rewrite !append_assoc|by apply IH].
Qed.

Lemma emits_lift {F : Js.Exn -> Prop} {A} (a : A) :
  emits F (Eff.lift (Js.Return a)) (fun b evs => b = a /\ evs = []).
Proof. intros w. simpl. exists []. by rewrite app_nil_r. Qed.

Lemma emits_runtime_generateAgentId {F : Js.Exn -> Prop} (r : AgentRole) :
  emits F (generateAgentId host r)
        (fun id evs => evs = []
                       /\ exists rest, id = (AgentRole_toString r ++ "-" ++ rest)%string).
Proof.
  unfold generateAgentId.
  eapply emits_bind; [apply emits_now|]. intros ms ? ->.
  eapply emits_bind; [apply emits_randomHex|]. intros suffix ? ->.
  apply emits_ret. split; [done|]. by eexists.
Qed.

(** A spawn on which the filter returns [eff] and the contract reads as
    [roleContent] logs nothing and yields the agent built from them. *)
Lemma emits_spawnAgent {F : Js.Exn -> Prop} (M : AgentManifest) (task : Task)
      (projectRoot roleContent : string) (eff : list string) :
  loadSystemPromptContent host (systemPromptPath M) projectRoot = Some roleContent ->
  filterTools (tools M) (permissions M) = Js.Return eff ->
  emits F (spawnAgent host M task projectRoot)
        (fun r evs =>
           evs = []
           /\ exists a, r = SpawnSuccess a
                        /\ sa_manifest a = M /\ sa_task a = task
                        /\ scope a = resolveScope M eff
                        /\ systemPrompt a = assembleSystemPrompt roleContent (scope a)
                        /\ (exists rest, sa_agentId a
                                         = (AgentRole_toString (role M) ++ "-" ++ rest)%string)
                        /\ workspacePath a
                           = path_resolve host [projectRoot; "workspace"; sa_agentId a]).
Proof.
  intros Hload Hf. unfold spawnAgent. rewrite Hload, Hf.
  eapply emits_bind; [apply emits_lift|]. intros ? ? [-> ->].
  eapply emits_bind; [apply emits_runtime_generateAgentId|]. intros id ? [-> Hid].
  eapply emits_bind; [apply emits_isoNow|]. intros ts ? ->.
  apply emits_ret. split; [done|]. eexists. split; [reflexivity|]. simpl. done.
Qed.

Lemma spawnAgent_failure_load (M : AgentManifest) (task : Task) (projectRoot : string)
      (w : World) :
  (exists e w', spawnAgent host M task projectRoot w = (Js.Return (SpawnFailure e), w'))
  <-> loadSystemPromptContent host (systemPromptPath M) projectRoot = None.
Proof.
  split.
  - intros (e & w' & H).
    destruct (loadSystemPromptContent host (systemPromptPath M) projectRoot)
      as [roleContent|] eqn:Hload; [exfalso|done].
    destruct (filterTools (tools M) (permissions M)) as [eff|ex] eqn:Hf.
    + destruct (emits_returned _ _ w w' _
                  (emits_spawnAgent (F := fun _ => False) M task projectRoot roleContent eff
                     Hload Hf) H)
        as (evs & _ & _ & a & Heq & _).
      discriminate Heq.
    + unfold spawnAgent in H. rewrite Hload, Hf in H. discriminate H.
  - intros Hload. unfold spawnAgent. rewrite Hload. by eexists _, w.
Qed.

(** X6. [spawnAgent] answers with a spawn error exactly when the contract
    of the role cannot be read, whatever the tools of the manifest; the
    error is then [system_prompt_missing] for the role of the manifest,
    and the world is left as it was. *)
Theorem spawnAgent_failure (M : AgentManifest) (task : Task) (projectRoot : string)
        (w : World) :
  ((exists e w', spawnAgent host M task projectRoot w = (Js.Return (SpawnFailure e), w'))
   <-> loadSystemPromptContent host (systemPromptPath M) projectRoot = None)
  /\ (forall e w',
        spawnAgent host M task projectRoot w = (Js.Return (SpawnFailure e), w') ->
        kind e = system_prompt_missing /\ manifestRole e = role M /\ w' = w).
Proof.
  split; [apply spawnAgent_failure_load|]. intros e w' H.
  assert (Hload : loadSystemPromptContent host (systemPromptPath M) projectRoot = None)
    by (apply (spawnAgent_failure_load M task projectRoot w); by eauto).
  unfold spawnAgent in H. rewrite Hload in H. by injection H as <- <-.
Qed.

(** X7. A successful spawn writes nothing to the audit trail, carries the
    time limit and the cost cap of the manifest into the scope unchanged
    and states them in the prompt, names the agent after the role, and
    puts its workspace under [workspace/] and the agent id. *)
Theorem spawnAgent_success (M : AgentManifest) (task : Task) (projectRoot : string)
        (w w' : World) (a : SpawnedAgent) :
  spawnAgent host M task projectRoot w = (Js.Return (SpawnSuccess a), w') ->
  audit w' = audit w
  /\ scope_maxExecutionTime (scope a) = maxExecutionTime (permissions M)
  /\ scope_maxCostCap (scope a) = maxCostCap (permissions M)
  /\ inOrder
       [ ("**Execution time limit:** "
            ++ Js.Number_toString (maxExecutionTime (permissions M)) ++ "ms")%string;
         ("**Cost cap:** "
            ++ Js.Number_toString (maxCostCap (permissions M)) ++ " tokens")%string ]
       (systemPrompt a)
  /\ (exists rest, sa_agentId a = (AgentRole_toString (role M) ++ "-" ++ rest)%string)
  /\ workspacePath a = path_resolve host [projectRoot; "workspace"; sa_agentId a]
  /\ filterTools (tools M) (permissions M) = Js.Return (effectiveTools (scope a)).
Proof.
  intros H.
  destruct (loadSystemPromptContent host (systemPromptPath M) projectRoot)
    as [roleContent|] eqn:Hload;
    [|unfold spawnAgent in H; rewrite Hload in H; discriminate H].
  destruct (filterTools (tools M) (permissions M)) as [eff|ex] eqn:Hf;
    [|unfold spawnAgent in H; rewrite Hload, Hf in H; discriminate H].
  destruct (emits_returned _ _ w w' _
              (emits_spawnAgent (F := fun _ => False) M task projectRoot roleContent eff
                 Hload Hf) H)
    as (evs & Haudit & -> & a' & [= <-] & _ & _ & Hscope & Hprompt & Hid & Hws).
  rewrite app_nil_r in Haudit. rewrite Hscope in *.
  split; [done|]. split; [done|]. split; [done|]. split; [|by repeat split].
  rewrite Hprompt. unfold assembleSystemPrompt.
  do 3 apply inOrder_prepend. apply inOrder_extend.
  unfold buildPermissionsBlock. apply inOrder_join. simpl.
  repeat first [ apply sublist_nil | apply sublist_skip | apply sublist_cons ].
Qed.

End SpawnOutcome.

Lemma spawnAgent_failure_witness :
  Runtime.spawnAgent exampleHost Manifests.QA_MANIFEST exampleTask "/srv" freshWorld
  = (Js.Return (SpawnFailure
       {| kind := system_prompt_missing;
          detail := "Cannot read system prompt at path: docs/agents/qa.md (resolved from: /srv)";
          manifestRole := qa |}), freshWorld)
  /\ system_prompt_missing = system_prompt_missing /\ qa = role Manifests.QA_MANIFEST
  /\ freshWorld = freshWorld.
Proof.
  split; [vm_compute; reflexivity|].
  apply (proj2 (spawnAgent_failure exampleHost Manifests.QA_MANIFEST exampleTask "/srv"
                  freshWorld)
           {| kind := system_prompt_missing;
              detail := "Cannot read system prompt at path: docs/agents/qa.md (resolved from: /srv)";
              manifestRole := qa |} freshWorld).
  vm_compute. reflexivity.
Defined.

Lemma spawnAgent_success_witness :
  exists a w',
    Runtime.spawnAgent exampleHost Manifests.DEV_MANIFEST exampleTask "/srv" freshWorld
    = (Js.Return (SpawnSuccess a), w')
    /\ audit w' = audit freshWorld
    /\ scope_maxExecutionTime (scope a) = 600000%Z
    /\ scope_maxCostCap (scope a) = 100000%Z
    /\ workspacePath a = "/srv/workspace/dev-1708276800000-254a".
Proof.
  eexists _, _. split; [vm_compute; reflexivity|].
  match goal with
  | |- context [audit ?w' = _] =>
      match goal with
      | |- context [scope ?a] =>
          destruct (spawnAgent_success exampleHost Manifests.DEV_MANIFEST exampleTask "/srv"
                      freshWorld w' a) as (Ha & Ht & Hc & _ & _ & Hw & _);
            [vm_compute; reflexivity|]
      end
  end.
  split; [exact Ha|]. split; [exact Ht|]. split; [exact Hc|]. exact Hw.
Defined.

(* ------------------------------------------------------------------------- *)
(** ** The prompt loader *)
(* ------------------------------------------------------------------------- *)

Section PromptLoading.
Import Manifests PromptLoader.
Context (host : Host) (cwd : string) (readError : string -> string).

(** The loader filters tools as the runtime does. *)
Lemma getEffectiveTools_filterTools (M : AgentManifest) :
  getEffectiveTools M = Runtime.filterTools (tools M) (permissions M).
Proof. reflexivity. Qed.

(** No manifest of the registry names a tool after an inherited member. *)
Lemma registry_tools_returned (r : AgentRole) :
  exists eff, getEffectiveTools (MANIFEST_REGISTRY r) = Js.Return eff.
Proof. destruct r; eexists; vm_compute; reflexivity. Qed.

(** X8. [loadSystemPrompt] throws exactly when the contract of the role
    cannot be read, and what it throws is its own [Error]; for every role
    of the registry and a readable contract it returns a prompt. *)
Theorem loadSystemPrompt_throws_iff (r : AgentRole) (projectRoot : option string) :
  let root := match projectRoot with Some p => p | None => cwd end in
  let mdPath := path_resolve host [root; systemPromptPath (MANIFEST_REGISTRY r)] in
  ((exists t, loadSystemPrompt host cwd readError r projectRoot = Raised t)
   <-> readFileSync host mdPath = None)
  /\ (forall t, loadSystemPrompt host cwd readError r projectRoot = Raised t ->
                exists message, t = Error message)
  /\ (readFileSync host mdPath <> None ->
      exists prompt, loadSystemPrompt host cwd readError r projectRoot = Loaded prompt).
Proof.
  intros root mdPath. unfold loadSystemPrompt. fold root. fold mdPath.
  destruct (registry_tools_returned r) as [eff ->].
  destruct (readFileSync host mdPath) as [content|].
  - split; [split; [by intros [t ?]|done]|]. split; [done|]. by eexists.
  - split; [split; [done|by eexists]|]. split; [|done].
    intros t [= <-]. by eexists.
Qed.

(** X9. The prompt the loader returns and the scope the runtime resolves
    for the same role agree: after the contract of the role, as read from
    its file under the project root and without its trailing white space,
    the loader puts the constraints block of the manifest, which states
    the network line, the tool list, the time limit and the cost cap of
    the resolved scope, in this order. *)
Theorem loadSystemPrompt_agrees_with_scope (r : AgentRole) (projectRoot : option string)
        (prompt : string) :
  loadSystemPrompt host cwd readError r projectRoot = Loaded prompt ->
  let M := MANIFEST_REGISTRY r in
  let root := match projectRoot with Some p => p | None => cwd end in
  exists content eff block,
    readFileSync host (path_resolve host [root; systemPromptPath M]) = Some content
    /\ Runtime.filterTools (tools M) (permissions M) = Js.Return eff
    /\ block = buildConstraintsBlock M eff
    /\ prompt = Js.trimEnd content ++ Js.nl ++ Js.nl ++ block ++ Js.nl
    /\ inOrder
         [ "## RUNTIME CONSTRAINTS";
           "**Network access:** " ++ Runtime.networkLine (Runtime.resolveScope M eff);
           "**Permitted tools:**";
           Runtime.toolsList (Runtime.resolveScope M eff);
           "**Execution time limit:** "
             ++ Js.Number_toString (scope_maxExecutionTime (Runtime.resolveScope M eff))
             ++ "ms";
           "**Cost cap:** "
             ++ Js.Number_toString (scope_maxCostCap (Runtime.resolveScope M eff))
             ++ " tokens" ]
         block.
Proof.
  intros H M root. unfold loadSystemPrompt in H. fold M root in H.
  destruct (readFileSync host _) as [content|]; [|discriminate H].
  destruct (getEffectiveTools M) as [eff|e] eqn:Heff; [|discriminate H].
  injection H as <-. exists content, eff, (buildConstraintsBlock M eff).
  split; [done|]. split; [by rewrite <- getEffectiveTools_filterTools|].
  split; [done|]. split; [done|].
  unfold buildConstraintsBlock, Runtime.networkLine, Runtime.toolsList,
    Runtime.resolveScope.
  cbn [networkPolicy effectiveTools scope_maxExecutionTime scope_maxCostCap].
  apply inOrder_join.
  destruct eff, (allowNetwork (permissions M));
    repeat first [ apply sublist_nil | apply sublist_skip | apply sublist_cons ].
Qed.

End PromptLoading.

Lemma loadSystemPrompt_agrees_with_scope_witness :
  exists prompt,
    PromptLoader.loadSystemPrompt exampleHost "/srv" (fun _ => "ENOENT") dev None
    = PromptLoader.Loaded prompt
    /\ exists content eff block,
         readFileSync exampleHost "/srv/docs/agents/dev.md" = Some content
         /\ Runtime.filterTools (tools (Manifests.MANIFEST_REGISTRY dev))
                                (permissions (Manifests.MANIFEST_REGISTRY dev))
            = Js.Return eff
         /\ block = PromptLoader.buildConstraintsBlock (Manifests.MANIFEST_REGISTRY dev) eff
         /\ prompt = Js.trimEnd content ++ Js.nl ++ Js.nl ++ block ++ Js.nl
         /\ inOrder
              [ "## RUNTIME CONSTRAINTS";
                "**Network access:** "
                  ++ Runtime.networkLine
                       (Runtime.resolveScope (Manifests.MANIFEST_REGISTRY dev) eff);
                "**Permitted tools:**";
                Runtime.toolsList (Runtime.resolveScope (Manifests.MANIFEST_REGISTRY dev) eff);
                "**Execution time limit:** "
                  ++ Js.Number_toString
                       (scope_maxExecutionTime
                          (Runtime.resolveScope (Manifests.MANIFEST_REGISTRY dev) eff))
                  ++ "ms";
                "**Cost cap:** "
                  ++ Js.Number_toString
                       (scope_maxCostCap
                          (Runtime.resolveScope (Manifests.MANIFEST_REGISTRY dev) eff))
                  ++ " tokens" ]
              block.
Proof.
  eexists. split; [vm_compute; reflexivity|].
  apply (loadSystemPrompt_agrees_with_scope exampleHost "/srv" (fun _ => "ENOENT") dev None).
  vm_compute. reflexivity.
Defined.

(* ------------------------------------------------------------------------- *)
(** ** The guards on typed values *)
(* ------------------------------------------------------------------------- *)

Lemma every_map {A} (f : A -> Json) (check : Validators.Value -> bool) (l : list A) :
  (forall a, check (Some (f a)) = true) ->
  Validators.every (Some (JArr (map f l))) check = true.
Proof.
  intros H. unfold Validators.every. apply forallb_forall. intros j Hj.
  apply in_map_iff in Hj as (a & <- & _). apply H.
Qed.

(** A guard on the object of a typed value: the arrays are accepted item
    by item, the rest by evaluation. *)
Ltac accepted :=
  cbn -[Validators.every]; unfold Untyped.ofStrings;
  rewrite ?every_map;
  first [ reflexivity
        | match goal with
          | |- context [verdict ?r] => destruct (verdict r); reflexivity
          end
        | intros [? [] ?]; reflexivity
        | intros [? [] ? ?]; reflexivity
        | intros; reflexivity ].

(** A typed spec with a requirement and an exclusion passes. *)
Lemma isIntentSpec_nonempty (s : IntentSpec) :
  requirements s <> [] -> outOfScope s <> [] ->
  Validators.isIntentSpec (Some (Untyped.ofIntentSpec s)) = true.
Proof.
  intros Hreqs Hoos.
  unfold Validators.isIntentSpec, Validators.isArrayOf, Validators.isStringArray.
  cbn -[Validators.every]. unfold Untyped.ofStrings.
  rewrite !every_map by (intros; reflexivity). cbn. rewrite !length_map.
  by destruct (requirements s), (outOfScope s).
Qed.

Section Guards.
Import Validators Untyped.


(** X11. The guards for the outputs of the dev and QA stages are not
    stricter than the types: [isDevOutput] accepts every value of type
    [DevOutput], completed or failed, and [isValidationReport] every value
    of type [ValidationReport]. *)
Theorem typed_outputs_accepted (d : DevOutput) (r : ValidationReport) :
  isDevOutput (Some (ofDevOutput d)) = true
  /\ isValidationReport (Some (ofValidationReport r)) = true.
Proof.
  split.
  - destruct d as [t s arts invs|t s invs e]; unfold isDevOutput; accepted.
  - unfold isValidationReport; accepted.
Qed.

(** X10. [isIntentSpec] is stricter than the type [IntentSpec]: it
    accepts a typed spec exactly when the spec has at least one requirement
    and at least one out-of-scope entry. *)
Theorem isIntentSpec_typed (s : IntentSpec) :
  isIntentSpec (Some (ofIntentSpec s)) = true
  <-> requirements s <> [] /\ outOfScope s <> [].
Proof.
  split; [|intros [? ?]; by apply isIntentSpec_nonempty].
  unfold isIntentSpec, isArrayOf, isStringArray; cbn -[every]. unfold ofStrings.
  rewrite !every_map by (intros; reflexivity). cbn. rewrite !length_map.
  by destruct (requirements s), (outOfScope s).
Qed.

Lemma get_cons (key k : string) (v : Json) (rest : list (string * Json)) :
  get key ((k, v) :: rest)
  = match get key rest with
    | Some v' => Some v'
    | None => if String.eqb k key then Some v else None
    end.
Proof. reflexivity. Qed.

(** X12. [isClassificationResult] accepts exactly the objects whose
    [category], [routedTo], [confidence] and [ruleApplied] read as those
    of a value of type [ClassificationResult]; other properties are
    ignored. *)
Theorem isClassificationResult_typed (v : Value) :
  isClassificationResult v = true
  <-> exists fields r,
        v = Some (JObj fields)
        /\ forall key value, In (key, value) (Coordinator.resultFields r) ->
                             get key fields = Some value.
Proof.
  split.
  - unfold isClassificationResult.
    destruct v as [[| | | | |fields]|]; try discriminate. cbn [isObject negb prop].
    destruct (get "category" fields) as [[| | |c| |]|] eqn:Hc; try discriminate.
    destruct (get "routedTo" fields) as [[| | |t| |]|] eqn:Ht;
      try (rewrite ?Tauto.if_same; discriminate).
    destruct (get "confidence" fields) as [[| | |f| |]|] eqn:Hf;
      try (rewrite ?Tauto.if_same; discriminate).
    destruct (get "ruleApplied" fields) as [[| | |a| |]|] eqn:Ha;
      try (rewrite ?Tauto.if_same; discriminate).
    cbn. intros H. exists fields.
    destruct (String.eqb_spec c "technical_explicit") as [->|];
    [|destruct (String.eqb_spec c "business") as [->|];
     [|destruct (String.eqb_spec c "ambiguous") as [->|]; [|discriminate H]]];
    (destruct (String.eqb_spec t "product") as [->|];
     [|destruct (String.eqb_spec t "dev") as [->|]; [|discriminate H]]);
    (destruct (String.eqb_spec f "deterministic") as [->|];
     [|destruct (String.eqb_spec f "heuristic") as [->|]; [|discriminate H]]).
    all: match goal with
         | _ : get "category" _ = Some (JStr ?c), _ : get "routedTo" _ = Some (JStr ?t),
           _ : get "confidence" _ = Some (JStr ?f) |- _ =>
             let cat := match c with
                        | "technical_explicit" => constr:(technical_explicit)
                        | "business" => constr:(business)
                        | _ => constr:(ambiguous) end in
             let rt := match t with "product" => constr:(to_product) | _ => constr:(to_dev) end in
             let cf := match f with "deterministic" => constr:(deterministic)
                                  | _ => constr:(heuristic) end in
             exists {| category := cat; routedTo := rt; confidence := cf; ruleApplied := a |}
         end.
    all: split; [reflexivity|]; intros key value Hin; cbn in Hin;
      destruct Hin as [[= <- <-]|[[= <- <-]|[[= <- <-]|[[= <- <-]|[]]]]]; assumption.
  - intros (fields & r & -> & H). unfold isClassificationResult. cbn [isObject negb prop].
    rewrite (H "category" (JStr (Category_toString (category r)))) by (cbn; tauto).
    rewrite (H "routedTo" (JStr (Route_toString (routedTo r)))) by (cbn; tauto).
    rewrite (H "confidence" (JStr (Confidence_toString (confidence r)))) by (cbn; tauto).
    rewrite (H "ruleApplied" (JStr (ruleApplied r))) by (cbn; tauto).
    by destruct (category r), (routedTo r), (confidence r).
Qed.

End Guards.

(* ------------------------------------------------------------------------- *)
(** ** The logger, the classifier and the result of a run *)
(* ------------------------------------------------------------------------- *)

Section RunResult.
Context (host : Host).
Local Open Scope list_scope.



(** One step of a stage that has returned: the event was written, and the
    logs directory was there. *)
Ltac logging Hready :=
  match goal with
  | |- context [Logger.logEvent ?h ?e ?r ?w] =>
      let ts := fresh "ts" in
      let k := fresh "k" in
      let message := fresh "message" in
      let Hf := fresh "Hf" in
      destruct (logEvent_cases h e r w) as [[Hready (ts & k & ->)]|(message & Hf & ->)];
      [|first [ discriminate | done ]]
  end.


Tactic Notation "stepping" uconstr(lemma) :=
  eapply emits_bind; [apply lemma|]; cbv beta.

(** Two facts about one computation hold together. *)
Lemma emits_and {F : Js.Exn -> Prop} {A} (m : Eff.t A)
      (P Q : A -> list AuditEvent -> Prop) :
  emits F m P -> emits F m Q -> emits F m (fun a evs => P a evs /\ Q a evs).
Proof.
  intros HP HQ w. specialize (HP w). specialize (HQ w).
  destruct (m w) as [[a|e] w']; [|done].
  destruct HP as (evs & Ha & Hp), HQ as (evs2 & Ha2 & Hq).
  rewrite Ha in Ha2. apply app_inv_head in Ha2 as <-.
  by exists evs.
Qed.

Lemma emits_logEvent_ordinary (e : AuditEvent) (projectRoot : string) :
  eventType e <> "product_skipped" ->
  emits (logsFailure host projectRoot) (Logger.logEvent host e projectRoot)
        (fun _ evs => Forall (ordinary (ev_taskId e)) evs).
Proof.
  intros Hne. eapply emits_mono; [apply emits_logEvent|].
  intros _ evs (e' & -> & Hs & _ & Ht).
  constructor; [|constructor]. split; [done|].
  unfold shape in Hs. injection Hs as -> _. done.
Qed.

Lemma emits_logSpawn_ordinary (taskId agentId role projectRoot : string) :
  emits (logsFailure host projectRoot)
        (Orchestrator.logSpawn host taskId agentId role projectRoot)
        (fun _ evs => Forall (ordinary taskId) evs).
Proof.
  unfold Orchestrator.logSpawn.
  stepping (emits_isoNow host). intros ts ? ->.
  by apply (emits_logEvent_ordinary
              {| timestamp := ts; ev_taskId := taskId; eventType := "agent_spawned";
                 agentId := Some agentId; data := JObj [("role", JStr role)] |}).
Qed.

Lemma emits_logDestroy_ordinary (taskId agentId role projectRoot : string) :
  emits (logsFailure host projectRoot)
        (Orchestrator.logDestroy host taskId agentId role projectRoot)
        (fun _ evs => Forall (ordinary taskId) evs).
Proof.
  unfold Orchestrator.logDestroy.
  stepping (emits_isoNow host). intros ts ? ->.
  by apply (emits_logEvent_ordinary
              {| timestamp := ts; ev_taskId := taskId; eventType := "agent_destroyed";
                 agentId := Some agentId; data := JObj [("role", JStr role)] |}).
Qed.

(** The decision of [classify] does not depend on the world. *)
Lemma classify_value (task : Task) (projectRoot : string) :
  logsReady host projectRoot ->
  exists c, forall w, exists w',
    Coordinator.classify host task projectRoot w = (Js.Return c, w').
Proof.
  intros Hready. unfold Coordinator.classify. destruct (type task) as [ty|].
  - eexists. intros w. unfold Eff.bind. rewrite isoNow_returns. cbv beta iota.
    logged Hready. by eexists.
  - eexists. intros w. unfold Eff.bind. rewrite isoNow_returns. cbv beta iota.
    logged Hready. by eexists.
Qed.

(** [classify] returns only when the logs directory is there or can be
    made. *)
Lemma classify_returned_ready (task : Task) (projectRoot : string) (w w' : World)
      (c : ClassificationResult) :
  Coordinator.classify host task projectRoot w = (Js.Return c, w') ->
  logsReady host projectRoot.
Proof.
  unfold Coordinator.classify.
  destruct (type task) as [ty|]; unfold Eff.bind; rewrite isoNow_returns;
    cbv beta iota; logging Hready; done.
Qed.

Lemma emits_classify_ordinary (task : Task) (projectRoot : string) :
  emits (logsFailure host projectRoot)
        (Coordinator.classify host task projectRoot)
        (fun c evs =>
           Forall (ordinary (taskId task)) evs
           /\ forall w, exists w',
                Coordinator.classify host task projectRoot w = (Js.Return c, w')).
Proof.
  apply emits_and.
  - unfold Coordinator.classify. destruct (type task) as [ty|].
    + stepping (emits_isoNow host). intros ts ? ->.
      eapply emits_bind; [by apply emits_logEvent_ordinary|]. cbv beta.
      intros _ evs H. apply emits_ret. by rewrite app_nil_r.
    + stepping (emits_isoNow host). intros ts ? ->.
      eapply emits_bind; [by apply emits_logEvent_ordinary|]. cbv beta.
      intros _ evs H. apply emits_ret. by rewrite app_nil_r.
  - intros w. pose proof (emits_classify host task projectRoot w) as Hw.
    destruct (Coordinator.classify host task projectRoot w) as [[c|e] w'] eqn:Hrun;
      [|done].
    destruct Hw as (evs & Ha & _). exists evs. split; [done|].
    destruct (classify_value task projectRoot
                (classify_returned_ready task projectRoot w w' c Hrun)) as [c0 Hc].
    destruct (Hc w) as [w1 Hw1]. rewrite Hrun in Hw1. by injection Hw1 as <- <-.
Qed.


Lemma emits_product_spec (task : Task) (c : ClassificationResult)
      (agentId projectRoot : string) :
  emits (logsFailure host projectRoot)
        (MockProduct.execute host task c agentId projectRoot)
        (fun spec evs => Forall (ordinary (taskId task)) evs /\ mockSpec task spec).
Proof.
  unfold MockProduct.execute.
  stepping (emits_isoNow host). intros ts ? ->.
  eapply emits_bind; [by apply emits_logEvent_ordinary|]. cbv beta.
  intros _ evs1 H1.
  stepping (emits_product_generateSpecId host). intros id ? ->.
  stepping (emits_isoNow host). intros ts' ? ->.
  eapply emits_bind; [by apply emits_logEvent_ordinary|]. cbv beta.
  intros _ evs2 H2.
  apply emits_ret. rewrite !app_nil_r. simpl. split; [|by repeat split].
  apply Forall_app. split; assumption.
Qed.

Lemma emits_inline_spec {F : Js.Exn -> Prop} (task : Task) :
  emits F (Orchestrator.buildInlineSpec host task)
        (fun spec evs => evs = [] /\ inlineSpec task spec).
Proof.
  unfold Orchestrator.buildInlineSpec.
  stepping (emits_generateSpecId host). intros id ? ->.
  apply emits_ret. by repeat split.
Qed.

(** Between classification and execution. *)
Lemma emits_intentSpec_spec (task : Task) (c : ClassificationResult)
      (projectRoot : string) :
  emits (logsFailure host projectRoot)
    (match routedTo c with
     | to_product =>
         productId <~ Orchestrator.generateAgentId host "product" ;;
         Orchestrator.logSpawn host (taskId task) productId "product" projectRoot ;;;
         intentSpec <~ MockProduct.execute host task c productId projectRoot ;;
         Orchestrator.logDestroy host (taskId task) productId "product" projectRoot ;;;
         Eff.ret intentSpec
     | to_dev =>
         intentSpec <~ Orchestrator.buildInlineSpec host task ;;
         ts <~ Node.isoNow host ;;
         Logger.logEvent host
           {| timestamp := ts; ev_taskId := taskId task; eventType := "product_skipped";
              agentId := None;
              data := JObj
                [ ("reason", JStr "Classification routed directly to dev. Technical input does not require disambiguation.");
                  ("category", JStr (Category_toString (category c)));
                  ("ruleApplied", JStr (ruleApplied c));
                  ("inlineSpecId", JStr (specId intentSpec)) ] |}
           projectRoot ;;;
         Eff.ret intentSpec
     end)
    (fun spec evs =>
       match routedTo c with
       | to_product => Forall (ordinary (taskId task)) evs /\ mockSpec task spec
       | to_dev =>
           inlineSpec task spec
           /\ exists e, evs = [e] /\ ev_taskId e = taskId task
                        /\ eventType e = "product_skipped"
                        /\ data e = skippedNote c spec
       end).
Proof.
  destruct (routedTo c).
  - stepping (emits_generateAgentId host). intros productId ? [-> _].
    stepping emits_logSpawn_ordinary. intros _ evs1 H1.
    stepping emits_product_spec. intros spec evs2 [H2 Hspec].
    stepping emits_logDestroy_ordinary. intros _ evs3 H3.
    apply emits_ret. rewrite app_nil_r. simpl. split; [|done].
    rewrite !Forall_app. done.
  - stepping emits_inline_spec. intros spec ? [-> Hspec].
    stepping (emits_isoNow host). intros ts ? ->.
    stepping (emits_logEvent host). intros _ ? (e & -> & Hs & Hd & Ht).
    apply emits_ret. split; [done|]. exists e. simpl.
    unfold shape in Hs. injection Hs as Hty _. done.
Qed.

Lemma emits_dev_output (spec : IntentSpec) (agentId projectRoot : string) :
  emits (logsFailure host projectRoot)
        (MockDev.execute host spec agentId projectRoot)
        (fun d evs =>
           Forall (ordinary (spec_taskId spec)) evs
           /\ exists artifact invocations,
                d = DevCompleted (spec_taskId spec) (specId spec) [artifact] invocations
                /\ art_path artifact = "src/greet.ts"
                /\ map tool invocations = ["write"; "tsc"]).
Proof.
  unfold MockDev.execute.
  stepping (emits_isoNow host). intros ts ? ->.
  eapply emits_bind; [by apply emits_logEvent_ordinary|]. cbv beta.
  intros _ evs1 H1.
  stepping (emits_isoNow host). intros ts' ? ->.
  eapply emits_bind; [by apply emits_logEvent_ordinary|]. cbv beta.
  intros _ evs2 H2.
  apply emits_ret. rewrite !app_nil_r. simpl. split.
  - apply Forall_app. split; assumption.
  - by do 2 eexists.
Qed.

Lemma emits_qa_report (spec : IntentSpec) (d : DevOutput) (agentId projectRoot : string) :
  emits (logsFailure host projectRoot)
        (MockQa.execute host spec d agentId projectRoot)
        (fun report evs =>
           Forall (ordinary (spec_taskId spec)) evs /\ reportOn spec report).
Proof.
  unfold MockQa.execute.
  stepping (emits_isoNow host). intros ts ? ->.
  eapply emits_bind; [by apply emits_logEvent_ordinary|]. cbv beta.
  intros _ evs1 H1.
  stepping (emits_isoNow host). intros ts' ? ->.
  eapply emits_bind; [by apply emits_logEvent_ordinary|]. cbv beta.
  intros _ evs2 H2.
  apply emits_ret. rewrite !app_nil_r. cbn [app]. split.
  - apply Forall_app. split; assumption.
  - unfold reportOn. simpl. by rewrite !length_map.
Qed.

(** What one run returns and writes. *)
Lemma emits_run_result (task : Task) (projectRoot : string) :
  emits (logsFailure host projectRoot)
        (Orchestrator.run host task projectRoot)
        (fun r evs =>
           (exists first, head evs = Some first
                          /\ data first = JObj [("body", JStr (body task))])
           /\ er_taskId r = taskId task
           /\ (forall w, exists w',
                 Coordinator.classify host task projectRoot w
                 = (Js.Return (classification r), w'))
           /\ (exists artifact invocations,
                 devOutput r
                 = DevCompleted (taskId task) (specId (intentSpec r)) [artifact] invocations
                 /\ art_path artifact = "src/greet.ts"
                 /\ map tool invocations = ["write"; "tsc"])
           /\ reportOn (intentSpec r) (validation r)
           /\ match routedTo (classification r) with
              | to_product =>
                  mockSpec task (intentSpec r)
                  /\ Forall (ordinary (taskId task)) evs
              | to_dev =>
                  inlineSpec task (intentSpec r)
                  /\ exists before e after,
                       evs = before ++ e :: after
                       /\ Forall (ordinary (taskId task)) before
                       /\ Forall (ordinary (taskId task)) after
                       /\ ev_taskId e = taskId task
                       /\ eventType e = "product_skipped"
                       /\ data e = skippedNote (classification r) (intentSpec r)
              end).
Proof.
  unfold Orchestrator.run.
  stepping (emits_isoNow host). intros ts ? ->.
  eapply emits_bind;
    [apply emits_and; [apply emits_logEvent|by apply emits_logEvent_ordinary]|].
  cbv beta. intros _ evs0 [(first & -> & _ & Hfirst & _) H0]. simpl in H0, Hfirst.
  stepping (emits_generateAgentId host). intros coordinatorId ? [-> _].
  stepping emits_logSpawn_ordinary. intros _ evs1 H1.
  stepping emits_classify_ordinary. intros c evs2 [H2 Hc].
  stepping emits_logDestroy_ordinary. intros _ evs3 H3.
  stepping emits_intentSpec_spec. intros spec evs4 H4.
  assert (Htask : spec_taskId spec = taskId task).
  { destruct (routedTo c); [by destruct H4 as [_ [? _]]|by destruct H4 as [[? _] _]]. }
  stepping (emits_generateAgentId host). intros devId ? [-> _].
  stepping emits_logSpawn_ordinary. intros _ evs5 H5.
  stepping emits_dev_output. intros d evs6 [H6 Hd].
  stepping emits_logDestroy_ordinary. intros _ evs7 H7.
  stepping (emits_generateAgentId host). intros qaId ? [-> _].
  stepping emits_logSpawn_ordinary. intros _ evs8 H8.
  stepping emits_qa_report. intros report evs9 [H9 Hreport].
  stepping emits_logDestroy_ordinary. intros _ evs10 H10.
  stepping (emits_isoNow host). intros ts' ? ->.
  eapply emits_bind; [by apply emits_logEvent_ordinary|]. cbv beta.
  intros _ evs11 H11. simpl in H11.
  apply emits_ret. rewrite Htask in *. simpl.
  split; [by exists first|].
  split; [done|]. split; [done|]. split; [done|]. split; [done|].
  rewrite ?app_nil_r, ?app_nil_l. apply Forall_inv in H0.
  destruct (routedTo c).
  - destruct H4 as [H4 Hspec]. split; [done|].
    apply Forall_cons. split; [done|]. rewrite !Forall_app. tauto.
  - destruct H4 as [Hspec (e & -> & He1 & He2 & He3)]. split; [done|].
    exists (first :: evs1 ++ evs2 ++ evs3), e,
           (evs5 ++ evs6 ++ evs7 ++ evs8 ++ evs9 ++ evs10 ++ evs11).
    split; [simpl; by rewrite <- !app_assoc|].
    split; [apply Forall_cons; split; [done|]|]; rewrite !Forall_app; tauto.
Qed.

(** X14. A run returns when the logs directory is there or can be made,
    and the result of a run that returns hangs together: the result, the
    spec, the dev output and the report carry the id of the task; the
    classification is the one [classify] gives for the task; the dev
    output is a completed one for the spec of the result; the report is a
    pass for that spec, and its summary counts the requirements and
    constraints of that spec. *)
Theorem run_result_coherent (task : Task) (projectRoot : string) (w : World) :
  (logsReady host projectRoot ->
   exists r w', Orchestrator.run host task projectRoot w = (Js.Return r, w'))
  /\ forall r w',
       Orchestrator.run host task projectRoot w = (Js.Return r, w') ->
       er_taskId r = taskId task
       /\ spec_taskId (intentSpec r) = taskId task
       /\ (forall w0, exists w1,
             Coordinator.classify host task projectRoot w0
             = (Js.Return (classification r), w1))
       /\ (exists artifacts invocations,
             devOutput r
             = DevCompleted (taskId task) (specId (intentSpec r)) artifacts invocations)
       /\ vr_taskId (validation r) = taskId task
       /\ vr_specId (validation r) = specId (intentSpec r)
       /\ verdict (validation r) = pass
       /\ totalRequirements (summary (validation r)) = length (requirements (intentSpec r))
       /\ passedRequirements (summary (validation r)) = length (requirements (intentSpec r))
       /\ totalConstraints (summary (validation r)) = length (constraints (intentSpec r)).
Proof.
  split; [by apply (emits_ready host projectRoot _ _ w (emits_run_result task projectRoot))|].
  intros r w' Hrun.
  destruct (emits_returned _ _ w w' r (emits_run_result task projectRoot) Hrun)
    as (evs & _ & _ & Hid & Hc & Hd & Hq & Hroute).
  split; [done|].
  assert (Htask : spec_taskId (intentSpec r) = taskId task).
  { destruct (routedTo (classification r)); by destruct Hroute as [[? _] _]. }
  destruct Hd as (artifact & invocations & Hd & _).
  destruct Hq as (Hq1 & Hq2 & Hq3 & Hq4).
  rewrite Hq1, Hq2, Hq3, Hq4, Htask. simpl. repeat split; try done.
  by exists [artifact], invocations.
Qed.



(** X17. Whatever the task, a run returns when the logs directory is
    there or can be made, and the four parts of the result of a run that
    returns pass the guards written for the replies of a language
    model. *)
Theorem run_passes_guards (task : Task) (projectRoot : string) (w : World) :
  (logsReady host projectRoot ->
   exists r w', Orchestrator.run host task projectRoot w = (Js.Return r, w'))
  /\ forall r w',
       Orchestrator.run host task projectRoot w = (Js.Return r, w') ->
       Validators.isClassificationResult
         (Some (Untyped.ofClassificationResult (classification r))) = true
       /\ Validators.isIntentSpec (Some (Untyped.ofIntentSpec (intentSpec r))) = true
       /\ Validators.isDevOutput (Some (Untyped.ofDevOutput (devOutput r))) = true
       /\ Validators.isValidationReport
            (Some (Untyped.ofValidationReport (validation r))) = true.
Proof.
  split; [by apply (emits_ready host projectRoot _ _ w (emits_run_result task projectRoot))|].
  intros r w' Hrun.
  destruct (emits_returned _ _ w w' r (emits_run_result task projectRoot) Hrun)
    as (evs & _ & _ & _ & _ & Hd & _ & Hroute).
  split; [|split; [|split]].
  - by destruct (classification r) as [[] [] [] ?].
  - destruct (routedTo (classification r)).
    + destruct Hroute as [(_ & _ & Hreqs & _ & Hoos) _].
      apply isIntentSpec_nonempty; intros Hnil; rewrite Hnil in *; discriminate.
    + destruct Hroute as [(_ & _ & Hreqs & _ & Hoos) _].
      apply isIntentSpec_nonempty; intros Hnil; rewrite Hnil in *; discriminate.
  - destruct (devOutput r); unfold Validators.isDevOutput; accepted.
  - unfold Validators.isValidationReport; accepted.
Qed.


End RunResult.


Lemma run_result_coherent_witness :
  exists r w',
    Orchestrator.run exampleHost exampleTask "/srv" freshWorld = (Js.Return r, w')
    /\ er_taskId r = "task-001"
    /\ spec_taskId (intentSpec r) = "task-001"
    /\ vr_taskId (validation r) = "task-001"
    /\ vr_specId (validation r) = specId (intentSpec r)
    /\ verdict (validation r) = pass.
Proof.
  destruct (run_result_coherent exampleHost exampleTask "/srv" freshWorld)
    as [Hreturns Hresult].
  destruct (Hreturns exampleHost_logsReady) as (r & w' & Hrun).
  destruct (Hresult r w' Hrun) as (Hid & Hspec & _ & _ & Hvt & Hvs & Hv & _).
  exists r, w'. repeat split; assumption.
Defined.



Lemma run_passes_guards_witness :
  exists r w',
    Orchestrator.run exampleHost exampleTask "/srv" freshWorld = (Js.Return r, w')
    /\ Validators.isClassificationResult
         (Some (Untyped.ofClassificationResult (classification r))) = true
    /\ Validators.isIntentSpec (Some (Untyped.ofIntentSpec (intentSpec r))) = true
    /\ Validators.isDevOutput (Some (Untyped.ofDevOutput (devOutput r))) = true
    /\ Validators.isValidationReport
         (Some (Untyped.ofValidationReport (validation r))) = true.
Proof.
  destruct (run_passes_guards exampleHost exampleTask "/srv" freshWorld)
    as [Hreturns Hguards].
  destruct (Hreturns exampleHost_logsReady) as (r & w' & Hrun).
  exists r, w'. split; [exact Hrun|]. exact (Hguards r w' Hrun).
Defined.

(* ------------------------------------------------------------------------- *)
(** ** The configuration loader *)
(* ------------------------------------------------------------------------- *)

Section EnvFile.
Import Config.
Local Open Scope Z_scope.

Lemma trimStart_pad (pad s : string) :
  allWhiteSpace pad = true -> Js.trimStart (pad ++ s) = Js.trimStart s.
Proof.
  unfold allWhiteSpace. induction pad as [|c pad IH]; [done|].
  rewrite append_cons. simpl. intros [Hc Hpad]%andb_prop. rewrite Hc. auto.
Qed.

Lemma trimEnd_pad (s pad : string) :
  allWhiteSpace pad = true -> Js.trimEnd (s ++ pad) = Js.trimEnd s.
Proof.
  unfold allWhiteSpace. intros Hpad. induction s as [|c s IH].
  - rewrite append_nil_l. induction pad as [|c pad IH]; [done|].
    simpl in *. apply andb_prop in Hpad as [Hc Hpad]. by rewrite IH, Hc.
  - rewrite append_cons. simpl. by rewrite IH.
Qed.

Lemma trimEnd_keep (y z : string) :
  Js.trimEnd z <> EmptyString -> Js.trimEnd (y ++ z) = y ++ Js.trimEnd z.
Proof.
  intros Hz. induction y as [|c y IH]; [done|].
  rewrite !append_cons. simpl. rewrite IH.
  destruct (y ++ Js.trimEnd z) eqn:E; [|done].
  destruct y; [|discriminate E]. by rewrite append_nil_l in E.
Qed.

Lemma trimEnd_length (s : string) : (String.length (Js.trimEnd s) <= String.length s)%nat.
Proof.
  induction s as [|c s IH]; simpl; [lia|].
  destruct (Js.trimEnd s); [destruct (Js.isWhiteSpace c)|]; simpl in *; lia.
Qed.

Lemma trimStart_length (s : string) :
  Js.trimStart s = s \/ (String.length (Js.trimStart s) < String.length s)%nat.
Proof.
  induction s as [|c s IH]; simpl; [by left|].
  destruct (Js.isWhiteSpace c); [|by left]. right. destruct IH as [->|]; lia.
Qed.

Lemma trim_fixed (s : string) :
  Js.trim s = s -> Js.trimStart s = s /\ Js.trimEnd s = s.
Proof.
  unfold Js.trim. intros H.
  destruct (trimStart_length s) as [E|Hlt].
  - by rewrite E in *.
  - pose proof (trimEnd_length (Js.trimStart s)) as Hle. rewrite H in Hle. lia.
Qed.

Lemma trimStart_fixed_append (s rest : string) :
  s <> EmptyString -> Js.trimStart s = s -> Js.trimStart (s ++ rest) = s ++ rest.
Proof.
  destruct s as [|c s]; [done|]. intros _. rewrite append_cons. simpl.
  destruct (Js.isWhiteSpace c); [|done].
  intros H. apply (f_equal String.length) in H. simpl in H.
  destruct (trimStart_length s) as [E|Hlt]; [rewrite E in H|]; lia.
Qed.

Lemma indexOfFrom_pad (pad : string) (i : Z) :
  allWhiteSpace pad = true -> Js.indexOfFrom "=" pad i = -1.
Proof.
  unfold allWhiteSpace. revert i. induction pad as [|c pad IH]; intros i; [done|].
  simpl. intros [Hc Hpad]%andb_prop.
  destruct (Ascii.eqb_spec c "=") as [->|]; [discriminate Hc|]. auto.
Qed.

Lemma indexOf_here (c : ascii) (a b : string) :
  Js.indexOf c a = -1 -> Js.indexOf c (a ++ String c b) = Js.len a.
Proof.
  unfold Js.indexOf. intros H. rewrite indexOfFrom_append by (done || lia).
  simpl. by rewrite Ascii.eqb_refl.
Qed.

(** A line whose trimmed form is [a=b]. *)
Lemma parseLine_trimmed (entries : gmap string string) (line a b : string) :
  Js.trim line = a ++ String "=" b ->
  Js.indexOf "=" a = -1 ->
  startsWith "#" a = false ->
  parseLine entries line
  = <[Js.trim a :=
        let value := Js.trim b in
        if (startsWith Js.DQUOTE value && endsWith Js.DQUOTE value)
           || (startsWith "'" value && endsWith "'" value)
        then Js.slice value 1 (Js.len value - 1)
        else value]> entries.
Proof.
  intros Htrim Ha Hhash. unfold parseLine. rewrite Htrim.
  assert (Hne : String.eqb (a ++ String "=" b) EmptyString = false).
  { by destruct a. }
  assert (Hh : startsWith "#" (a ++ String "=" b) = false).
  { by destruct a. }
  rewrite Hne, Hh, indexOf_here by done. simpl orb. cbv iota.
  pose proof (len_nonneg a).
  destruct (Z.eqb_spec (Js.len a) (-1)); [lia|].
  unfold Js.slice. rewrite Z.sub_0_r.
  replace (Z.to_nat (Js.len a + 1)) with (String.length (a ++ "=")).
  2:{ rewrite length_append. unfold Js.len. simpl. lia. }
  rewrite to_nat_len. simpl Js.drop at 1.
  change (Z.to_nat 0) with 0%nat. simpl Js.drop at 2.
  rewrite take_append.
  replace (a ++ String "=" b) with ((a ++ "=") ++ b) by by rewrite append_assoc.
  by rewrite drop_append.
Qed.

Lemma lacks_indexOfFrom (c : ascii) (s : string) (i : Z) :
  lacks c s = true -> Js.indexOfFrom c s i = -1.
Proof.
  unfold lacks. revert i. induction s as [|d s IH]; intros i; [done|].
  simpl. intros [Hd Hs]%andb_prop. apply negb_true_iff in Hd. rewrite Hd. auto.
Qed.

Lemma trimEnd_eq (z : string) : Js.trimEnd (String "=" z) = String "=" (Js.trimEnd z).
Proof. simpl. by destruct (Js.trimEnd z). Qed.

(** An entry with white space around the key and around the raw value. *)
Lemma parseLine_padded (entries : gmap string string) (p1 k p2 p3 w p4 : string) :
  allWhiteSpace p1 = true -> allWhiteSpace p2 = true ->
  allWhiteSpace p3 = true -> allWhiteSpace p4 = true ->
  envKey k -> Js.trim w = w ->
  parseLine entries (p1 ++ k ++ p2 ++ String "=" (p3 ++ w ++ p4))
  = <[k := if (startsWith Js.DQUOTE w && endsWith Js.DQUOTE w)
              || (startsWith "'" w && endsWith "'" w)
           then Js.slice w 1 (Js.len w - 1)
           else w]> entries.
Proof.
  intros H1 H2 H3 H4 (Hk & Hne & Heq & Hhash) Hw.
  apply trim_fixed in Hk as [Hks Hke]. apply trim_fixed in Hw as [Hws Hwe].
  assert (Hb : Js.trim (Js.trimEnd (p3 ++ w ++ p4)) = w).
  { unfold Js.trim. destruct w as [|c w].
    - rewrite append_nil_l, <- (append_nil_l (p3 ++ p4)), trimEnd_pad; [done|].
      unfold allWhiteSpace in *. by rewrite every_append, H3, H4.
    - rewrite trimEnd_keep; rewrite trimEnd_pad by done; rewrite Hwe; [|done].
      by rewrite trimStart_pad, Hws, Hwe. }
  assert (Ha : Js.trim (k ++ p2) = k).
  { unfold Js.trim. rewrite trimStart_fixed_append by done.
    by rewrite trimEnd_pad. }
  rewrite (parseLine_trimmed entries _ (k ++ p2) (Js.trimEnd (p3 ++ w ++ p4))).
  - by rewrite Ha, Hb.
  - unfold Js.trim. rewrite trimStart_pad by done.
    rewrite trimStart_fixed_append by done.
    rewrite <- append_assoc, trimEnd_keep; rewrite trimEnd_eq; [|done].
    reflexivity.
  - unfold Js.indexOf. rewrite indexOfFrom_append; [|done|by apply lacks_indexOfFrom].
    by apply indexOfFrom_pad.
  - destruct k; done.
Qed.

Lemma endsWith_snoc (c : ascii) (s : string) : endsWith c (s ++ Js.str c) = true.
Proof.
  induction s as [|d s IH]; [simpl; apply Ascii.eqb_refl|].
  rewrite append_cons. simpl. destruct (s ++ Js.str c) eqn:E; [|done].
  by destruct s.
Qed.

(** A value between two quotes [q]. *)
Lemma quoted_value (q : ascii) (v : string) :
  Js.isWhiteSpace q = false ->
  let w := String q (v ++ Js.str q) in
  Js.trim w = w
  /\ startsWith q w && endsWith q w = true
  /\ Js.slice w 1 (Js.len w - 1) = v.
Proof.
  intros Hq w. split; [|split].
  - unfold Js.trim, w. simpl Js.trimStart. rewrite Hq.
    change (String q (v ++ Js.str q)) with (String q v ++ Js.str q).
    rewrite trimEnd_keep; simpl; by rewrite Hq.
  - unfold w. simpl startsWith. rewrite Ascii.eqb_refl.
    change (String q (v ++ Js.str q)) with (String q v ++ Js.str q).
    by rewrite endsWith_snoc.
  - unfold Js.slice, w. change (Z.to_nat 1) with 1%nat. simpl Js.drop.
    replace (Z.to_nat _) with (String.length v); [apply take_append|].
    unfold Js.len. simpl. rewrite length_append. simpl. lia.
Qed.

(** X19. A line [key = value], with white space allowed around the key,
    around the value and at both ends of the line, sets the key to the
    value, both trimmed, when the value is not wrapped in quotes. *)
Theorem parseLine_entry (entries : gmap string string) (p1 k p2 p3 v p4 : string) :
  allWhiteSpace p1 = true -> allWhiteSpace p2 = true ->
  allWhiteSpace p3 = true -> allWhiteSpace p4 = true ->
  envKey k -> Js.trim v = v -> bare v ->
  parseLine entries (p1 ++ k ++ p2 ++ String "=" (p3 ++ v ++ p4)) = <[k := v]> entries.
Proof.
  intros H1 H2 H3 H4 Hk Hv Hbare.
  rewrite parseLine_padded by done. unfold bare in Hbare. by rewrite Hbare.
Qed.

(** X20. A value wrapped in a pair of double quotes or of single quotes
    is stored without that pair and otherwise as written: white space
    inside the quotes, further quotes and [=] signs are kept. *)
Theorem parseLine_quoted (entries : gmap string string) (p1 k p2 p3 v p4 : string)
        (q : ascii) :
  allWhiteSpace p1 = true -> allWhiteSpace p2 = true ->
  allWhiteSpace p3 = true -> allWhiteSpace p4 = true ->
  envKey k -> q = Js.DQUOTE \/ q = "'"%char ->
  parseLine entries (p1 ++ k ++ p2 ++ String "=" (p3 ++ String q (v ++ Js.str q) ++ p4))
  = <[k := v]> entries.
Proof.
  intros H1 H2 H3 H4 Hk Hq.
  assert (Hws : Js.isWhiteSpace q = false) by by destruct Hq as [->| ->].
  destruct (quoted_value q v Hws) as (Htrim & Hwrapped & Hslice).
  rewrite parseLine_padded by done. rewrite Hslice.
  destruct Hq as [->| ->].
  - by rewrite Hwrapped.
  - rewrite Hwrapped. by rewrite orb_true_r.
Qed.

Lemma lacks_cons (c d : ascii) (s : string) :
  lacks c (String d s) = true -> Ascii.eqb d c = false /\ lacks c s = true.
Proof.
  unfold lacks. simpl. intros [Hd Hs]%andb_prop. by apply negb_true_iff in Hd.
Qed.

Lemma split_nonempty (s : string) : split s <> [].
Proof.
  induction s as [|c s IH]; simpl; [done|].
  destruct (Ascii.eqb c Js.LF); [done|]. by destruct (split s).
Qed.

Lemma split_line (line rest : string) :
  lacks Js.LF line = true ->
  split (line ++ String Js.LF rest) = line :: split rest.
Proof.
  induction line as [|c line IH]; [done|].
  intros [Hc Hline]%lacks_cons. rewrite append_cons. simpl. by rewrite Hc, IH.
Qed.

Lemma split_last (line : string) : lacks Js.LF line = true -> split line = [line].
Proof.
  induction line as [|c line IH]; [done|].
  intros [Hc Hline]%lacks_cons. simpl. by rewrite Hc, IH.
Qed.

Lemma split_join (lines : list string) :
  lines <> [] -> Forall (fun line => lacks Js.LF line = true) lines ->
  split (Js.join Js.nl lines) = lines.
Proof.
  intros Hne Hall. induction Hall as [|line lines Hline Hall IH]; [done|].
  destruct lines as [|line' lines].
  - by apply split_last.
  - change (Js.join Js.nl (line :: line' :: lines))
      with (line ++ String Js.LF (Js.join Js.nl (line' :: lines))).
    by rewrite split_line, IH.
Qed.

Lemma lacks_append (c : ascii) (a b : string) :
  lacks c (a ++ b) = lacks c a && lacks c b.
Proof. apply every_append. Qed.

Context (host : Host).

(** X21. A file of lines [key=value], one per entry of a list, with keys
    and values free of line feeds and white space at their ends and with
    bare values, reads back as that list: every key holds the value of its
    last entry. *)
Theorem parseEnvFile_entries (filePath : string) (entries : list (string * string)) :
  Forall (fun kv => envKey kv.1 /\ lacks Js.LF kv.1 = true
                    /\ Js.trim kv.2 = kv.2 /\ bare kv.2 /\ lacks Js.LF kv.2 = true)
         entries ->
  readFileSync host filePath
  = Some (Js.join Js.nl (map (fun kv => kv.1 ++ "=" ++ kv.2) entries)) ->
  parseEnvFile host filePath
  = fold_left (fun m kv => <[kv.1 := kv.2]> m) entries ∅.
Proof.
  intros Hall Hread. unfold parseEnvFile. rewrite Hread. clear Hread.
  assert (Hfold : forall m,
             fold_left parseLine (map (fun kv => kv.1 ++ "=" ++ kv.2) entries) m
             = fold_left (fun m kv => <[kv.1 := kv.2]> m) entries m).
  { induction Hall as [|[k v] rest (Hk & _ & Hv & Hbare & _) Hall IH]; intros m; [done|].
    simpl. rewrite <- IH. f_equal.
    pose proof (parseLine_padded m EmptyString k EmptyString EmptyString v EmptyString)
      as Hline.
    rewrite !append_nil_l, append_nil_r in Hline.
    change (k ++ "=" ++ v) with (k ++ String "=" v). rewrite Hline by done.
    unfold bare in Hbare. cbn [fst snd] in Hbare. by rewrite Hbare. }
  destruct entries as [|kv0 entries0]; [done|].
  rewrite split_join; [apply Hfold|done|].
  apply Forall_map. eapply Forall_impl; [apply Hall|].
  intros [k v] (_ & Hk & _ & _ & Hv). cbn [fst snd] in *.
  by rewrite !lacks_append, Hk, Hv.
Qed.

Context (env : string -> option string).

(** X22. [loadConfig] returns a key exactly when the key is not empty and
    is the value of the environment variable or, with the variable unset,
    the value the [.env] file of the project gives it; otherwise it throws.
    A variable set to the empty string hides the file. *)
Theorem loadConfig_key (projectRoot key : string) :
  loadConfig host env projectRoot = AppConfig key
  <-> key <> EmptyString
      /\ (env "GEMINI_API_KEY" = Some key
          \/ (env "GEMINI_API_KEY" = None
              /\ parseEnvFile host (path_resolve host [projectRoot; ".env"])
                 !! "GEMINI_API_KEY" = Some key)).
Proof.
  unfold loadConfig.
  destruct (env "GEMINI_API_KEY") as [[|c v]|].
  - split; [done|]. intros [Hne [[= <-]|[? _]]]; done.
  - split.
    + intros [= <-]. split; [done|]. by left.
    + intros [_ [[= <-]|[? _]]]; done.
  - destruct (parseEnvFile host _ !! "GEMINI_API_KEY") as [[|c v]|].
    + split; [done|]. intros [Hne [?|[_ [= <-]]]]; done.
    + split.
      * intros [= <-]. split; [done|]. by right.
      * intros [_ [?|[_ [= <-]]]]; done.
    + split; [done|]. intros [_ [?|[_ ?]]]; done.
Qed.

End EnvFile.

Lemma parseLine_entry_witness :
  Config.parseLine ∅ ("  " ++ "GEMINI_API_KEY" ++ " " ++ String "=" (" " ++ "abc" ++ "  "))
  = <["GEMINI_API_KEY" := "abc"]> ∅.
Proof.
  apply (parseLine_entry ∅ "  " "GEMINI_API_KEY" " " " " "abc" "  ");
    try reflexivity.
  repeat split; try reflexivity. discriminate.
Defined.

Lemma parseLine_quoted_witness :
  Config.parseLine ∅
    (EmptyString ++ "KEY" ++ EmptyString
       ++ String "=" (EmptyString ++ String Js.DQUOTE (" a=b " ++ Js.str Js.DQUOTE)
                        ++ EmptyString))
  = <["KEY" := " a=b "]> ∅.
Proof.
  apply (parseLine_quoted ∅ EmptyString "KEY" EmptyString EmptyString " a=b "
                          EmptyString Js.DQUOTE);
    try reflexivity.
  - repeat split; try reflexivity. discriminate.
  - left. reflexivity.
Defined.

Lemma parseEnvFile_entries_witness :
  Config.parseEnvFile envHost "/srv/.env"
  = fold_left (fun m kv => <[kv.1 := kv.2]> m)
      [("GEMINI_API_KEY", "first"); ("MODEL", "flash"); ("GEMINI_API_KEY", "second")] ∅
  /\ Config.parseEnvFile envHost "/srv/.env" !! "GEMINI_API_KEY" = Some "second".
Proof.
  assert (H : Config.parseEnvFile envHost "/srv/.env"
              = fold_left (fun m kv => <[kv.1 := kv.2]> m)
                  [("GEMINI_API_KEY", "first"); ("MODEL", "flash");
                   ("GEMINI_API_KEY", "second")] ∅).
  { apply (parseEnvFile_entries envHost "/srv/.env"); [|reflexivity].
    repeat constructor; discriminate. }
  split; [exact H|]. rewrite H. reflexivity.
Defined.

(* ------------------------------------------------------------------------- *)
(** ** Arrays, code fences and replies without JSON *)
(* ------------------------------------------------------------------------- *)

Section ArrayScan.
Import Parser Lexical.
Local Open Scope Z_scope.

Lemma Balanced_every_unbracketed (s : string) :
  every unbracketed s = true -> Balanced "[" "]" s.
Proof.
  induction s as [|c s IH]; simpl; [constructor|].
  unfold unbracketed at 1. rewrite !andb_true_iff, !negb_true_iff.
  intros [[[[Hq Hb] Ho] Hc] Hs].
  apply Ascii.eqb_neq in Hq, Hb, Ho, Hc. constructor; auto.
Qed.

Lemma isWs_unbracketed (c : ascii) : JSON.isWs c = true -> unbracketed c = true.
Proof.
  unfold JSON.isWs. rewrite !orb_true_iff, !Nat.eqb_eq.
  intros H. rewrite <- (ascii_nat_embedding c).
  by destruct H as [[[-> | ->] | ->] | ->].
Qed.

Lemma isDigit_unbracketed (c : ascii) : Grammar.isDigit c = true -> unbracketed c = true.
Proof.
  unfold Grammar.isDigit. rewrite andb_true_iff, !Nat.leb_le.
  intros [Hlo Hhi]. rewrite <- (ascii_nat_embedding c).
  assert (H : In (nat_of_ascii c) (seq 48 10)) by (apply in_seq; lia).
  simpl in H. by repeat destruct H as [<- | H].
Qed.

Lemma Ws_unbracketed (w : string) : Grammar.Ws w -> every unbracketed w = true.
Proof. apply every_impl, isWs_unbracketed. Qed.

Lemma Digits_unbracketed (ds : string) : Grammar.Digits ds -> every unbracketed ds = true.
Proof. intros [_ H]. revert H. apply every_impl, isDigit_unbracketed. Qed.

Lemma Number_unbracketed (s : string) : Grammar.Number s -> every unbracketed s = true.
Proof.
  intros (sign & int & frac & exp & -> & Hsign & Hint & _ & Hfrac & Hexp).
  rewrite !every_append, !andb_true_iff. repeat split.
  - by destruct Hsign as [-> | ->].
  - by apply Digits_unbracketed.
  - destruct Hfrac as [-> | (ds & -> & Hds)]; [done|].
    rewrite every_append, (Digits_unbracketed ds) by done. done.
  - destruct Hexp as [-> | (e & sgn & ds & -> & He & Hsgn & Hds)]; [done|].
    rewrite !every_append, (Digits_unbracketed ds) by done.
    by destruct He as [-> | ->], Hsgn as [-> | [-> | ->]].
Qed.

Lemma Balanced_quoted_brackets (q s : string) :
  Quoted q -> Balanced "[" "]" s -> Balanced "[" "]" (String Js.DQUOTE (q ++ String Js.DQUOTE s)).
Proof. intros Hq Hs. by apply (Balanced_string "[" "]" q s). Qed.

Lemma Balanced_brackets (b s : string) :
  Balanced "[" "]" b -> Balanced "[" "]" s -> Balanced "[" "]" (String "[" (b ++ String "]" s)).
Proof. intros Hb Hs. by apply (Balanced_nested "[" "]" b s). Qed.

(** Every text of the grammar is balanced in its brackets, with its
    quotes closed. *)
Lemma Text_Balanced_brackets (cat : Grammar.Category) (s : string) :
  Grammar.Text cat s -> Balanced "[" "]" s.
Proof.
  induction 1;
    repeat match goal with
           | H : Grammar.Ws _ |- _ => apply Ws_unbracketed, Balanced_every_unbracketed in H
           | H : Grammar.Chars _ |- _ => apply Chars_Quoted in H
           | H : Grammar.Number _ |- _ =>
               apply Number_unbracketed, Balanced_every_unbracketed in H
           end;
    try (by apply Balanced_every_unbracketed); try done;
    unfold Js.dq; rewrite ?str_append;
    repeat first
      [ assumption
      | apply Balanced_nil
      | apply Balanced_quoted_brackets; [assumption|]
      | apply Balanced_brackets; [assumption|]
      | apply Balanced_append; [assumption|]
      | apply Balanced_plain; [discriminate..|] ].
Qed.

Lemma ArrayText_Balanced (arr : string) :
  ArrayText arr ->
  exists inner, arr = String "[" (inner ++ String "]" EmptyString)
                /\ Balanced "[" "]" inner.
Proof.
  intros (inner & -> & H). exists inner. split; [done|].
  destruct H as [Hw | Hm].
  - by apply Balanced_every_unbracketed, Ws_unbracketed.
  - by apply Text_Balanced_brackets in Hm.
Qed.

Lemma slice_bracket_block (pre inner post : string) :
  Js.slice (pre ++ String "[" (inner ++ String "]" post))%string
           (Js.len pre) (Js.len pre + Js.len inner + 1 + 1)
  = String "[" (inner ++ String "]" EmptyString).
Proof.
  unfold Js.slice. rewrite to_nat_len, drop_append.
  replace (Z.to_nat (Js.len pre + Js.len inner + 1 + 1 - Js.len pre))
    with (String.length (String "[" (inner ++ String "]" EmptyString)))
    by (simpl; rewrite length_append; unfold Js.len; simpl; lia).
  replace (String "[" (inner ++ String "]" post))
    with ((String "[" (inner ++ String "]" EmptyString)) ++ post)%string
    by (by rewrite append_cons, append_assoc).
  by rewrite take_append.
Qed.

(** X23. Let a text hold a serialized JSON array, with no brace and no
    bracket before it. Then strategy 3 parses exactly the characters of
    that array, from its opening bracket to the bracket that closes it,
    also when the array holds objects: the bracket comes first, so the
    braces are not what is matched. *)
Theorem tryBracketExtract_array (JSON_parse : string -> option Json)
        (pre arr post : string) :
  Js.indexOf "{" pre = -1 ->
  Js.indexOf "[" pre = -1 ->
  ArrayText arr ->
  tryBracketExtract JSON_parse (pre ++ arr ++ post)%string
  = tryDirectParse JSON_parse arr.
Proof.
  intros Hobj Harr (inner & -> & Hinner)%ArrayText_Balanced.
  pose proof (len_nonneg pre) as Hpre.
  unfold tryBracketExtract, Js.indexOf in *.
  rewrite !append_cons.
  rewrite (indexOfFrom_append "{" pre), (indexOfFrom_append "[" pre) by done.
  rewrite Z.add_0_l. simpl Js.indexOfFrom.
  set (startObj := Js.indexOfFrom "{" _ _).
  assert (Hobj' : startObj = -1 \/ Js.len pre + 1 <= startObj)
    by (apply indexOfFrom_range; lia).
  assert (Hnone : (Js.len pre =? -1) = false) by (apply Z.eqb_neq; lia).
  assert (Hfirst : (Js.len pre =? -1) || (negb (startObj =? -1) && (startObj <? Js.len pre))
                   = false).
  { rewrite Hnone. destruct Hobj' as [-> | ?]; [done|].
    apply orb_false_iff. split; [done|]. apply andb_false_iff. right.
    apply Z.ltb_ge. lia. }
  rewrite Hfirst, Hnone, andb_false_r. cbv iota beta.
  rewrite to_nat_len, drop_append.
  rewrite append_assoc, append_cons, append_nil_l.
  rewrite (scan_block "[" "]") by done.
  by rewrite slice_bracket_block.
Qed.

End ArrayScan.

Lemma arrayReply_ArrayText :
  ArrayText ("[{" ++ Js.dq ++ "id" ++ Js.dq ++ ": 1}, {" ++ Js.dq ++ "id" ++ Js.dq ++ ": 2}]").
Proof.
  assert (Hobj : forall d : ascii,
             Grammar.isDigit d = true -> d <> "0"%char ->
             Grammar.Text Grammar.value
               ("{" ++ (Js.dq ++ "id" ++ Js.dq ++ ": " ++ Js.str d) ++ "}")).
  { intros d Hd Hnz. apply Grammar.T_object.
    apply (Grammar.T_member EmptyString "id" EmptyString " " (Js.str d) EmptyString);
      try reflexivity.
    - repeat first [apply Grammar.Chars_nil
                   | apply Grammar.Chars_plain; [discriminate|discriminate|reflexivity|]].
    - apply Grammar.T_number.
      exists EmptyString, (Js.str d), EmptyString, EmptyString.
      repeat split; try (by left); try done.
      + simpl. by rewrite Hd.
      + right. intros [r [= -> _]]. done. }
  exists ("{" ++ Js.dq ++ "id" ++ Js.dq ++ ": 1}, {" ++ Js.dq ++ "id" ++ Js.dq ++ ": 2}").
  split; [reflexivity|]. right.
  apply (Grammar.T_elements EmptyString
           ("{" ++ (Js.dq ++ "id" ++ Js.dq ++ ": " ++ "1") ++ "}") EmptyString
           (" " ++ ("{" ++ (Js.dq ++ "id" ++ Js.dq ++ ": " ++ "2") ++ "}") ++ EmptyString));
    try reflexivity.
  - by apply (Hobj "1"%char).
  - apply (Grammar.T_element " " ("{" ++ (Js.dq ++ "id" ++ Js.dq ++ ": " ++ "2") ++ "}")
             EmptyString); try reflexivity.
    by apply (Hobj "2"%char).
Defined.

Lemma tryBracketExtract_array_witness :
  Parser.tryBracketExtract JSON.parse arrayReply
  = Parser.tryDirectParse JSON.parse
      ("[{" ++ Js.dq ++ "id" ++ Js.dq ++ ": 1}, {" ++ Js.dq ++ "id" ++ Js.dq ++ ": 2}]").
Proof.
  apply (tryBracketExtract_array JSON.parse "Two results: "
           ("[{" ++ Js.dq ++ "id" ++ Js.dq ++ ": 1}, {" ++ Js.dq ++ "id" ++ Js.dq ++ ": 2}]")
           " as asked.").
  - reflexivity.
  - reflexivity.
  - exact arrayReply_ArrayText.
Defined.

Example tryBracketExtract_arrayReply :
  Parser.tryBracketExtract JSON.parse arrayReply
  = JArr [JObj [("id", JInt 1)]; JObj [("id", JInt 2)]].
Proof. vm_compute. reflexivity. Qed.

Section Fences.
Import Parser.
Context (JSON_parse : string -> option Json).

Lemma afterFence_skip (c : ascii) (s : string) :
  c <> "`"%char -> afterFence (String c s) = afterFence s.
Proof.
  intros Hc. destruct c as [[] [] [] [] [] [] [] []]; try reflexivity. by destruct Hc.
Qed.

Lemma beforeFence_skip (c : ascii) (s : string) :
  c <> "`"%char ->
  beforeFence (String c s)
  = match beforeFence s with Some t => Some (String c t) | None => None end.
Proof.
  intros Hc. destruct c as [[] [] [] [] [] [] [] []]; try reflexivity. by destruct Hc.
Qed.

Lemma afterFence_pre (pre rest : string) :
  lacks "`" pre = true -> afterFence (pre ++ "```" ++ rest) = Some rest.
Proof.
  induction pre as [|c pre IH]; [done|].
  intros [Hc Hpre]%lacks_cons. rewrite append_cons, afterFence_skip; [auto|].
  by apply Ascii.eqb_neq.
Qed.

Lemma afterFence_none (s : string) : lacks "`" s = true -> afterFence s = None.
Proof.
  induction s as [|c s IH]; [done|].
  intros [Hc Hs]%lacks_cons. rewrite afterFence_skip; [auto|].
  by apply Ascii.eqb_neq.
Qed.

Lemma beforeFence_body (body post : string) :
  lacks "`" body = true -> beforeFence (body ++ "```" ++ post) = Some body.
Proof.
  induction body as [|c body IH]; [done|].
  intros [Hc Hbody]%lacks_cons. rewrite append_cons, beforeFence_skip, IH; [done..|].
  by apply Ascii.eqb_neq.
Qed.

Lemma prefix_json (rest : string) : String.prefix "json" ("json" ++ rest) = true.
Proof. simpl. by destruct rest. Qed.

Lemma prefix_json_other (d : ascii) (rest : string) :
  d <> "j"%char -> String.prefix "json" (String d rest) = false.
Proof.
  intros Hd.
  change (String.prefix "json" (String d rest))
    with (if Ascii.ascii_dec "j" d then String.prefix "son" rest else false).
  destruct (Ascii.ascii_dec "j" d) as [<-|]; [by destruct Hd|done].
Qed.

(** X24. On a text with a code fence, tagged [json] or not, strategy 2
    parses what stands between the fence and the next one, trimmed:
    the text before the opening fence, the white space after the tag and
    whatever follows the closing fence leave the result unchanged. *)
Theorem tryCodeFenceParse_fenced (pre tag ws body post : string) (c : ascii) :
  lacks "`" pre = true ->
  lacks "`" (String c body) = true ->
  allWhiteSpace ws = true ->
  Js.isWhiteSpace c = false ->
  tag = "json" \/ (tag = EmptyString /\ c <> "j"%char) ->
  tryCodeFenceParse JSON_parse
    (pre ++ "```" ++ tag ++ ws ++ String c body ++ "```" ++ post)
  = tryDirectParse JSON_parse (Js.trim (String c body)).
Proof.
  intros Hpre Hbody Hws Hc Htag. unfold tryCodeFenceParse, fenceGroup.
  rewrite afterFence_pre by done.
  assert (Hstart : Js.trimStart (ws ++ String c body ++ "```" ++ post)
                   = String c body ++ "```" ++ post).
  { rewrite trimStart_pad by done. rewrite append_cons. simpl. by rewrite Hc. }
  destruct Htag as [-> | [-> Hj]].
  - rewrite prefix_json.
    change (Js.drop 4 ("json" ++ ws ++ String c body ++ "```" ++ post))
      with (ws ++ String c body ++ "```" ++ post).
    by rewrite Hstart, beforeFence_body.
  - rewrite append_nil_l.
    assert (Hno : String.prefix "json" (ws ++ String c body ++ "```" ++ post) = false).
    { destruct ws as [|d ws].
      - rewrite append_nil_l, append_cons. by apply prefix_json_other.
      - rewrite append_cons. apply prefix_json_other. intros ->.
        unfold allWhiteSpace in Hws. simpl in Hws. discriminate Hws. }
    by rewrite Hno, Hstart, beforeFence_body.
Qed.

Lemma indexOf_lacks (c : ascii) (s : string) :
  lacks c s = true -> Js.indexOf c s = (-1)%Z.
Proof. apply lacks_indexOfFrom. Qed.

(** X25. A text that is not JSON as it stands and holds neither a
    backquote, nor a brace, nor a bracket gives [invalid_json], whatever
    the validator, which is not called; the error carries the text as it
    came, untrimmed. *)
Theorem parseJSON_no_candidate (raw : string) (validate : Json -> Js.Outcome bool) :
  JSON_parse (Js.trim raw) = None ->
  lacks "`" (Js.trim raw) = true ->
  lacks "{" (Js.trim raw) = true ->
  lacks "[" (Js.trim raw) = true ->
  parseJSON JSON_parse raw validate
  = Js.Return (Failure {| raw := raw;
                          message := "Failed to extract valid JSON from LLM response.";
                          kind := invalid_json |}).
Proof.
  intros Hparse Hfence Hobj Harr.
  unfold parseJSON, tryDirectParse, tryCodeFenceParse, fenceGroup, tryBracketExtract.
  by rewrite Hparse, afterFence_none, !indexOf_lacks.
Qed.

Lemma trimEnd_idem (s : string) : Js.trimEnd (Js.trimEnd s) = Js.trimEnd s.
Proof.
  induction s as [|c s IH]; [done|]. simpl.
  destruct (Js.trimEnd s) as [|d t] eqn:E.
  - destruct (Js.isWhiteSpace c) eqn:Hc; [done|]. simpl. by rewrite Hc.
  - simpl in *. by rewrite IH.
Qed.

Lemma trimStart_trimEnd (s : string) :
  Js.trimStart s = s -> Js.trimStart (Js.trimEnd s) = Js.trimEnd s.
Proof.
  destruct s as [|c s]; [done|]. simpl.
  destruct (Js.isWhiteSpace c) eqn:Hc.
  - intros H. apply (f_equal String.length) in H. simpl in H.
    destruct (trimStart_length s) as [E|Hlt]; [rewrite E in H|]; lia.
  - intros _. destruct (Js.trimEnd s); simpl; by rewrite Hc.
Qed.

Lemma trimStart_idem (s : string) : Js.trimStart (Js.trimStart s) = Js.trimStart s.
Proof.
  induction s as [|c s IH]; [done|]. simpl.
  destruct (Js.isWhiteSpace c) eqn:Hc; [done|]. simpl. by rewrite Hc.
Qed.

Lemma trim_idem (s : string) : Js.trim (Js.trim s) = Js.trim s.
Proof.
  unfold Js.trim. rewrite trimStart_trimEnd by apply trimStart_idem.
  apply trimEnd_idem.
Qed.

(** X26. White space around a reply does not change what [parseJSON]
    makes of it: the trimmed reply gives the same value, or an error of
    the same kind with the same message, or the exception the validator
    threw. *)
Theorem parseJSON_trim (raw : string) (validate : Json -> Js.Outcome bool) :
  match parseJSON JSON_parse raw validate with
  | Js.Return (Success d) =>
      parseJSON JSON_parse (Js.trim raw) validate = Js.Return (Success d)
  | Js.Return (Failure e) =>
      parseJSON JSON_parse (Js.trim raw) validate
      = Js.Return (Failure {| raw := Js.trim raw; message := message e; kind := kind e |})
  | Js.Throw e => parseJSON JSON_parse (Js.trim raw) validate = Js.Throw e
  end.
Proof.
  unfold parseJSON. rewrite trim_idem.
  destruct (_ ?? _ ?? _); try done; by destruct (validate _) as [[]|].
Qed.

End Fences.

Lemma tryCodeFenceParse_fenced_witness :
  Parser.tryCodeFenceParse JSON.parse
    (("Here you go:" ++ Js.nl) ++ "```" ++ "json" ++ Js.nl
       ++ String "{" (Js.dq ++ "ok" ++ Js.dq ++ ": true}" ++ Js.nl) ++ "```"
       ++ (Js.nl ++ "Done."))
  = Parser.tryDirectParse JSON.parse
      (Js.trim (String "{" (Js.dq ++ "ok" ++ Js.dq ++ ": true}" ++ Js.nl))).
Proof.
  apply (tryCodeFenceParse_fenced JSON.parse ("Here you go:" ++ Js.nl) "json" Js.nl
           (Js.dq ++ "ok" ++ Js.dq ++ ": true}" ++ Js.nl) (Js.nl ++ "Done.") "{");
    try reflexivity.
  by left.
Defined.

Lemma parseJSON_no_candidate_witness :
  Parser.parseJSON JSON.parse "  I cannot answer that.  " (fun _ => Js.Return true)
  = Js.Return
      (Parser.Failure {| Parser.raw := "  I cannot answer that.  ";
                         Parser.message := "Failed to extract valid JSON from LLM response.";
                         Parser.kind := Parser.invalid_json |}).
Proof.
  apply (parseJSON_no_candidate JSON.parse "  I cannot answer that.  "
           (fun _ => Js.Return true));
    reflexivity.
Defined.

(** On the fenced example, the whole parser gives the object. *)
Example parseJSON_fencedReply :
  Parser.parseJSON JSON.parse fencedReply (fun _ => Js.Return true)
  = Js.Return (Parser.Success (JObj [("ok", JBool true)])).
Proof. vm_compute. reflexivity. Qed.

(* ------------------------------------------------------------------------- *)
(** ** The command line *)
(* ------------------------------------------------------------------------- *)

Section CommandLine.
Context (host : Host) (dirname : string).
Local Open Scope list_scope.




End CommandLine.

(* ------------------------------------------------------------------------- *)
(** ** The Gemini provider *)
(* ------------------------------------------------------------------------- *)

Section Provider.
Import Gemini.
Context (JSON_parse : string -> option Json).

Lemma member_returns (v : Json) (key : string) :
  v <> JNull -> exists x, member (Some v) key = Js.Return x.
Proof. destruct v; try done; by eexists. Qed.

Lemma truthy_value (v : Value) : truthy v = true -> exists j, v = Some j /\ j <> JNull.
Proof. destruct v as [[]|]; try done; by eexists. Qed.

Lemma extractContent_returns (parsed : Json) :
  parsed <> JNull -> exists c, extractContent (Some parsed) = Js.Return c.
Proof.
  intros Hnn. unfold extractContent.
  destruct (member_returns parsed "candidates" Hnn) as [candidates ->]. simpl.
  destruct (truthy (optFirst candidates)) eqn:Hc; simpl; [|by eexists].
  apply truthy_value in Hc as (candidate & -> & Hcn).
  destruct (member_returns candidate "content" Hcn) as [content ->]. simpl.
  destruct (truthy (optFirst (optMember content "parts"))) eqn:Hp; simpl; [|by eexists].
  apply truthy_value in Hp as (part & -> & Hpn).
  destruct (member_returns part "text" Hpn) as [text ->]. simpl. by eexists.
Qed.

(** What [complete] settles on for a body that parsed to something other
    than [null]. *)
Lemma complete_parsed (status : Z) (rawBody : string) (parsed : Json) :
  JSON_parse rawBody = Some parsed -> parsed <> JNull ->
  exists result,
    complete JSON_parse (Responded true status (Some rawBody)) = Resolved result
    /\ match result with
       | Success r =>
           content r <> JNull
           /\ extractContent (Some parsed) = Js.Return (content r)
           /\ model r = GEMINI_MODEL /\ provider r = "gemini"
       | Failure e => (kind e = api_error \/ kind e = parse_error)
       end.
Proof.
  intros Hparse Hnn. unfold complete. simpl negb. cbv iota. rewrite Hparse.
  destruct (member_returns parsed "error" Hnn) as [error ->]. cbn [Js.obind].
  destruct (truthy error) eqn:Herr.
  - apply truthy_value in Herr as (err & -> & Hen).
    destruct (member_returns err "message" Hen) as [m ->].
    destruct (member_returns err "code" Hen) as [c ->]. cbn [Js.obind].
    eexists. split; [reflexivity|]. by left.
  - destruct (extractContent_returns parsed Hnn) as [content Hcontent].
    rewrite Hcontent. cbn [Js.obind].
    destruct (member_returns parsed "usageMetadata" Hnn) as [usage ->].
    destruct content; cbn [Js.obind];
      (eexists; split; [reflexivity|]); try (by right); by repeat split.
Qed.

(** X28. The promise of [complete] is rejected in exactly two cases: the
    body of the response cannot be read, or the response is an ok one
    whose body is the JSON text [null]. In every other case it resolves
    to a result. *)
Theorem complete_rejects_iff (fetched : Fetched) :
  (exists reason, complete JSON_parse fetched = Rejected reason)
  <-> (exists ok status, fetched = Responded ok status None)
      \/ (exists status rawBody,
            fetched = Responded true status (Some rawBody)
            /\ JSON_parse rawBody = Some JNull).
Proof.
  split.
  - intros [reason H]. destruct fetched as [m|ok status [rawBody|]].
    + unfold complete in H. by destruct (_ || _).
    + destruct ok; [|discriminate H]. right. exists status, rawBody. split; [done|].
      destruct (JSON_parse rawBody) as [parsed|] eqn:Hparse.
      * assert (Hcases : parsed = JNull \/ parsed <> JNull)
          by (destruct parsed; by auto).
        destruct Hcases as [->|Hnn]; [done|].
        destruct (complete_parsed status rawBody parsed Hparse Hnn) as (r & Hr & _).
        congruence.
      * unfold complete in H. simpl in H. rewrite Hparse in H. discriminate H.
    + left. by exists ok, status.
  - intros [(ok & status & ->)|(status & rawBody & -> & Hparse)].
    + by eexists.
    + unfold complete. rewrite Hparse. by eexists.
Qed.

(** X29. What a result of [complete] says about the exchange. A success
    comes from an ok response whose body parsed, carries the text
    [extractContent] found there, which is not [null], and names the model
    and the provider. An error of kind [timeout] comes from a failed
    [fetch] whose message mentions an abort or a timeout; [rate_limit]
    from a response that is not ok with status 429; [auth_error] from one
    with status 401 or 403; [parse_error] from an ok response. Every error
    for a response that is not ok carries its status. *)
Theorem complete_outcomes (fetched : Fetched) (result : LLMResult) :
  complete JSON_parse fetched = Resolved result ->
  match result with
  | Success r =>
      exists status rawBody parsed,
        fetched = Responded true status (Some rawBody)
        /\ JSON_parse rawBody = Some parsed
        /\ extractContent (Some parsed) = Js.Return (content r)
        /\ content r <> JNull
        /\ model r = GEMINI_MODEL /\ provider r = "gemini"
  | Failure e =>
      match kind e with
      | timeout =>
          exists m, fetched = NetworkError m
                    /\ includes m "abort" || includes m "timeout"
                       || includes m "TimeoutError" = true
      | rate_limit => exists rawBody, fetched = Responded false 429 (Some rawBody)
      | auth_error =>
          exists status rawBody,
            fetched = Responded false status (Some rawBody)
            /\ (status = 401 \/ status = 403)%Z
      | parse_error => exists status rawBody, fetched = Responded true status (Some rawBody)
      | api_error => True
      end
      /\ forall status text,
           fetched = Responded false status text -> statusCode e = Some (JInt status)
  end.
Proof.
  intros H. destruct fetched as [m|ok status [rawBody|]]; [| |discriminate H].
  - unfold complete in H.
    destruct (includes m "abort" || includes m "timeout" || includes m "TimeoutError")
      eqn:Hm; injection H as <-; simpl; (split; [|done]); [by exists m|done].
  - destruct ok.
    + destruct (JSON_parse rawBody) as [parsed|] eqn:Hparse.
      * assert (Hcases : parsed = JNull \/ parsed <> JNull)
          by (destruct parsed; by auto).
        destruct Hcases as [->|Hnn].
        { unfold complete in H. rewrite Hparse in H. discriminate H. }
        destruct (complete_parsed status rawBody parsed Hparse Hnn) as (r & Hr & Hfacts).
        rewrite Hr in H. injection H as <-. destruct r as [r|e].
        -- destruct Hfacts as (? & ? & ? & ?). by exists status, rawBody, parsed.
        -- split; [|done]. destruct Hfacts as [-> | ->]; [done|by eexists _, _].
      * unfold complete in H. simpl in H. rewrite Hparse in H. injection H as <-.
        simpl. split; [by eexists _, _|done].
    + unfold complete in H. simpl in H. injection H as <-. unfold classifyHttpError.
      destruct (Z.eqb_spec status 429) as [->|]; simpl.
      { split; [by eexists|]. by intros ? ? [= <- _]. }
      destruct (Z.eqb_spec status 401) as [->|]; simpl.
      { split; [by eexists _, _; eauto|]. by intros ? ? [= <- _]. }
      destruct (Z.eqb_spec status 403) as [->|]; simpl.
      { split; [by eexists _, _; eauto|]. by intros ? ? [= <- _]. }
      split; [done|]. by intros ? ? [= <- _].
Qed.

(** X30. On an ok response whose body has the documented shape,
    [complete] resolves to a success with exactly the text of the first
    part of the first candidate, also when that text is empty, and with
    the three token counts of the body, or 0 for each when the body has
    none. *)
Theorem complete_success (status : Z) (rawBody text : string)
        (moreParts moreCandidates : list Json) (counts : option (Z * Z * Z)) :
  JSON_parse rawBody = Some (geminiBody text moreParts moreCandidates counts) ->
  complete JSON_parse (Responded true status (Some rawBody))
  = Resolved (Success
      {| content := JStr text;
         usage :=
           match counts with
           | Some (prompt, candidates, total) =>
               {| promptTokens := JInt prompt; completionTokens := JInt candidates;
                  totalTokens := JInt total |}
           | None =>
               {| promptTokens := JInt 0; completionTokens := JInt 0;
                  totalTokens := JInt 0 |}
           end;
         model := "gemini-2.0-flash";
         provider := "gemini" |}).
Proof.
  intros Hparse. unfold complete. simpl negb. cbv iota. rewrite Hparse.
  by destruct counts as [[[prompt candidates] total]|].
Qed.

End Provider.

Lemma complete_outcomes_witness :
  (exists rawBody,
     Gemini.Responded false 429 (Some "slow down") = Gemini.Responded false 429 (Some rawBody))
  /\ forall status text,
       Gemini.Responded false 429 (Some "slow down") = Gemini.Responded false status text ->
       Gemini.statusCode (Gemini.classifyHttpError 429 "slow down") = Some (JInt status).
Proof.
  exact (complete_outcomes JSON.parse (Gemini.Responded false 429 (Some "slow down"))
           (Gemini.Failure (Gemini.classifyHttpError 429 "slow down")) eq_refl).
Defined.

Lemma complete_success_witness :
  Gemini.complete JSON.parse
    (Gemini.Responded true 200
       (Some ("{" ++ Js.dq ++ "candidates" ++ Js.dq ++ ":[{" ++ Js.dq ++ "content" ++ Js.dq
              ++ ":{" ++ Js.dq ++ "parts" ++ Js.dq ++ ":[{" ++ Js.dq ++ "text" ++ Js.dq ++ ":"
              ++ Js.dq ++ "hi" ++ Js.dq ++ "}]," ++ Js.dq ++ "role" ++ Js.dq ++ ":" ++ Js.dq
              ++ "model" ++ Js.dq ++ "}}]}")))
  = Gemini.Resolved (Gemini.Success
      {| Gemini.content := JStr "hi";
         Gemini.usage := {| Gemini.promptTokens := JInt 0;
                            Gemini.completionTokens := JInt 0;
                            Gemini.totalTokens := JInt 0 |};
         Gemini.model := "gemini-2.0-flash";
         Gemini.provider := "gemini" |}).
Proof.
  apply (complete_success JSON.parse 200 _ "hi" [] [] None).
  vm_compute. reflexivity.
Defined.
